(** * A4_ZephyrRealTime: the real-time database firmware of [src/main.c]

    The firmware is a fixed set of Zephyr threads around one mutex-guarded
    record ([rtdb]), two message queues and a UART event callback.  Every
    thread body of [main.c] is written below as a program over the kernel
    and driver calls it makes (a free monad over [op]); one operational
    semantics ([exec_op]) gives both the run of a single handler to
    completion ([run_prog]) and the interleaving of all threads, call by
    call ([step], [execution]).

    Integers are [Z] with the C conversions written out, [float] is
    IEEE-754 binary32 through [SpecFloat], the arrays of [rtdb.data] are
    lists read and written by index.

    Properties of all interleavings are proved through trace automata: a
    thread body conforms to an automaton when every call it can make is
    allowed, and then every execution's trace is accepted and a relation
    between automaton states and shared state is an invariant. *)

From Stdlib Require Import ZArith Ascii String Lia Floats.SpecFloat.
From stdpp Require Import base tactics option list functions.

Local Open Scope Z_scope.

(** ** C scalar types *)

Module CInt.

(** [uint8_t] conversion: reduction modulo 2^8. *)
Definition to_u8 (z : Z) : Z := z mod 256.

(** [int16_t] conversion of an integer: two's-complement wrap to
    -32768..32767 (what the ARM toolchain does for [uint16_t -> int16_t]). *)
Definition to_i16 (z : Z) : Z := (z + 32768) mod 65536 - 32768.

(** [(bool)x]: any non-zero integer becomes 1. *)
Definition to_bool (z : Z) : Z := if z =? 0 then 0 else 1.

Definition INT_MIN : Z := -2147483648.
Definition INT_MAX : Z := 2147483647.

Definition in_i16 (z : Z) : Prop := -32768 <= z <= 32767.
Definition in_u8 (z : Z) : Prop := 0 <= z < 256.

(** The code of a character literal, as in ['1'] or ['0']. *)
Definition chr (c : ascii) : Z := Z.of_N (N_of_ascii c).

End CInt.
Export CInt.

(** ** IEEE-754 binary32 ([float]) *)

Module F32.

Definition prec : Z := 24.
Definition emax : Z := 128.

(** Integer to [float] conversion, round to nearest even. *)
Definition of_int (z : Z) : spec_float := binary_normalize prec emax z 0 false.

Definition mul : spec_float -> spec_float -> spec_float := SFmul prec emax.
Definition div : spec_float -> spec_float -> spec_float := SFdiv prec emax.
Definition sub : spec_float -> spec_float -> spec_float := SFsub prec emax.

(** The integer part of a finite float, truncated toward zero. *)
Definition trunc (f : spec_float) : option Z :=
  match f with
  | S754_zero _ => Some 0
  | S754_finite s m e =>
      let mag := if 0 <=? e then Z.shiftl (Z.pos m) e
                 else Z.shiftr (Z.pos m) (- e) in
      Some (if s then - mag else mag)
  | S754_infinity _ | S754_nan => None
  end.

(** [(int)f]: truncation toward zero; undefined ([None]) for NaN, the
    infinities and values outside the range of [int]. *)
Definition to_int (f : spec_float) : option Z :=
  match trunc f with
  | Some z => if (INT_MIN <=? z) && (z <=? INT_MAX) then Some z else None
  | None => None
  end.

End F32.

(** ** Data model *)

(** [IoModuleData]: [uint8_t led_state[4]], [uint8_t button_state[4]],
    [int16_t an_raw], [int an_val]. *)
Record IoModuleData : Type := mkIoModuleData {
  led_state : list Z;
  button_state : list Z;
  an_raw : Z;
  an_val : Z
}.

(** [SensorData]: [int16_t raw_value], [float temperature]. *)
Record SensorData : Type := mkSensorData {
  raw_value : Z;
  temperature : spec_float
}.

Global Instance spec_float_eq_dec : EqDecision spec_float.
Proof. solve_decision. Defined.

Global Instance SensorData_eq_dec : EqDecision SensorData.
Proof. solve_decision. Defined.

(** The threads of the firmware; [T_uart] is the context in which the
    driver runs [uart_callback], [T_main] the thread of [main]. *)
Inductive tid : Type :=
  | T_main | T_uart | T_led | T_button | T_sensor | T_process | T_database.

Global Instance tid_eq_dec : EqDecision tid.
Proof. solve_decision. Defined.

(** [enum uart_event_type] together with the [rx] payload of
    [UART_RX_RDY] ([buf], [offset], [len]). *)
Inductive uart_event : Type :=
  | UART_TX_DONE
  | UART_TX_ABORTED
  | UART_RX_RDY (buf : list Z) (offset len : nat)
  | UART_RX_BUF_REQUEST
  | UART_RX_BUF_RELEASED
  | UART_RX_DISABLED
  | UART_RX_STOPPED.

(** Receive buffers known to the program: only [rx_buf]. *)
Inductive buffer : Type := rx_buf.

Definition SLEEP_TIME_MS : Z := 1000.
Definition RECEIVE_BUFF_SIZE : Z := 10.
Definition RECEIVE_TIMEOUT : Z := 100.
Definition MSGQ_MAX_MSGS : nat := 10.

Definition sizeof_buffer (b : buffer) : Z :=
  match b with rx_buf => RECEIVE_BUFF_SIZE end.

(** ** GPIO lines *)

Inductive gpio_pin : Type :=
  | led0 | led1 | led2 | led3
  | button1 | button2 | button3 | button4.

Definition leds : list gpio_pin := [led0; led1; led2; led3].

(** The two flag words [configure_buttons_and_leds] passes. *)
Inductive gpio_flags : Type := GPIO_INPUT_PULL_UP | GPIO_OUTPUT_ACTIVE.

Inductive device : Type := uart | adc_dev.

(** Entry functions handed to [k_thread_create]. *)
Inductive entry : Type :=
  | E_uart_callback | E_sensor_reading_thread | E_data_processing_thread
  | E_database_thread.

(** ** Kernel and driver calls *)

(** One constructor per call the thread bodies make; the index is the type
    of the value the call gives back to the program. *)
Inductive op : Type -> Type :=
  | KMutexLock : op unit
  | KMutexUnlock : op unit
  | LoadLed (i : Z) : op Z
  | StoreLed (i v : Z) : op unit
  | LoadButton (i : Z) : op Z
  | StoreButton (i v : Z) : op unit
  | LoadAnRaw : op Z
  | StoreAnRaw (v : Z) : op unit
  | LoadAnVal : op Z
  | StoreAnVal (v : Z) : op unit
  | GpioPinGet (pin : gpio_pin) : op Z
  | GpioPinSet (pin : gpio_pin) (v : Z) : op unit
  | UartTx (bytes : string) : op Z
  | UartRxEnable (b : buffer) (len timeout : Z) : op Z
  | UartEvent : op uart_event
  | AdcChannelSetup : op unit
  | AdcRead : op Z
  | LoadAdcSample : op Z
  | MsgqPutRaw (v : Z) : op unit
  | MsgqGetRaw : op Z
  | MsgqPutData (d : SensorData) : op unit
  | MsgqGetData : op SensorData
  | KMsleep (ms : Z) : op unit
  | GpioPinConfigure (pin : gpio_pin) (flags : gpio_flags) : op unit
  | KMutexInit : op unit
  | MemsetRtdbData : op unit
  | DeviceIsReady (d : device) : op bool
  | Printk (s : string) : op unit
  | UartCallbackSet : op Z
  | KThreadCreate (f : entry) (prio : Z) : op unit
  | Undefined : op Empty_set.

(** Programs: a returned value, or a call followed by the rest of the
    program. *)
Inductive prog (A : Type) : Type :=
  | Ret (a : A)
  | Vis {X : Type} (e : op X) (k : X -> prog A).
Arguments Ret {A} a.
Arguments Vis {A X} e k.

Fixpoint bind {A B : Type} (p : prog A) (f : A -> prog B) : prog B :=
  match p with
  | Ret a => f a
  | Vis e k => Vis e (fun x => bind (k x) f)
  end.

Definition trigger {X : Type} (e : op X) : prog X := Vis e Ret.

Global Instance prog_ret : MRet prog := @Ret.
Global Instance prog_bind : MBind prog := fun A B f p => bind p f.

(** The C names of the calls. *)
Definition k_mutex_lock : prog unit := trigger KMutexLock.
Definition k_mutex_unlock : prog unit := trigger KMutexUnlock.
Definition k_msleep (ms : Z) : prog unit := trigger (KMsleep ms).
Definition gpio_pin_get_dt (pin : gpio_pin) : prog Z := trigger (GpioPinGet pin).
Definition gpio_pin_set_dt (pin : gpio_pin) (v : Z) : prog unit :=
  trigger (GpioPinSet pin v).
Definition uart_tx (bytes : string) : prog Z := trigger (UartTx bytes).
Definition uart_rx_enable (b : buffer) (len timeout : Z) : prog Z :=
  trigger (UartRxEnable b len timeout).
Definition gpio_pin_configure_dt (pin : gpio_pin) (flags : gpio_flags) : prog unit :=
  trigger (GpioPinConfigure pin flags).
Definition device_is_ready (d : device) : prog bool := trigger (DeviceIsReady d).
Definition printk (s : string) : prog unit := trigger (Printk s).
Definition uart_callback_set : prog Z := trigger UartCallbackSet.
Definition k_thread_create (f : entry) (prio : Z) : prog unit :=
  trigger (KThreadCreate f prio).
Definition adc_channel_setup : prog unit := trigger AdcChannelSetup.
Definition adc_read : prog Z := trigger AdcRead.
Definition undefined {A : Type} : prog A :=
  Vis Undefined (fun x : Empty_set => match x with end).

(** ** Formatting *)

Definition crlf : string := String "013" (String "010" EmptyString).
Definition nl : string := String "010" EmptyString.

(** [%d] of an [int]: the decimal digits of the magnitude, most significant
    first, after a minus sign for a negative value.  [digits fuel n acc]
    puts the digits of [n >= 0] in front of [acc]. *)
Definition digit (d : Z) : ascii := ascii_of_nat (48 + Z.to_nat d).

Fixpoint digits (fuel : nat) (n : Z) (acc : string) : string :=
  match fuel with
  | O => acc
  | S fuel' =>
      let acc' := String (digit (n mod 10)) acc in
      if n <? 10 then acc' else digits fuel' (n / 10) acc'
  end.

Definition fmt_u (n : Z) : string :=
  digits (S (Z.to_nat (Z.log2 n))) n EmptyString.

Definition fmt_d (z : Z) : string :=
  if z <? 0 then String "-" (fmt_u (- z)) else fmt_u z.

(** [snprintf(output, size, ...)] keeps at most [size - 1] characters of the
    formatted text; the result is the C string left in [output], whose
    [strlen] is the length of that string. *)
Definition snprintf (size : nat) (formatted : string) : string :=
  substring 0 (size - 1) formatted.

Definition sizeof_output : nat := 64.

(** ** The thread bodies of [main.c] *)

(** A value an undefined conversion does not deliver. *)
Definition cast {A : Type} (o : option A) : prog A :=
  match o with
  | Some a => Ret a
  | None => undefined
  end.

(** [for (int i = lo; i < lo + n; i++) body], threading the locals [L]. *)
Fixpoint for_range {L : Type} (n : nat) (i : Z) (body : Z -> L -> prog L) (l : L)
  : prog L :=
  match n with
  | O => Ret l
  | S n' => l' ← body i l; for_range n' (i + 1) body l'
  end.

Module Uart.

(** The [if]/[else if] chain of [uart_callback]: the text left in
    [output], or [None] where the source says [continue]. *)
Definition command (cmd : Z) : prog (option string) :=
  if (chr "1" <=? cmd) && (cmd <=? chr "4") then
    let led_idx := cmd - chr "1" in
    k_mutex_lock;;
    v ← trigger (LoadLed led_idx);
    trigger (StoreLed led_idx (to_u8 (Z.lxor v 1)));;
    k_mutex_unlock;;
    mret (Some (snprintf sizeof_output
                  ("Toggle LED " ++ fmt_d (led_idx + 1) ++ " " ++ crlf)%string))
  else if (chr "5" <=? cmd) && (cmd <=? chr "8") then
    let button_idx := cmd - chr "5" in
    k_mutex_lock;;
    state ← trigger (LoadButton button_idx);
    k_mutex_unlock;;
    mret (Some (snprintf sizeof_output
                  ("Button " ++ fmt_d (button_idx + 1) ++ " state: "
                   ++ fmt_d state ++ crlf)%string))
  else if cmd =? chr "9" then
    k_mutex_lock;;
    raw_value ← trigger LoadAnRaw;
    k_mutex_unlock;;
    mret (Some (snprintf sizeof_output
                  ("Raw sensor value: " ++ fmt_d raw_value ++ crlf)%string))
  else if cmd =? chr "0" then
    k_mutex_lock;;
    processed_value ← trigger LoadAnVal;
    k_mutex_unlock;;
    mret (Some (snprintf sizeof_output
                  ("Processed sensor value: " ++ fmt_d processed_value
                   ++ "  Celsius" ++ crlf)%string))
  else
    mret None.

(** One iteration of the [for] loop over the received bytes. *)
Definition handle_byte (cmd : Z) : prog unit :=
  output ← command cmd;
  match output with
  | Some output => uart_tx output;; Ret tt
  | None => Ret tt
  end.

(** [for (int i = 0; i < evt->data.rx.len; i++)] reading
    [evt->data.rx.buf[evt->data.rx.offset + i]]. *)
Fixpoint rx_loop (buf : list Z) (offset i : nat) (n : nat) : prog unit :=
  match n with
  | O => Ret tt
  | S n' =>
      cmd ← cast (buf !! (offset + i)%nat);
      handle_byte cmd;;
      rx_loop buf offset (S i) n'
  end.

Definition uart_callback (evt : uart_event) : prog unit :=
  match evt with
  | UART_RX_RDY buf offset len => rx_loop buf offset 0 len
  | UART_RX_DISABLED =>
      uart_rx_enable rx_buf (sizeof_buffer rx_buf) RECEIVE_TIMEOUT;; Ret tt
  | _ => Ret tt
  end.

(** The driver raising one event and running the callback on it. *)
Definition isr : prog unit :=
  evt ← trigger UartEvent; uart_callback evt.

End Uart.

Module Led.

Definition current_led_states_init : list Z := [0; 0; 0; 0].

(** The body of [for (int i = 0; i < 4; i++)] in [led_thread]. *)
Definition sync_one (i : Z) (current_led_states : list Z) : prog (list Z) :=
  v ← trigger (LoadLed i);
  cur ← cast (current_led_states !! Z.to_nat i);
  if bool_decide (v ≠ cur) then
    pin ← cast (leds !! Z.to_nat i);
    v1 ← trigger (LoadLed i);
    gpio_pin_set_dt pin v1;;
    v2 ← trigger (LoadLed i);
    mret (<[Z.to_nat i := v2]> current_led_states)
  else
    mret current_led_states.

(** One turn of [while (1)] in [led_thread]. *)
Definition led_thread (current_led_states : list Z) : prog (list Z) :=
  k_mutex_lock;;
  current_led_states ← for_range 4 0 sync_one current_led_states;
  k_mutex_unlock;;
  k_msleep 100;;
  mret current_led_states.

End Led.

Module Button.

(** One of the four "check button" blocks of [button_thread]. *)
Definition check_button (pin : gpio_pin) (idx : Z) : prog unit :=
  r ← gpio_pin_get_dt pin;
  let current_state := to_bool r in
  stored ← trigger (LoadButton idx);
  if bool_decide (current_state ≠ stored) then
    trigger (StoreButton idx current_state)
  else
    Ret tt.

(** One turn of [while (1)] in [button_thread]. *)
Definition button_thread : prog unit :=
  k_mutex_lock;;
  check_button button1 0;;
  check_button button2 1;;
  check_button button3 2;;
  check_button button4 3;;
  k_mutex_unlock;;
  k_msleep 100.

End Button.

Module Pipeline.

(** [read_adc]: one [adc_read] into [adc_sample_buffer]. *)
Definition read_adc : prog Z := adc_read.

(** One turn of [while (1)] in [sensor_reading_thread]. *)
Definition sensor_reading_thread : prog unit :=
  ret ← read_adc;
  (if ret =? 0 then
     sample ← trigger LoadAdcSample;
     let raw_value := to_i16 sample in
     trigger (MsgqPutRaw raw_value)
   else Ret tt);;
  k_msleep 1000.

(** [(raw_value / 1023.0f) * 3.0f] *)
Definition voltage_of (raw_value : Z) : spec_float :=
  F32.mul (F32.div (F32.of_int raw_value) (F32.of_int 1023)) (F32.of_int 3).

(** [(int)(60000 * (voltage - 1))] *)
Definition scaled (voltage : spec_float) : option Z :=
  F32.to_int (F32.mul (F32.of_int 60000) (F32.sub voltage (F32.of_int 1))).

(** One turn of [while (1)] in [data_processing_thread]. *)
Definition data_processing_thread : prog unit :=
  raw_value ← trigger MsgqGetRaw;
  let voltage := voltage_of raw_value in
  t ← cast (scaled voltage);
  let data := {| raw_value := raw_value; temperature := F32.of_int t |} in
  trigger (MsgqPutData data).

(** One turn of [while (1)] in [database_thread]. *)
Definition database_thread : prog unit :=
  data ← trigger MsgqGetData;
  k_mutex_lock;;
  trigger (StoreAnRaw (raw_value data));;
  v ← cast (F32.to_int (temperature data));
  trigger (StoreAnVal v);;
  k_mutex_unlock.

End Pipeline.

Module Main.

Definition configure_buttons_and_leds : prog unit :=
  gpio_pin_configure_dt button1 GPIO_INPUT_PULL_UP;;
  gpio_pin_configure_dt button2 GPIO_INPUT_PULL_UP;;
  gpio_pin_configure_dt button3 GPIO_INPUT_PULL_UP;;
  gpio_pin_configure_dt button4 GPIO_INPUT_PULL_UP;;
  gpio_pin_configure_dt led0 GPIO_OUTPUT_ACTIVE;;
  gpio_pin_configure_dt led1 GPIO_OUTPUT_ACTIVE;;
  gpio_pin_configure_dt led2 GPIO_OUTPUT_ACTIVE;;
  gpio_pin_configure_dt led3 GPIO_OUTPUT_ACTIVE.

(** [tx_buf], all [sizeof(tx_buf)] bytes of it: the text and its
    terminating NUL. *)
Definition tx_buf : string :=
  ("xxxxxxxxxxxxxx Welcome xxxxxxxxxxxxxx"
   ++ String "010" (String "013" (String "000" EmptyString)))%string.

(** [main]; the result is its return value. *)
Definition main : prog Z :=
  configure_buttons_and_leds;;
  trigger KMutexInit;;
  trigger MemsetRtdbData;;
  ready ← device_is_ready uart;
  if negb ready then printk ("UART device not ready" ++ nl)%string;; mret 1 else
  ready ← device_is_ready adc_dev;
  if negb ready then printk ("ADC device not ready" ++ nl)%string;; mret 1 else
  ret ← uart_callback_set;
  if negb (ret =? 0) then printk ("Failed to set UART callback" ++ nl)%string;; mret 1 else
  ret ← uart_tx tx_buf;
  if negb (ret =? 0) then printk ("UART transmission failed" ++ nl)%string;; mret 1 else
  ret ← uart_rx_enable rx_buf (sizeof_buffer rx_buf) RECEIVE_TIMEOUT;
  if negb (ret =? 0) then mret 1 else
  k_thread_create E_uart_callback 6;;
  k_thread_create E_sensor_reading_thread 7;;
  k_thread_create E_data_processing_thread 6;;
  k_thread_create E_database_thread 5;;
  k_msleep SLEEP_TIME_MS;;
  mret 0.

End Main.

(** ** Operational semantics *)

(** Everything the threads share: [rtdb], the two message queues in use
    ([msgq_adc_raw], [msgq_sensor_data]), [adc_sample_buffer], and whether
    the serial driver currently has reception enabled. *)
Record world : Type := mkWorld {
  rtdb_data : IoModuleData;
  rtdb_lock : option tid;
  msgq_adc_raw : list Z;
  msgq_sensor_data : list SensorData;
  adc_sample_buffer : Z;
  rx_enabled : bool
}.

Definition set_data (d : IoModuleData) (w : world) : world :=
  mkWorld d (rtdb_lock w) (msgq_adc_raw w) (msgq_sensor_data w)
          (adc_sample_buffer w) (rx_enabled w).
Definition set_lock (l : option tid) (w : world) : world :=
  mkWorld (rtdb_data w) l (msgq_adc_raw w) (msgq_sensor_data w)
          (adc_sample_buffer w) (rx_enabled w).
Definition set_msgq_adc_raw (q : list Z) (w : world) : world :=
  mkWorld (rtdb_data w) (rtdb_lock w) q (msgq_sensor_data w)
          (adc_sample_buffer w) (rx_enabled w).
Definition set_msgq_sensor_data (q : list SensorData) (w : world) : world :=
  mkWorld (rtdb_data w) (rtdb_lock w) (msgq_adc_raw w) q
          (adc_sample_buffer w) (rx_enabled w).
Definition set_adc_sample_buffer (v : Z) (w : world) : world :=
  mkWorld (rtdb_data w) (rtdb_lock w) (msgq_adc_raw w) (msgq_sensor_data w)
          v (rx_enabled w).
Definition set_rx_enabled (b : bool) (w : world) : world :=
  mkWorld (rtdb_data w) (rtdb_lock w) (msgq_adc_raw w) (msgq_sensor_data w)
          (adc_sample_buffer w) b.

Definition set_led_state (l : list Z) (d : IoModuleData) : IoModuleData :=
  mkIoModuleData l (button_state d) (an_raw d) (an_val d).
Definition set_button_state (l : list Z) (d : IoModuleData) : IoModuleData :=
  mkIoModuleData (led_state d) l (an_raw d) (an_val d).
Definition set_an_raw (v : Z) (d : IoModuleData) : IoModuleData :=
  mkIoModuleData (led_state d) (button_state d) v (an_val d).
Definition set_an_val (v : Z) (d : IoModuleData) : IoModuleData :=
  mkIoModuleData (led_state d) (button_state d) (an_raw d) v.

(** What the hardware answers to the call being made: the level of a GPIO
    line or the return code of [adc_read] ([in_int]), the sample the ADC
    delivers ([in_sample]), the event the serial driver raises
    ([in_event]). *)
Record input : Type := mkInput {
  in_int : Z;
  in_sample : Z;
  in_event : uart_event
}.

Definition no_input : input := mkInput 0 0 UART_TX_DONE.

Inductive result (A : Type) : Type :=
  | Done (a : A)
  | Blocked
  | Fault.
Arguments Done {A} a.
Arguments Blocked {A}.
Arguments Fault {A}.

(** An element of a 4-element array of [rtdb.data]; an index outside the
    array is undefined behaviour. *)
Definition load_elem (l : list Z) (i : Z) : option Z :=
  if (0 <=? i) && (i <? 4) then l !! Z.to_nat i else None.

Definition store_elem (l : list Z) (i v : Z) : option (list Z) :=
  if (0 <=? i) && (i <? 4) && (i <? Z.of_nat (length l))
  then Some (<[Z.to_nat i := v]> l) else None.

Definition of_option {A : Type} (o : option A) : result A :=
  match o with
  | Some a => Done a
  | None => Fault
  end.

(** [memset(&rtdb.data, 0, sizeof(rtdb.data))] *)
Definition rtdb_zero : IoModuleData :=
  mkIoModuleData [0; 0; 0; 0] [0; 0; 0; 0] 0 0.

(** The serial driver refuses [uart_rx_enable] with [-EBUSY] while
    reception is already enabled. *)
Definition EBUSY : Z := -16.

(** The effect of one call made by thread [t].  [k_mutex_lock] with
    [K_FOREVER] blocks while the mutex is held, [k_msgq_put] with
    [K_FOREVER] while the queue is full, [k_msgq_get] while it is empty.
    The context of the callback waits for the mutex like any thread.  No
    thread of [main.c] locks the mutex it already holds ([hold_accepted]
    below), so the nesting count of a Zephyr mutex is left out. *)
Definition exec_op (t : tid) (inp : input) {X : Type} (e : op X) (w : world)
  : result (X * world) :=
  match e in op X return result (X * world) with
  | KMutexLock =>
      match rtdb_lock w with
      | None => Done (tt, set_lock (Some t) w)
      | Some _ => Blocked
      end
  | KMutexUnlock =>
      if bool_decide (rtdb_lock w = Some t) then Done (tt, set_lock None w)
      else Done (tt, w)
  | LoadLed i =>
      of_option (v ← load_elem (led_state (rtdb_data w)) i; Some (v, w))
  | StoreLed i v =>
      of_option (l ← store_elem (led_state (rtdb_data w)) i v;
                 Some (tt, set_data (set_led_state l (rtdb_data w)) w))
  | LoadButton i =>
      of_option (v ← load_elem (button_state (rtdb_data w)) i; Some (v, w))
  | StoreButton i v =>
      of_option (l ← store_elem (button_state (rtdb_data w)) i v;
                 Some (tt, set_data (set_button_state l (rtdb_data w)) w))
  | LoadAnRaw => Done (an_raw (rtdb_data w), w)
  | StoreAnRaw v => Done (tt, set_data (set_an_raw v (rtdb_data w)) w)
  | LoadAnVal => Done (an_val (rtdb_data w), w)
  | StoreAnVal v => Done (tt, set_data (set_an_val v (rtdb_data w)) w)
  | GpioPinGet _ => Done (in_int inp, w)
  | GpioPinSet _ _ => Done (tt, w)
  | UartTx _ => Done (in_int inp, w)
  | UartRxEnable _ _ _ =>
      if rx_enabled w then Done (EBUSY, w)
      else Done (0, set_rx_enabled true w)
  | UartEvent =>
      match in_event inp with
      | UART_RX_DISABLED => Done (UART_RX_DISABLED, set_rx_enabled false w)
      | evt => Done (evt, w)
      end
  | AdcChannelSetup => Done (tt, w)
  | AdcRead =>
      if in_int inp =? 0
      then Done (0, set_adc_sample_buffer (in_sample inp mod 65536) w)
      else Done (in_int inp, w)
  | LoadAdcSample => Done (adc_sample_buffer w, w)
  | MsgqPutRaw v =>
      if bool_decide (length (msgq_adc_raw w) < MSGQ_MAX_MSGS)%nat
      then Done (tt, set_msgq_adc_raw (msgq_adc_raw w ++ [v]) w)
      else Blocked
  | MsgqGetRaw =>
      match msgq_adc_raw w with
      | v :: q => Done (v, set_msgq_adc_raw q w)
      | [] => Blocked
      end
  | MsgqPutData d =>
      if bool_decide (length (msgq_sensor_data w) < MSGQ_MAX_MSGS)%nat
      then Done (tt, set_msgq_sensor_data (msgq_sensor_data w ++ [d]) w)
      else Blocked
  | MsgqGetData =>
      match msgq_sensor_data w with
      | d :: q => Done (d, set_msgq_sensor_data q w)
      | [] => Blocked
      end
  | KMsleep _ => Done (tt, w)
  | GpioPinConfigure _ _ => Done (tt, w)
  | KMutexInit => Done (tt, set_lock None w)
  | MemsetRtdbData => Done (tt, set_data rtdb_zero w)
  | DeviceIsReady _ => Done (negb (in_int inp =? 0), w)
  | Printk _ => Done (tt, w)
  | UartCallbackSet => Done (in_int inp, w)
  | KThreadCreate _ _ => Done (tt, w)
  | Undefined => Fault
  end.

(** A call that was made, with the value it returned. *)
Inductive call : Type :=
  | Call {X : Type} (e : op X) (x : X).

Definition trace : Type := list (tid * call).

(** Running one program of thread [t] to its end with no other thread
    taking a step; the k-th call is answered by the k-th input. *)
Fixpoint run_prog {A : Type} (t : tid) (p : prog A) (ins : list input) (w : world)
  : result (A * world * trace) :=
  match p with
  | Ret a => Done (a, w, [])
  | Vis e k =>
      match exec_op t (hd no_input ins) e w with
      | Done (x, w') =>
          match run_prog t (k x) (tl ins) w' with
          | Done (a, w'', tr) => Done (a, w'', (t, Call e x) :: tr)
          | Blocked => Blocked
          | Fault => Fault
          end
      | Blocked => Blocked
      | Fault => Fault
      end
  end.

(** ** The threads running together *)

(** What is left to run of each thread's current turn. *)
Record threads : Type := mkThreads {
  c_uart : prog unit;
  c_led : prog (list Z);
  c_button : prog unit;
  c_sensor : prog unit;
  c_process : prog unit;
  c_database : prog unit
}.

Record system : Type := mkSystem {
  shared : world;
  conts : threads
}.

(** One step of a thread: its next call, or, at the end of a turn of its
    [while (1)], the start of the next turn. *)
Definition step_thread {L : Type} (t : tid) (inp : input) (loop : L -> prog L)
    (p : prog L) (w : world) : result (prog L * world * trace) :=
  match p with
  | Ret l => Done (loop l, w, [])
  | Vis e k =>
      match exec_op t inp e w with
      | Done (x, w') => Done (k x, w', [(t, Call e x)])
      | Blocked => Blocked
      | Fault => Fault
      end
  end.

Definition commit {L : Type} (upd : prog L -> threads)
    (r : result (prog L * world * trace)) : result (system * trace) :=
  match r with
  | Done (p, w, tr) => Done (mkSystem w (upd p), tr)
  | Blocked => Blocked
  | Fault => Fault
  end.

(** The scheduler lets thread [t] take one step. *)
Definition step (t : tid) (inp : input) (s : system) : result (system * trace) :=
  let c := conts s in
  let w := shared s in
  match t with
  | T_main => Blocked
  | T_uart =>
      commit (fun p => mkThreads p (c_led c) (c_button c) (c_sensor c)
                                 (c_process c) (c_database c))
             (step_thread t inp (fun _ => Uart.isr) (c_uart c) w)
  | T_led =>
      commit (fun p => mkThreads (c_uart c) p (c_button c) (c_sensor c)
                                 (c_process c) (c_database c))
             (step_thread t inp Led.led_thread (c_led c) w)
  | T_button =>
      commit (fun p => mkThreads (c_uart c) (c_led c) p (c_sensor c)
                                 (c_process c) (c_database c))
             (step_thread t inp (fun _ => Button.button_thread) (c_button c) w)
  | T_sensor =>
      commit (fun p => mkThreads (c_uart c) (c_led c) (c_button c) p
                                 (c_process c) (c_database c))
             (step_thread t inp (fun _ => Pipeline.sensor_reading_thread) (c_sensor c) w)
  | T_process =>
      commit (fun p => mkThreads (c_uart c) (c_led c) (c_button c) (c_sensor c)
                                 p (c_database c))
             (step_thread t inp (fun _ => Pipeline.data_processing_thread) (c_process c) w)
  | T_database =>
      commit (fun p => mkThreads (c_uart c) (c_led c) (c_button c) (c_sensor c)
                                 (c_process c) p)
             (step_thread t inp (fun _ => Pipeline.database_thread) (c_database c) w)
  end.

(** The state [main] leaves behind: [rtdb.data] zeroed by [memset], the
    mutex free, the queues empty, reception armed, and every thread at the
    top of its entry function.  [main] itself takes no further step, and
    [T_uart] stands for the driver running the callback on its events. *)
Definition boot : system :=
  mkSystem (mkWorld rtdb_zero None [] [] 0 true)
           (mkThreads (Ret tt) (Ret Led.current_led_states_init) (Ret tt)
                      adc_channel_setup (Ret tt) (Ret tt)).

(** A schedule names, step by step, the thread that runs and what the
    hardware answers. *)
Fixpoint run (sched : list (tid * input)) (s : system) : result (system * trace) :=
  match sched with
  | [] => Done (s, [])
  | (t, inp) :: sched' =>
      match step t inp s with
      | Done (s', tr) =>
          match run sched' s' with
          | Done (s'', tr') => Done (s'', tr ++ tr')
          | Blocked => Blocked
          | Fault => Fault
          end
      | Blocked => Blocked
      | Fault => Fault
      end
  end.

(** The states the firmware can be in, with the calls made so far. *)
Inductive execution : system -> trace -> Prop :=
  | exec_boot : execution boot []
  | exec_step s tr t inp s' tr' :
      execution s tr ->
      step t inp s = Done (s', tr') ->
      execution s' (tr ++ tr').

(** ** Observations on traces *)

(** The byte strings handed to [uart_tx], in order. *)
Definition transmitted (tr : trace) : list string :=
  omap (fun tc : tid * call =>
          match snd tc with
          | Call e _ =>
              match e with
              | UartTx bytes => Some bytes
              | _ => None
              end
          end) tr.

(** The (buffer, length, timeout) of every [uart_rx_enable] request. *)
Definition rx_arm_requests (tr : trace) : list (buffer * Z * Z) :=
  omap (fun tc : tid * call =>
          match snd tc with
          | Call e _ =>
              match e with
              | UartRxEnable b len timeout => Some (b, len, timeout)
              | _ => None
              end
          end) tr.

(** The bytes a receive event delivers. *)
Definition received (evt : uart_event) : list Z :=
  match evt with
  | UART_RX_RDY buf offset len => take len (drop offset buf)
  | _ => []
  end.

(** The slice of a receive event lies inside its buffer. *)
Definition in_bounds (evt : uart_event) : Prop :=
  match evt with
  | UART_RX_RDY buf offset len => (offset + len <= length buf)%nat
  | _ => True
  end.

(** The arrays of [rtdb.data] have their 4 elements. *)
Definition wf_data (d : IoModuleData) : Prop :=
  length (led_state d) = 4%nat /\ length (button_state d) = 4%nat.

(** ** The dispatcher on its own *)

(** The received bytes handled one after the other. *)
Fixpoint bytes_loop (bs : list Z) : prog unit :=
  match bs with
  | [] => Ret tt
  | cmd :: bs' => Uart.handle_byte cmd;; bytes_loop bs'
  end.

(** The callback run on a sequence of driver events. *)
Fixpoint dispatch (evts : list uart_event) : prog unit :=
  match evts with
  | [] => Ret tt
  | evt :: evts' => Uart.uart_callback evt;; dispatch evts'
  end.

(** [x ^= 1] on a [uint8_t]. *)
Definition toggled (v : Z) : Z := to_u8 (Z.lxor v 1).

(** What one command byte does to [rtdb.data]. *)
Definition store_effect (cmd : Z) (d : IoModuleData) : IoModuleData :=
  if (chr "1" <=? cmd) && (cmd <=? chr "4")
  then set_led_state (alter toggled (Z.to_nat (cmd - chr "1")) (led_state d)) d
  else d.

Definition store_effects (bs : list Z) (d : IoModuleData) : IoModuleData :=
  foldl (fun d cmd => store_effect cmd d) d bs.

(** The calls of a finished run. *)
Definition trace_of {A : Type} (r : result (A * world * trace)) : trace :=
  match r with
  | Done (_, _, tr) => tr
  | _ => []
  end.

(** Power-on state and hardware answers under which [main] succeeds. *)
Definition power_on : world := mkWorld (mkIoModuleData [] [] 0 0) None [] [] 0 false.

Definition boot_inputs : list input :=
  repeat no_input 10 ++ [mkInput 1 0 UART_TX_DONE; mkInput 1 0 UART_TX_DONE].

(** ** Kinds of calls *)

Inductive kind : Type :=
  | KLock        (* k_mutex_lock(&rtdb.lock) *)
  | KUnlock      (* k_mutex_unlock(&rtdb.lock) *)
  | KAccess      (* a read or write of rtdb.data *)
  | KIo          (* GPIO, serial port, ADC *)
  | KWait        (* sleeping, waiting on a queue or for an event *)
  | KLocal       (* other memory of the program *)
  | KBoot.       (* calls only main makes *)

Definition kind_of {X : Type} (e : op X) : kind :=
  match e with
  | KMutexLock => KLock
  | KMutexUnlock => KUnlock
  | LoadLed _ | StoreLed _ _ | LoadButton _ | StoreButton _ _
  | LoadAnRaw | StoreAnRaw _ | LoadAnVal | StoreAnVal _ => KAccess
  | GpioPinGet _ | GpioPinSet _ _ | UartTx _ | UartRxEnable _ _ _
  | AdcChannelSetup | AdcRead => KIo
  | UartEvent | MsgqPutRaw _ | MsgqGetRaw | MsgqPutData _ | MsgqGetData
  | KMsleep _ => KWait
  | LoadAdcSample | Undefined => KLocal
  | GpioPinConfigure _ _ | KMutexInit | MemsetRtdbData | DeviceIsReady _
  | Printk _ | UartCallbackSet | KThreadCreate _ _ => KBoot
  end.

Definition call_kind (c : call) : kind :=
  match c with Call e _ => kind_of e end.

(** Writes of [an_raw] and [an_val]. *)
Definition is_sensor_store (c : call) : bool :=
  match c with
  | Call e _ =>
      match e with
      | StoreAnRaw _ | StoreAnVal _ => true
      | _ => false
      end
  end.

(** The calls of thread [t] in a trace. *)
Definition calls_of (t : tid) (tr : trace) : list call :=
  omap (fun tc : tid * call => if decide (fst tc = t) then Some (snd tc) else None) tr.

(** ** Trace automata *)

Section Automata.

Context {S : Type}.
Variable delta : S -> call -> option S.

(** The state after reading a list of calls, if every one is allowed. *)
Fixpoint accepts (st : S) (cs : list call) : option S :=
  match cs with
  | [] => Some st
  | c :: cs' =>
      match delta st c with
      | Some st' => accepts st' cs'
      | None => None
      end
  end.

Variable idle : S -> Prop.

(** Whatever the calls return, the program only makes calls the automaton
    allows, and ends in an idle state. *)
Fixpoint conforms {A : Type} (st : S) (p : prog A) : Prop :=
  match p with
  | Ret _ => idle st
  | Vis e k =>
      forall x, match delta st (Call e x) with
                | Some st' => conforms st' (k x)
                | None => False
                end
  end.

End Automata.

(** *** Lock discipline *)

(** How a thread may use the mutex: whether its hardware I/O happens with
    the mutex held ([io_locked = true]) or released ([false]), and how many
    calls it may make between taking and releasing it. *)
Record policy : Type := mkPolicy {
  io_locked : bool;
  max_held_ops : nat
}.

(** [None]: the thread does not hold the mutex; [Some n]: it holds it and
    may make [n] more calls before releasing it. *)
Definition hold_step (pol : policy) (h : option nat) (c : call)
  : option (option nat) :=
  match call_kind c, h with
  | KLock, None => Some (Some (max_held_ops pol))
  | KUnlock, Some _ => Some None
  | KAccess, Some (S n) => Some (Some n)
  | KIo, Some (S n) => if io_locked pol then Some (Some n) else None
  | KIo, None => if io_locked pol then None else Some None
  | KWait, None => Some None
  | KLocal, Some (S n) => Some (Some n)
  | KLocal, None => Some None
  | _, _ => None
  end.

(** What [main.c] does: the dispatcher and the persistence loop touch two
    fields at most per acquisition and do their I/O outside; the LED and
    button loops keep the mutex across their GPIO calls. *)
Definition thread_policy (t : tid) : policy :=
  match t with
  | T_uart => mkPolicy false 2
  | T_database => mkPolicy false 2
  | T_led => mkPolicy true 16
  | T_button => mkPolicy true 12
  | T_main | T_sensor | T_process => mkPolicy false 0
  end.

(** *** The persistence pattern *)

Inductive db_stage : Type :=
  | DbIdle
  | DbGot (d : SensorData)
  | DbLocked (d : SensorData)
  | DbWroteRaw (d : SensorData)
  | DbWroteVal (d : SensorData) (v : Z).

(** [seen]: the readings taken from [msgq_sensor_data] so far. *)
Record db_state : Type := mkDbState {
  seen : list SensorData;
  stage : db_stage
}.

(** A turn of the persistence loop: take a reading, lock, store its
    [raw_value] in [an_raw], store its converted [temperature] in [an_val],
    unlock. *)
Definition db_step (st : db_state) (c : call) : option db_state :=
  match c with
  | Call e x =>
      match e in op X return X -> option db_state with
      | MsgqGetData => fun d =>
          match stage st with
          | DbIdle => Some (mkDbState (seen st ++ [d]) (DbGot d))
          | _ => None
          end
      | KMutexLock => fun _ =>
          match stage st with
          | DbGot d => Some (mkDbState (seen st) (DbLocked d))
          | _ => None
          end
      | StoreAnRaw v => fun _ =>
          match stage st with
          | DbLocked d =>
              if decide (v = raw_value d)
              then Some (mkDbState (seen st) (DbWroteRaw d)) else None
          | _ => None
          end
      | StoreAnVal v => fun _ =>
          match stage st with
          | DbWroteRaw d =>
              if decide (F32.to_int (temperature d) = Some v)
              then Some (mkDbState (seen st) (DbWroteVal d v)) else None
          | _ => None
          end
      | KMutexUnlock => fun _ =>
          match stage st with
          | DbWroteVal _ _ => Some (mkDbState (seen st) DbIdle)
          | _ => None
          end
      | _ => fun _ => None
      end x
  end.

(** Every other thread: anything but a write of [an_raw] or [an_val]. *)
Definition reader_step (st : db_state) (c : call) : option db_state :=
  if is_sensor_store c then None else Some st.

Definition store_step (t : tid) : db_state -> call -> option db_state :=
  match t with
  | T_database => db_step
  | _ => reader_step
  end.

(** Lock discipline and persistence pattern side by side. *)
Definition guarded_step (t : tid) (st : option nat * db_state) (c : call)
  : option (option nat * db_state) :=
  match hold_step (thread_policy t) (fst st) c, store_step t (snd st) c with
  | Some h, Some d => Some (h, d)
  | _, _ => None
  end.

Definition guarded_idle (st : option nat * db_state) : Prop :=
  fst st = None /\ stage (snd st) = DbIdle.

(** [an_raw] and [an_val] are the zeros of [memset] or the two fields of
    one reading among [rs]. *)
Definition pair_from (rs : list SensorData) (d : IoModuleData) : Prop :=
  (an_raw d = 0 /\ an_val d = 0)
  \/ exists r, r ∈ rs /\ an_raw d = raw_value r
               /\ F32.to_int (temperature r) = Some (an_val d).

(** The reading a call takes from [msgq_sensor_data], if it is one. *)
Definition get_data (c : call) : option SensorData :=
  match c with
  | Call e x =>
      match e in op X return X -> option SensorData with
      | MsgqGetData => fun d => Some d
      | _ => fun _ => None
      end x
  end.

(** The readings the persistence loop has taken from its queue. *)
Definition dequeued (tr : trace) : list SensorData :=
  omap get_data (calls_of T_database tr).

(** *** The transformation pattern *)

(** The reading computed from a raw sample. *)
Definition reading_of (raw_value : Z) : option SensorData :=
  t ← Pipeline.scaled (Pipeline.voltage_of raw_value);
  Some (mkSensorData raw_value (F32.of_int t)).

(** A turn of the transformation loop: take a raw sample, put the reading
    computed from it. *)
Definition process_step (st : option Z) (c : call) : option (option Z) :=
  match c with
  | Call e x =>
      match e in op X return X -> option (option Z) with
      | MsgqGetRaw => fun raw =>
          match st with
          | None => Some (Some raw)
          | Some _ => None
          end
      | MsgqPutData d => fun _ =>
          match st with
          | Some raw =>
              if decide (reading_of raw = Some d) then Some None else None
          | None => None
          end
      | _ => fun _ => None
      end x
  end.

(** *** Threads and automata *)

Section Conformance_defs.
Context {S : Type}.
Variable delta : tid -> S -> call -> option S.
Variable idle : tid -> S -> Prop.

(** What is left of every thread's turn conforms from its current state. *)
Definition conts_conform (sigma : tid -> S) (c : threads) : Prop :=
  conforms (delta T_uart) (idle T_uart) (sigma T_uart) (c_uart c)
  /\ conforms (delta T_led) (idle T_led) (sigma T_led) (c_led c)
  /\ conforms (delta T_button) (idle T_button) (sigma T_button) (c_button c)
  /\ conforms (delta T_sensor) (idle T_sensor) (sigma T_sensor) (c_sensor c)
  /\ conforms (delta T_process) (idle T_process) (sigma T_process) (c_process c)
  /\ conforms (delta T_database) (idle T_database) (sigma T_database) (c_database c).

(** Every turn of every loop conforms from every idle state. *)
Definition loops_conform : Prop :=
  (forall st, idle T_uart st ->
              conforms (delta T_uart) (idle T_uart) st Uart.isr)
  /\ (forall st l, idle T_led st ->
              conforms (delta T_led) (idle T_led) st (Led.led_thread l))
  /\ (forall st, idle T_button st ->
              conforms (delta T_button) (idle T_button) st Button.button_thread)
  /\ (forall st, idle T_sensor st ->
              conforms (delta T_sensor) (idle T_sensor) st Pipeline.sensor_reading_thread)
  /\ (forall st, idle T_process st ->
              conforms (delta T_process) (idle T_process) st Pipeline.data_processing_thread)
  /\ (forall st, idle T_database st ->
              conforms (delta T_database) (idle T_database) st Pipeline.database_thread).

(** A relation between the automaton states and the shared state that
    every allowed call keeps. *)
Definition exec_preserves (R : (tid -> S) -> world -> Prop) : Prop :=
  forall sigma t inp X (e : op X) x w w' st',
    R sigma w ->
    exec_op t inp e w = Done (x, w') ->
    delta t (sigma t) (Call e x) = Some st' ->
    R (<[t := st']> sigma) w'.
End Conformance_defs.

(** *** What the mutex guarantees *)

(** The mutex is held by exactly the thread whose automaton says so, and
    [an_raw], [an_val] stand where the stage of the persistence loop says. *)
Definition guarded_inv (sigma : tid -> option nat * db_state) (w : world) : Prop :=
  (forall t, rtdb_lock w = Some t <-> is_Some (fst (sigma t)))
  /\ let st := snd (sigma T_database) in
     let held := is_Some (fst (sigma T_database)) in
     match stage st with
     | DbIdle => ~ held /\ pair_from (seen st) (rtdb_data w)
     | DbGot d => ~ held /\ pair_from (seen st) (rtdb_data w) /\ d ∈ seen st
     | DbLocked d => held /\ pair_from (seen st) (rtdb_data w) /\ d ∈ seen st
     | DbWroteRaw d =>
         held /\ d ∈ seen st /\ an_raw (rtdb_data w) = raw_value d
     | DbWroteVal d v =>
         held /\ d ∈ seen st /\ an_raw (rtdb_data w) = raw_value d
         /\ an_val (rtdb_data w) = v /\ F32.to_int (temperature d) = Some v
     end.

Definition at_rest (st st' : option nat * db_state) : Prop := st' = st.

Definition guarded_boot : tid -> option nat * db_state :=
  fun _ => (None, mkDbState [] DbIdle).

(** The transformation pattern for [T_process], no constraint elsewhere. *)
Definition pipeline_step (t : tid) : option Z -> call -> option (option Z) :=
  match t with
  | T_process => process_step
  | _ => fun st _ => Some st
  end.

(** ** Schedules *)

(** The state and trace a schedule leads to from [boot]. *)
Definition run_boot (sched : list (tid * input)) : system * trace :=
  match run sched boot with
  | Done r => r
  | _ => (boot, [])
  end.

(** A schedule in which the dispatcher toggles LED 1, the LED loop applies
    it, a sample of 512 travels through the pipeline into [rtdb], and the
    dispatcher then answers ['9']. *)
Definition demo_schedule : list (tid * input) :=
  [(T_uart, no_input); (T_uart, mkInput 0 0 (UART_RX_RDY [chr "1"] 0 1))]
  ++ repeat (T_uart, no_input) 5
  ++ repeat (T_led, no_input) 11
  ++ [(T_sensor, no_input); (T_sensor, no_input); (T_sensor, mkInput 0 512 UART_TX_DONE)]
  ++ repeat (T_sensor, no_input) 3
  ++ repeat (T_process, no_input) 3
  ++ repeat (T_database, no_input) 6
  ++ [(T_uart, no_input); (T_uart, mkInput 0 0 (UART_RX_RDY [chr "9"] 0 1))]
  ++ repeat (T_uart, no_input) 4.

(** The same sample with nothing else running. *)
Definition pipeline_schedule : list (tid * input) :=
  [(T_sensor, no_input); (T_sensor, no_input); (T_sensor, mkInput 0 512 UART_TX_DONE)]
  ++ repeat (T_sensor, no_input) 3
  ++ repeat (T_process, no_input) 3.

(** ** The transformation on every [int16_t] *)

(** [p] holds of the [n] integers from [z] on. *)
Fixpoint all_from (n : nat) (z : Z) (p : Z -> bool) : bool :=
  match n with
  | O => true
  | S k => p z && all_from k (z + 1) p
  end.

(** 60000 * (3 * raw / 1023 - 1) without rounding, truncated toward zero. *)
Definition exact_scaled (raw_value : Z) : Z :=
  Z.quot (60000 * (3 * raw_value - 1023)) 1023.

(** The conversion of [raw_value] is defined, within 1 of the unrounded
    value, and survives the trip through [float temperature]. *)
Definition reading_ok (raw_value : Z) : bool :=
  match Pipeline.scaled (Pipeline.voltage_of raw_value) with
  | Some t =>
      (Z.abs (t - exact_scaled raw_value) <=? 1)
      && bool_decide (F32.to_int (F32.of_int t) = Some t)
  | None => false
  end.

(** ** The formula in the words of the specification *)

(** The formula as the specification words it: [derived = k * (voltage - offset)]
    with [k = 60] and [offset = 1], on the same binary32 voltage. *)
Definition spec_derived_k60 (raw_value : Z) : option Z :=
  F32.to_int (F32.mul (F32.of_int 60)
                      (F32.sub (Pipeline.voltage_of raw_value) (F32.of_int 1))).

(** ** Defined behaviour *)

(** A reading the transformation loop can have produced. *)
Definition data_ok (d : SensorData) : Prop :=
  in_i16 (raw_value d) /\ is_Some (F32.to_int (temperature d)).

(** The arguments of a call are such that it has defined behaviour. *)
Definition op_ok {X : Type} (e : op X) : Prop :=
  match e with
  | LoadLed i | LoadButton i | StoreLed i _ | StoreButton i _ => 0 <= i < 4
  | MsgqPutRaw v => in_i16 v
  | MsgqPutData d => data_ok d
  | Undefined => False
  | _ => True
  end.

(** What a call can return: queues give back what was put, and the serial
    driver delivers slices inside its buffer. *)
Definition answer_ok {X : Type} (e : op X) : X -> Prop :=
  match e in op X return X -> Prop with
  | MsgqGetRaw => in_i16
  | MsgqGetData => data_ok
  | UartEvent => in_bounds
  | _ => fun _ => True
  end.

(** The program makes only calls with defined behaviour, whatever the
    calls return, and returns a value in [Q]. *)
Fixpoint safe {A : Type} (Q : A -> Prop) (p : prog A) : Prop :=
  match p with
  | Ret a => Q a
  | Vis e k => op_ok e /\ forall x, answer_ok e x -> safe Q (k x)
  end.

Definition world_ok (w : world) : Prop :=
  wf_data (rtdb_data w)
  /\ Forall in_i16 (msgq_adc_raw w)
  /\ Forall data_ok (msgq_sensor_data w).

Definition array4 (l : list Z) : Prop := length l = 4%nat.

Definition conts_safe (c : threads) : Prop :=
  safe (fun _ => True) (c_uart c)
  /\ safe array4 (c_led c)
  /\ safe (fun _ => True) (c_button c)
  /\ safe (fun _ => True) (c_sensor c)
  /\ safe (fun _ => True) (c_process c)
  /\ safe (fun _ => True) (c_database c).

(** The events in a trace are within their buffers. *)
Definition call_in_bounds (c : call) : Prop :=
  match c with
  | Call e x =>
      match e in op X return X -> Prop with
      | UartEvent => in_bounds
      | _ => fun _ => True
      end x
  end.

Definition events_in_bounds (tr : trace) : Prop :=
  Forall (fun tc : tid * call => call_in_bounds (snd tc)) tr.

(** ** Further observations on traces *)

(** The levels written to GPIO lines, in order. *)
Definition gpio_writes (tr : trace) : list (gpio_pin * Z) :=
  omap (fun tc : tid * call =>
          match snd tc with
          | Call e _ =>
              match e with
              | GpioPinSet pin v => Some (pin, v)
              | _ => None
              end
          end) tr.

(** The levels read from GPIO lines, in order. *)
Definition gpio_reads (tr : trace) : list (gpio_pin * Z) :=
  omap (fun tc : tid * call =>
          match snd tc with
          | Call e x =>
              match e in op X return X -> option (gpio_pin * Z) with
              | GpioPinGet pin => fun v => Some (pin, v)
              | _ => fun _ => None
              end x
          end) tr.





Definition buttons : list gpio_pin := [button1; button2; button3; button4].

(** The LEDs whose flag in [rtdb.data] differs from the copy the LED loop
    keeps, with the flag. *)
Definition led_updates (stored shadow : list Z) : list (gpio_pin * Z) :=
  omap (fun '(pin, (v, cur)) => if bool_decide (v ≠ cur) then Some (pin, v) else None)
       (zip leds (zip stored shadow)).

(** ** The dispatcher's answers *)

(** The values of [rtdb.data] are within their C types. *)
Definition typed_data (d : IoModuleData) : Prop :=
  Forall in_u8 (led_state d) /\ Forall in_u8 (button_state d)
  /\ in_i16 (an_raw d) /\ INT_MIN <= an_val d <= INT_MAX.

(** The line answered to one command byte when [rtdb.data] is [d]; [None]
    for a byte that gets no answer. *)
Definition reply (d : IoModuleData) (cmd : Z) : option string :=
  if (chr "1" <=? cmd) && (cmd <=? chr "4") then
    Some ("Toggle LED " ++ fmt_d (cmd - chr "0") ++ " " ++ crlf)%string
  else if (chr "5" <=? cmd) && (cmd <=? chr "8") then
    state ← button_state d !! Z.to_nat (cmd - chr "5");
    Some ("Button " ++ fmt_d (cmd - chr "4") ++ " state: " ++ fmt_d state ++ crlf)%string
  else if cmd =? chr "9" then
    Some ("Raw sensor value: " ++ fmt_d (an_raw d) ++ crlf)%string
  else if cmd =? chr "0" then
    Some ("Processed sensor value: " ++ fmt_d (an_val d) ++ "  Celsius" ++ crlf)%string
  else None.

(** ** Roles *)

Definition is_led (pin : gpio_pin) : bool :=
  match pin with led0 | led1 | led2 | led3 => true | _ => false end.

Definition is_button (pin : gpio_pin) : bool :=
  match pin with button1 | button2 | button3 | button4 => true | _ => false end.

(** The calls each thread of [main.c] makes. *)
Definition role_allows (t : tid) {X : Type} (e : op X) : bool :=
  match t with
  | T_main => false
  | T_uart =>
      match e with
      | UartEvent | KMutexLock | KMutexUnlock | LoadLed _ | StoreLed _ _
      | LoadButton _ | LoadAnRaw | LoadAnVal | UartTx _ => true
      | UartRxEnable b len timeout =>
          (len =? RECEIVE_BUFF_SIZE) && (timeout =? RECEIVE_TIMEOUT)
      | _ => false
      end
  | T_led =>
      match e with
      | KMutexLock | KMutexUnlock | LoadLed _ => true
      | GpioPinSet pin _ => is_led pin
      | KMsleep ms => ms =? 100
      | _ => false
      end
  | T_button =>
      match e with
      | KMutexLock | KMutexUnlock | LoadButton _ | StoreButton _ _ => true
      | GpioPinGet pin => is_button pin
      | KMsleep ms => ms =? 100
      | _ => false
      end
  | T_sensor =>
      match e with
      | AdcChannelSetup | AdcRead | LoadAdcSample | MsgqPutRaw _ => true
      | KMsleep ms => ms =? 1000
      | _ => false
      end
  | T_process =>
      match e with
      | MsgqGetRaw | MsgqPutData _ => true
      | _ => false
      end
  | T_database =>
      match e with
      | MsgqGetData | KMutexLock | KMutexUnlock | StoreAnRaw _ | StoreAnVal _ => true
      | _ => false
      end
  end.

Definition call_allowed (t : tid) (c : call) : bool :=
  match c with Call e _ => role_allows t e end.

Definition role_step (t : tid) (st : unit) (c : call) : option unit :=
  if call_allowed t c then Some st else None.

Definition any_state {S : Type} (t : tid) (st : S) : Prop := True.

(** The thread that can always run: the holder of the mutex, or the
    context of the callback when the mutex is free. *)
Definition runnable (s : system) : tid := default T_uart (rtdb_lock (shared s)).

(** ** Flags *)

Definition is_bit (v : Z) : Prop := v = 0 \/ v = 1.

Global Instance is_bit_dec (v : Z) : Decision (is_bit v).
Proof. unfold is_bit. apply _. Defined.

(** Where the values written to the flags and to the LED lines come from:
    a LED flag is written with the toggle of the value just read, a LED
    line with the value just read, a button flag with 0 or 1.  The state is
    the last value the thread read from [led_state]. *)
Definition bit_step (t : tid) (st : option Z) (c : call) : option (option Z) :=
  match c with
  | Call e x =>
      match e in op X return X -> option (option Z) with
      | LoadLed _ => fun v => Some (Some v)
      | StoreLed _ v => fun _ =>
          match st with
          | Some x => if decide (v = toggled x) then Some None else None
          | None => None
          end
      | GpioPinSet _ v => fun _ =>
          if decide (st = Some v) then Some st else None
      | StoreButton _ v => fun _ => if decide (is_bit v) then Some st else None
      | _ => fun _ => Some st
      end x
  end.

Definition bits_inv (sigma : tid -> option Z) (w : world) : Prop :=
  Forall is_bit (led_state (rtdb_data w))
  /\ Forall is_bit (button_state (rtdb_data w))
  /\ forall t x, sigma t = Some x -> is_bit x.

(** ** The queues *)

Global Instance in_i16_dec (v : Z) : Decision (in_i16 v).
Proof. unfold in_i16. apply _. Defined.

(** What a thread has moved through the queues: the samples it put into
    or took from [msgq_adc_raw], the readings it put into or took from
    [msgq_sensor_data], and the sample the transformation loop has taken
    and not yet answered. *)
Record flow_state : Type := mkFlow {
  raws : list Z;
  readings : list SensorData;
  in_hand : option Z
}.

(** Only the sensor loop puts samples, and only [int16_t] ones; only the
    transformation loop takes them, one at a time, and answers each with
    the reading computed from it; only the persistence loop takes
    readings. *)
Definition flow_step (t : tid) (st : flow_state) (c : call) : option flow_state :=
  match c with
  | Call e x =>
      match e in op X return X -> option flow_state with
      | MsgqPutRaw v => fun _ =>
          if decide (t = T_sensor /\ in_i16 v)
          then Some (mkFlow (raws st ++ [v]) (readings st) (in_hand st))
          else None
      | MsgqGetRaw => fun raw =>
          if decide (t = T_process /\ in_hand st = None)
          then Some (mkFlow (raws st ++ [raw]) (readings st) (Some raw))
          else None
      | MsgqPutData d => fun _ =>
          if decide (t = T_process /\ (in_hand st ≫= reading_of) = Some d)
          then Some (mkFlow (raws st) (readings st ++ [d]) None)
          else None
      | MsgqGetData => fun d =>
          if decide (t = T_database)
          then Some (mkFlow (raws st) (readings st ++ [d]) (in_hand st))
          else None
      | _ => fun _ => Some st
      end x
  end.

Definition flow_idle (t : tid) (st : flow_state) : Prop := in_hand st = None.

Definition flow_boot : tid -> flow_state := fun _ => mkFlow [] [] None.

(** The samples taken so far, all but the one in hand, have been answered
    by their readings, in order. *)
Definition answered (st : flow_state) : Prop :=
  exists rs, raws st = rs ++ option_list (in_hand st)
             /\ reading_of <$> rs = Some <$> readings st.

Definition flow_inv (sigma : tid -> flow_state) (w : world) : Prop :=
  raws (sigma T_sensor) = raws (sigma T_process) ++ msgq_adc_raw w
  /\ readings (sigma T_process) = readings (sigma T_database) ++ msgq_sensor_data w
  /\ answered (sigma T_process)
  /\ Forall in_i16 (raws (sigma T_sensor))
  /\ (length (msgq_adc_raw w) <= MSGQ_MAX_MSGS)%nat
  /\ (length (msgq_sensor_data w) <= MSGQ_MAX_MSGS)%nat.

Definition put_raw (c : call) : option Z :=
  match c with
  | Call e _ =>
      match e with
      | MsgqPutRaw v => Some v
      | _ => None
      end
  end.

Definition get_raw (c : call) : option Z :=
  match c with
  | Call e x =>
      match e in op X return X -> option Z with
      | MsgqGetRaw => fun raw => Some raw
      | _ => fun _ => None
      end x
  end.

Definition put_data (c : call) : option SensorData :=
  match c with
  | Call e _ =>
      match e with
      | MsgqPutData d => Some d
      | _ => None
      end
  end.

(** The samples the sensor loop has put into [msgq_adc_raw]. *)
Definition sampled (tr : trace) : list Z := omap put_raw (calls_of T_sensor tr).

(** The samples the transformation loop has taken from [msgq_adc_raw] and
    the readings it has put into [msgq_sensor_data]. *)
Definition fetched (tr : trace) : list Z := omap get_raw (calls_of T_process tr).
Definition produced (tr : trace) : list SensorData :=
  omap put_data (calls_of T_process tr).

(** ** Reception *)

Definition is_rx_disabled (evt : uart_event) : bool :=
  match evt with UART_RX_DISABLED => true | _ => false end.

(** The state is [true] from the moment the callback is handed
    [UART_RX_DISABLED] until its [uart_rx_enable]; in that state no other
    call is allowed.  Only the callback takes events and enables
    reception. *)
Definition rx_step (t : tid) (pending : bool) (c : call) : option bool :=
  match c with
  | Call e x =>
      match e in op X return X -> option bool with
      | UartEvent => fun evt =>
          if decide (t = T_uart /\ pending = false)
          then Some (is_rx_disabled evt) else None
      | UartRxEnable b len timeout => fun _ =>
          if decide (t = T_uart /\ pending = true
                     /\ len = sizeof_buffer b /\ timeout = RECEIVE_TIMEOUT)
          then Some false else None
      | _ => fun _ => if pending then None else Some false
      end x
  end.

Definition rx_idle (t : tid) (pending : bool) : Prop := pending = false.

Definition rx_inv (sigma : tid -> bool) (w : world) : Prop :=
  rx_enabled w = negb (sigma T_uart).

(** ** Toggles *)

(** What the callback has done to the LED flags: the flag it has read and
    not yet written back (index and value), and the indices of the flags
    it has written, in order. *)
Record toggle_state : Type := mkToggle {
  loaded : option (Z * Z);
  toggles : list Z
}.

(** The callback writes a LED flag only with the toggle of the value it
    has just read from that same flag; no other thread writes one. *)
Definition toggle_step (t : tid) (st : toggle_state) (c : call) : option toggle_state :=
  match c with
  | Call e x =>
      match e in op X return X -> option toggle_state with
      | LoadLed i => fun v =>
          if decide (t = T_uart) then Some (mkToggle (Some (i, v)) (toggles st))
          else Some st
      | StoreLed i v => fun _ =>
          match loaded st with
          | Some (j, x) =>
              if decide (t = T_uart /\ j = i /\ v = toggled x)
              then Some (mkToggle None (toggles st ++ [i])) else None
          | None => None
          end
      | MemsetRtdbData => fun _ => None
      | _ => fun _ => Some st
      end x
  end.

(** How often [i] occurs in [l]. *)
Definition times (i : Z) (l : list Z) : nat := length (filter (fun j => j = i) l).

Definition toggle_inv (sigma : tid -> toggle_state) (w : world) : Prop :=
  (forall i, 0 <= i < 4 ->
     led_state (rtdb_data w) !! Z.to_nat i
     = Some (Z.of_nat (times i (toggles (sigma T_uart))) mod 2))
  /\ (forall i x, loaded (sigma T_uart) = Some (i, x) ->
        load_elem (led_state (rtdb_data w)) i = Some x).

Definition stored_led (c : call) : option Z :=
  match c with
  | Call e _ =>
      match e with
      | StoreLed i _ => Some i
      | _ => None
      end
  end.

(** The indices of the LED flags the callback has written, in order. *)
Definition toggled_leds (tr : trace) : list Z := omap stored_led (calls_of T_uart tr).


(** ** Further schedules *)

(** The driver reports that reception is disabled; the callback has not
    run yet. *)
Definition rearm_schedule : list (tid * input) :=
  [(T_uart, no_input); (T_uart, mkInput 0 0 UART_RX_DISABLED)].

(** The button loop has taken the mutex. *)
Definition held_schedule : list (tid * input) :=
  [(T_button, no_input); (T_button, no_input)].

(** A state with one full-scale sample waiting in [msgq_adc_raw]. *)
Definition one_sample : world := mkWorld rtdb_zero None [1023] [] 0 true.

(** ** Single steps *)

(** The state and the calls one step of [t] leads to. *)
Definition step_of (t : tid) (inp : input) (s : system) : system * trace :=
  match step t inp s with
  | Done r => r
  | _ => (s, [])
  end.

(** [an_raw] and [an_val] are the zeros of [memset], or a sample among
    [samples] and its conversion. *)
Definition from_sample (samples : list Z) (d : IoModuleData) : Prop :=
  (an_raw d = 0 /\ an_val d = 0)
  \/ (an_raw d ∈ samples
      /\ Pipeline.scaled (Pipeline.voltage_of (an_raw d)) = Some (an_val d)
      /\ Z.abs (an_val d - exact_scaled (an_raw d)) <= 1).

(** ** What the button loop has read *)

(** The index of a button's flag in [button_state]. *)
Definition button_index (pin : gpio_pin) : option Z :=
  match pin with
  | button1 => Some 0
  | button2 => Some 1
  | button3 => Some 2
  | button4 => Some 3
  | _ => None
  end.

(** What the button loop has seen: the last level read from each button,
    as a [bool]; the button whose flag it is about to compare or update;
    and whether it is inside its critical section. *)
Record button_view : Type := mkView {
  levels : list Z;
  checking : option Z;
  inside : bool
}.

(** The button loop reads a button only inside its critical section, then
    compares that button's flag, writes it when it differs, with the level
    just read, and leaves the critical section with no check open.  No
    other thread reads a line or writes a button flag. *)
Definition view_step (t : tid) (st : button_view) (c : call) : option button_view :=
  match c with
  | Call e x =>
      match e in op X return X -> option button_view with
      | KMutexLock => fun _ =>
          if decide (t = T_button) then Some (mkView (levels st) (checking st) true)
          else Some st
      | KMutexUnlock => fun _ =>
          if decide (t = T_button) then
            if decide (checking st = None) then Some (mkView (levels st) None false)
            else None
          else Some st
      | GpioPinGet pin => fun r =>
          match button_index pin with
          | Some i =>
              if decide (t = T_button /\ checking st = None /\ inside st = true)
              then Some (mkView (<[Z.to_nat i := to_bool r]> (levels st)) (Some i) true)
              else None
          | None => None
          end
      | LoadButton i => fun stored =>
          if decide (t = T_button) then
            if decide (checking st = Some i)
            then Some (mkView (levels st)
                              (if decide (levels st !! Z.to_nat i = Some stored)
                               then None else Some i)
                              (inside st))
            else None
          else Some st
      | StoreButton i v => fun _ =>
          if decide (t = T_button /\ checking st = Some i
                     /\ levels st !! Z.to_nat i = Some v)
          then Some (mkView (levels st) None (inside st)) else None
      | MemsetRtdbData | KMutexInit => fun _ => None
      | _ => fun _ => Some st
      end x
  end.

Definition view_idle (t : tid) (st : button_view) : Prop :=
  checking st = None /\ length (levels st) = 4%nat.

Definition view_boot : tid -> button_view := fun _ => mkView [0; 0; 0; 0] None false.

Definition view_inv (sigma : tid -> button_view) (w : world) : Prop :=
  let st := sigma T_button in
  length (levels st) = 4%nat
  /\ (inside st = true -> rtdb_lock w = Some T_button)
  /\ (is_Some (checking st) -> inside st = true)
  /\ forall i, 0 <= i < 4 -> checking st <> Some i ->
       button_state (rtdb_data w) !! Z.to_nat i = levels st !! Z.to_nat i.

(** The level a call reads from a button, as a [bool]. *)
Definition read_level (c : call) : option (Z * Z) :=
  match c with
  | Call e x =>
      match e in op X return X -> option (Z * Z) with
      | GpioPinGet pin => fun r => i ← button_index pin; Some (i, to_bool r)
      | _ => fun _ => None
      end x
  end.

(** The last level the button loop has read from each button, 0 for a
    button it has not read. *)
Definition button_levels (tr : trace) : list Z :=
  foldl (fun l ib => <[Z.to_nat (fst ib) := snd ib]> l) [0; 0; 0; 0]
        (omap read_level (calls_of T_button tr)).

(** A schedule in which the button loop finds button 1 pressed and the
    other three released, and leaves its critical section. *)
Definition button_schedule : list (tid * input) :=
  [(T_button, no_input); (T_button, no_input); (T_button, mkInput 1 0 UART_TX_DONE)]
  ++ repeat (T_button, no_input) 10.

Arguments fmt_d : simpl never.
Arguments snprintf : simpl never.
Arguments to_u8 : simpl never.

(** * Properties *)

(** ** Strings and formatting *)

Lemma string_length_append (s1 s2 : string) :
  String.length (s1 ++ s2)%string = (String.length s1 + String.length s2)%nat.
Proof. induction s1 as [| c s1 IH]; simpl; [reflexivity | by rewrite IH]. Qed.

Lemma substring_whole (s : string) (n : nat) :
  (String.length s <= n)%nat -> substring 0 n s = s.
Proof.
  revert n; induction s as [| c s IH]; intros n Hn.
  - destruct n; reflexivity.
  - destruct n as [| n]; simpl in *; [lia |]. rewrite IH; [reflexivity | lia].
Qed.

Lemma digits_length (k fuel : nat) (n : Z) (acc : string) :
  0 <= n < 10 ^ Z.of_nat (S k) ->
  (String.length (digits fuel n acc) <= String.length acc + S k)%nat.
Proof.
  revert fuel n acc; induction k as [| k IH]; intros fuel n acc Hn.
  - destruct fuel as [| fuel]; simpl; [lia |].
    change (10 ^ Z.of_nat 1) with 10 in Hn.
    destruct (Z.ltb_spec n 10); [simpl; lia | lia].
  - destruct fuel as [| fuel]; simpl; [lia |].
    destruct (Z.ltb_spec n 10); [simpl; lia |].
    etransitivity; [apply IH | simpl; lia].
    split; [apply Z.div_pos; lia |].
    apply Z.div_lt_upper_bound; [lia |].
    rewrite (Nat2Z.inj_succ (S k)), Z.pow_succ_r in Hn by lia. lia.
Qed.

(** An [int] prints in at most 11 characters. *)
Lemma fmt_d_length (z : Z) :
  INT_MIN <= z <= INT_MAX -> (String.length (fmt_d z) <= 11)%nat.
Proof.
  unfold INT_MIN, INT_MAX, fmt_d, fmt_u; intros Hz.
  destruct (Z.ltb_spec z 0); simpl.
  - pose proof (digits_length 9 (S (Z.to_nat (Z.log2 (- z)))) (- z) EmptyString) as H1.
    change (10 ^ Z.of_nat 10) with 10000000000 in H1.
    simpl String.length in H1. lia.
  - pose proof (digits_length 9 (S (Z.to_nat (Z.log2 z))) z EmptyString) as H1.
    change (10 ^ Z.of_nat 10) with 10000000000 in H1.
    simpl String.length in H1. lia.
Qed.

(** [output] is large enough for a text of at most 63 characters. *)
Lemma snprintf_fits (s : string) :
  (String.length s <= 63)%nat -> snprintf sizeof_output s = s.
Proof. intros H. unfold snprintf, sizeof_output. by apply substring_whole. Qed.

Example fmt_d_samples :
  fmt_d 0 = "0"%string /\ fmt_d 700 = "700"%string /\ fmt_d (-60000) = "-60000"%string
  /\ fmt_d INT_MIN = "-2147483648"%string /\ fmt_d INT_MAX = "2147483647"%string.
Proof. repeat split. Qed.

(** ** Running programs *)

Lemma run_prog_bind {A B : Type} t (p : prog A) (f : A -> prog B) ins w :
  run_prog t (p ≫= f) ins w =
  match run_prog t p ins w with
  | Done (a, w', tr) =>
      match run_prog t (f a) (drop (length tr) ins) w' with
      | Done (b, w'', tr') => Done (b, w'', tr ++ tr')
      | Blocked => Blocked
      | Fault => Fault
      end
  | Blocked => Blocked
  | Fault => Fault
  end.
Proof.
  unfold mbind, prog_bind.
  revert ins w; induction p as [a | X e k IH]; intros ins w; simpl.
  - rewrite drop_0.
    destruct (run_prog t (f a) ins w) as [[[b w''] tr'] | |]; reflexivity.
  - destruct (exec_op t (hd no_input ins) e w) as [[x w'] | |]; try reflexivity.
    rewrite IH.
    destruct (run_prog t (k x) (tl ins) w') as [[[a w''] tr] | |]; try reflexivity.
    simpl length.
    replace (drop (S (length tr)) ins) with (drop (length tr) (tl ins))
      by (destruct ins; simpl; [by rewrite drop_nil | reflexivity]).
    destruct (run_prog t (f a) (drop (length tr) (tl ins)) w'') as [[[b w3] tr'] | |];
      reflexivity.
Qed.

(** A finished run of a program that starts with a call. *)
Lemma run_prog_vis_inv {A X : Type} t (e : op X) (k : X -> prog A) ins w a w' tr :
  run_prog t (Vis e k) ins w = Done (a, w', tr) ->
  exists x w1 tr1,
    exec_op t (hd no_input ins) e w = Done (x, w1)
    /\ run_prog t (k x) (tl ins) w1 = Done (a, w', tr1)
    /\ tr = (t, Call e x) :: tr1.
Proof.
  simpl. destruct (exec_op t (hd no_input ins) e w) as [[x w1] | |]; try done.
  destruct (run_prog t (k x) (tl ins) w1) as [[[a1 w2] tr1] | |] eqn:Hk; try done.
  intros ?; simplify_eq. by exists x, w1, tr1.
Qed.

Ltac run_step H :=
  cbn [bind mbind prog_bind mret prog_ret trigger] in H;
  lazymatch type of H with
  | run_prog _ (Vis _ _) _ _ = Done _ =>
      let Hex := fresh "Hex" in
      apply run_prog_vis_inv in H as (? & ? & ? & Hex & H & ->);
      cbn in Hex;
      try match type of Hex with
          | (if ?c then _ else _) = _ => destruct c eqn:?
          end;
      simplify_eq
  | run_prog _ (if ?b then _ else _) _ _ = Done _ => destruct b eqn:?
  | run_prog _ (Ret _) _ _ = Done _ => cbn in H; simplify_eq
  end.

Lemma unlock_lock t w :
  rtdb_lock w = None -> set_lock None (set_lock (Some t) w) = w.
Proof. destruct w; simpl; intros ->; reflexivity. Qed.

Lemma load_elem_Some (l : list Z) (i : Z) :
  length l = 4%nat -> 0 <= i < 4 ->
  exists v, l !! Z.to_nat i = Some v /\ load_elem l i = Some v.
Proof.
  intros Hl Hi. destruct (lookup_lt_is_Some_2 l (Z.to_nat i)) as [v Hv]; [lia |].
  exists v; split; [done |]. unfold load_elem.
  destruct (Z.leb_spec 0 i), (Z.ltb_spec i 4); simpl; try lia; done.
Qed.

Lemma store_elem_Some (l : list Z) (i v : Z) :
  length l = 4%nat -> 0 <= i < 4 ->
  store_elem l i v = Some (<[Z.to_nat i := v]> l).
Proof.
  intros Hl Hi. unfold store_elem. rewrite Hl.
  destruct (Z.leb_spec 0 i), (Z.ltb_spec i 4), (Z.ltb_spec i (Z.of_nat 4));
    simpl; try lia; done.
Qed.

Lemma insert_as_alter {A : Type} (f : A -> A) (l : list A) (i : nat) (v : A) :
  l !! i = Some v -> <[i := f v]> l = alter f i l.
Proof.
  revert i; induction l as [| a l IH]; intros [| i] H; simplify_eq/=; f_equal; auto.
Qed.

Ltac char_codes :=
  change (chr "0") with 48 in *; change (chr "1") with 49 in *;
  change (chr "4") with 52 in *; change (chr "5") with 53 in *;
  change (chr "8") with 56 in *; change (chr "9") with 57 in *.

(** ** The dispatcher: what one byte does *)

(** A byte outside ['0'..'9'] is skipped without any call. *)
Lemma handle_byte_unrecognized (cmd : Z) :
  ~ (chr "0" <= cmd <= chr "9") -> Uart.handle_byte cmd = Ret tt.
Proof.
  intros Hcmd. unfold Uart.handle_byte, Uart.command. char_codes.
  repeat match goal with
  | |- context [ (?a <=? ?b) ] => destruct (Z.leb_spec a b); simpl; try lia
  | |- context [ (?a =? ?b) ] => destruct (Z.eqb_spec a b); simpl; try lia
  end; reflexivity.
Qed.

(** With the mutex free, every byte is handled to the end, the mutex is
    free again afterwards, and [rtdb.data] changed by [store_effect]. *)
Lemma handle_byte_run (cmd : Z) (ins : list input) (w : world) :
  rtdb_lock w = None -> wf_data (rtdb_data w) ->
  exists w' tr,
    run_prog T_uart (Uart.handle_byte cmd) ins w = Done (tt, w', tr)
    /\ rtdb_lock w' = None
    /\ rtdb_data w' = store_effect cmd (rtdb_data w).
Proof.
  intros Hl [Hled Hbtn].
  unfold Uart.handle_byte, Uart.command, store_effect. char_codes.
  destruct (Z.leb_spec 49 cmd), (Z.leb_spec cmd 52); simpl.
  - destruct (load_elem_Some (led_state (rtdb_data w)) (cmd - 49))
      as (v & Hv & Hload); [done | lia |].
    rewrite Hl; simpl. rewrite Hload; simpl.
    rewrite (store_elem_Some _ _ _ Hled) by lia. simpl.
    do 2 eexists; split; [reflexivity |]. split; [done |]. simpl.
    unfold set_led_state. f_equal. apply (insert_as_alter toggled); done.
  - destruct (Z.leb_spec 53 cmd); simpl; [| lia].
    destruct (Z.leb_spec cmd 56); simpl.
    + destruct (load_elem_Some (button_state (rtdb_data w)) (cmd - 53))
        as (v & Hv & Hload); [done | lia |].
      rewrite Hl; simpl. rewrite Hload; simpl.
      do 2 eexists; split; [reflexivity |]. by destruct w.
    + destruct (Z.eqb_spec cmd 57); simpl.
      * rewrite Hl; simpl. do 2 eexists; split; [reflexivity |]. by destruct w.
      * destruct (Z.eqb_spec cmd 48); [lia |]. simpl.
        do 2 eexists; split; [reflexivity |]. done.
  - destruct (Z.leb_spec 53 cmd); simpl; [lia |].
    destruct (Z.eqb_spec cmd 57); [lia |].
    destruct (Z.eqb_spec cmd 48); simpl.
    + rewrite Hl; simpl. do 2 eexists; split; [reflexivity |]. by destruct w.
    + do 2 eexists; split; [reflexivity |]. done.
  - lia.
Qed.

(** ** The dispatcher: batches and event sequences *)

(** In bounds, the receive loop handles exactly the received bytes. *)
Lemma rx_loop_bytes (buf : list Z) (offset n i : nat) :
  (offset + i + n <= length buf)%nat ->
  Uart.rx_loop buf offset i n = bytes_loop (take n (drop (offset + i) buf)).
Proof.
  revert i; induction n as [| n IH]; intros i Hn; [reflexivity |].
  destruct (lookup_lt_is_Some_2 buf (offset + i)) as [cmd Hcmd]; [lia |].
  rewrite (drop_S _ _ _ Hcmd). simpl. rewrite Hcmd. simpl.
  rewrite IH by lia. replace (offset + S i)%nat with (S (offset + i)) by lia.
  reflexivity.
Qed.

Lemma uart_callback_rx_rdy (evt : uart_event) :
  in_bounds evt ->
  match evt with
  | UART_RX_RDY _ _ _ => Uart.uart_callback evt = bytes_loop (received evt)
  | _ => True
  end.
Proof.
  destruct evt; try done. simpl. intros H.
  rewrite rx_loop_bytes by lia. by rewrite Nat.add_0_r.
Qed.

Lemma store_effect_wf cmd d : wf_data d -> wf_data (store_effect cmd d).
Proof.
  intros [H1 H2]. unfold store_effect.
  destruct (_ && _); [| done]. split; simpl; [by rewrite length_alter | done].
Qed.

(** A batch runs to its end and changes [rtdb.data] by the effects of its
    bytes, in order. *)
Lemma bytes_loop_run (bs : list Z) (ins : list input) (w : world) :
  rtdb_lock w = None -> wf_data (rtdb_data w) ->
  exists w' tr,
    run_prog T_uart (bytes_loop bs) ins w = Done (tt, w', tr)
    /\ rtdb_lock w' = None
    /\ rtdb_data w' = store_effects bs (rtdb_data w).
Proof.
  revert ins w; induction bs as [| cmd bs IH]; intros ins w Hl Hwf.
  - by exists w, [].
  - destruct (handle_byte_run cmd ins w Hl Hwf) as (w1 & tr1 & Hrun1 & Hl1 & Hd1).
    destruct (IH (drop (length tr1) ins) w1) as (w2 & tr2 & Hrun2 & Hl2 & Hd2);
      [done | rewrite Hd1; by apply store_effect_wf |].
    exists w2, (tr1 ++ tr2). split; [| split; [done |]].
    + cbn [bytes_loop]. rewrite run_prog_bind, Hrun1, Hrun2. reflexivity.
    + rewrite Hd2, Hd1. reflexivity.
Qed.

Lemma uart_callback_run (evt : uart_event) (ins : list input) (w : world) :
  in_bounds evt -> rtdb_lock w = None -> wf_data (rtdb_data w) ->
  exists w' tr,
    run_prog T_uart (Uart.uart_callback evt) ins w = Done (tt, w', tr)
    /\ rtdb_lock w' = None
    /\ rtdb_data w' = store_effects (received evt) (rtdb_data w).
Proof.
  intros Hb Hl Hwf.
  pose proof (uart_callback_rx_rdy evt Hb) as Heq.
  destruct evt; try (by exists w, []).
  - rewrite Heq. by apply bytes_loop_run.
  - simpl. destruct (rx_enabled w); do 2 eexists; (split; [reflexivity |]); done.
Qed.

Lemma store_effects_app bs1 bs2 d :
  store_effects (bs1 ++ bs2) d = store_effects bs2 (store_effects bs1 d).
Proof. apply foldl_app. Qed.

Lemma store_effects_wf bs d : wf_data d -> wf_data (store_effects bs d).
Proof.
  revert d; induction bs as [| cmd bs IH]; intros d H; [done |].
  simpl. apply IH. by apply store_effect_wf.
Qed.

Lemma dispatch_run (evts : list uart_event) (ins : list input) (w : world) :
  Forall in_bounds evts -> rtdb_lock w = None -> wf_data (rtdb_data w) ->
  exists w' tr,
    run_prog T_uart (dispatch evts) ins w = Done (tt, w', tr)
    /\ rtdb_lock w' = None
    /\ rtdb_data w' = store_effects (concat (received <$> evts)) (rtdb_data w).
Proof.
  intros Hb; revert ins w; induction Hb as [| evt evts Hevt Hevts IH]; intros ins w Hl Hwf.
  - by exists w, [].
  - destruct (uart_callback_run evt ins w Hevt Hl Hwf) as (w1 & tr1 & Hrun1 & Hl1 & Hd1).
    destruct (IH (drop (length tr1) ins) w1) as (w2 & tr2 & Hrun2 & Hl2 & Hd2);
      [done | rewrite Hd1; by apply store_effects_wf |].
    exists w2, (tr1 ++ tr2). split; [| split; [done |]].
    + cbn [dispatch]. rewrite run_prog_bind, Hrun1, Hrun2. reflexivity.
    + rewrite Hd2, Hd1. simpl. by rewrite store_effects_app.
Qed.

(** ** Toggling a [uint8_t] *)

Lemma u8_forall (P : Z -> bool) :
  forallb P (map Z.of_nat (seq 0 256)) = true -> forall v, in_u8 v -> P v = true.
Proof.
  intros H v Hv. rewrite forallb_forall in H. apply H.
  apply in_map_iff. exists (Z.to_nat v). split; [unfold in_u8 in Hv; lia |].
  apply in_seq. unfold in_u8 in Hv; lia.
Qed.

Lemma xor1_u8 (v : Z) :
  in_u8 v ->
  in_u8 (Z.lxor v 1) /\ toggled v = Z.lxor v 1 /\ Z.lxor v 1 <> v
  /\ Z.lxor (Z.lxor v 1) 1 = v.
Proof.
  intros Hv.
  pose proof (u8_forall
    (fun v => (0 <=? Z.lxor v 1) && (Z.lxor v 1 <? 256)
              && (toggled v =? Z.lxor v 1) && negb (Z.lxor v 1 =? v)
              && (Z.lxor (Z.lxor v 1) 1 =? v)) eq_refl v Hv) as H.
  simpl in H. unfold in_u8. 
  repeat match type of H with _ && _ = true => apply andb_prop in H; destruct H as [H ?] end.
  repeat match goal with
  | H : negb _ = true |- _ => apply negb_true_iff in H
  end.
  lia.
Qed.

Lemma iter_xor1 (N : nat) (v : Z) :
  in_u8 v ->
  Nat.iter N toggled v = Nat.iter N (fun x => Z.lxor x 1) v
  /\ Nat.iter N (fun x => Z.lxor x 1) v = (if Nat.even N then v else Z.lxor v 1).
Proof.
  intros Hv.
  assert (forall n, in_u8 (Nat.iter n toggled v)
                    /\ Nat.iter n toggled v = Nat.iter n (fun x => Z.lxor x 1) v) as Hit.
  { induction n as [| n [IH1 IH2]]; [done |]. simpl.
    destruct (xor1_u8 _ IH1) as (H1 & H2 & _). rewrite H2, <- IH2. done. }
  split; [apply Hit |].
  induction N as [N IH] using (well_founded_induction lt_wf).
  destruct N as [| [| N]]; [done | done |].
  change (Nat.even (S (S N))) with (Nat.even N).
  simpl. rewrite <- (IH N) by lia.
  destruct (Hit N) as [Hin Heq]. rewrite <- Heq.
  by destruct (xor1_u8 _ Hin) as (_ & _ & _ & ->).
Qed.

Lemma store_effects_replicate_led (N : nat) (cmd : Z) (d : IoModuleData) :
  chr "1" <= cmd <= chr "4" ->
  led_state (store_effects (replicate N cmd) d) !! Z.to_nat (cmd - chr "1")
  = Nat.iter N toggled <$> led_state d !! Z.to_nat (cmd - chr "1").
Proof.
  intros Hcmd. revert d; induction N as [| N IH]; intros d.
  - simpl. by destruct (_ !! _).
  - change (store_effects (replicate (S N) cmd) d)
      with (store_effects (replicate N cmd) (store_effect cmd d)).
    rewrite IH. unfold store_effect.
    destruct (Z.leb_spec (chr "1") cmd), (Z.leb_spec cmd (chr "4")); try lia.
    cbn [andb led_state set_led_state]. rewrite list_lookup_alter_eq.
    destruct (_ !! _); [| done]. cbn [fmap option_fmap option_map].
    by rewrite Nat.iter_succ_r.
Qed.

(** ** Claims about the dispatcher *)

(** C4: for LED n in 1..4 and any sequence of receive events delivering N
    copies of the toggle byte of that LED, the dispatcher runs to the end
    and [led_state[n-1]] is its initial value XORed with 1 N times: the
    opposite state ([v0 ^ 1], different from [v0]) for odd N, the initial
    value again for even N. *)
Theorem toggle_parity (n : Z) (N : nat) (evts : list uart_event)
    (ins : list input) (w : world) (v0 : Z) :
  1 <= n <= 4 ->
  rtdb_lock w = None -> wf_data (rtdb_data w) ->
  led_state (rtdb_data w) !! Z.to_nat (n - 1) = Some v0 -> in_u8 v0 ->
  Forall in_bounds evts ->
  concat (received <$> evts) = replicate N (chr "0" + n) ->
  exists w' tr,
    run_prog T_uart (dispatch evts) ins w = Done (tt, w', tr)
    /\ led_state (rtdb_data w') !! Z.to_nat (n - 1)
       = Some (Nat.iter N (fun x => Z.lxor x 1) v0)
    /\ (Nat.Odd N ->
        led_state (rtdb_data w') !! Z.to_nat (n - 1) = Some (Z.lxor v0 1)
        /\ Z.lxor v0 1 <> v0)
    /\ (Nat.Even N -> led_state (rtdb_data w') !! Z.to_nat (n - 1) = Some v0).
Proof.
  intros Hn Hl Hwf Hv0 Hu8 Hb Hbytes.
  destruct (dispatch_run evts ins w Hb Hl Hwf) as (w' & tr & Hrun & _ & Hd).
  exists w', tr. split; [done |].
  assert (led_state (rtdb_data w') !! Z.to_nat (n - 1)
          = Some (Nat.iter N (fun x => Z.lxor x 1) v0)) as Hled.
  { rewrite Hd, Hbytes.
    pose proof (store_effects_replicate_led N (chr "0" + n) (rtdb_data w)) as H.
    char_codes. replace (48 + n - 49) with (n - 1) in H by lia.
    rewrite H by lia. rewrite Hv0. simpl. f_equal. by apply iter_xor1. }
  destruct (iter_xor1 N v0 Hu8) as [_ Hpar].
  split; [done |]. rewrite Hled, Hpar. split.
  - intros Hodd. apply Nat.odd_spec in Hodd. rewrite <- Nat.negb_odd, Hodd. simpl.
    split; [done |]. by destruct (xor1_u8 v0 Hu8) as (_ & _ & ? & _).
  - intros Heven. apply Nat.even_spec in Heven. by rewrite Heven.
Qed.

Lemma toggle_parity_witness :
  exists w' tr,
    run_prog T_uart (dispatch [UART_RX_RDY [49; 49] 0 2; UART_RX_RDY [0; 49] 1 1]) []
             (shared boot) = Done (tt, w', tr)
    /\ led_state (rtdb_data w') !! Z.to_nat (1 - 1)
       = Some (Nat.iter 3 (fun x => Z.lxor x 1) 0)
    /\ (Nat.Odd 3 ->
        led_state (rtdb_data w') !! Z.to_nat (1 - 1) = Some (Z.lxor 0 1)
        /\ Z.lxor 0 1 <> 0)
    /\ (Nat.Even 3 -> led_state (rtdb_data w') !! Z.to_nat (1 - 1) = Some 0).
Proof.
  apply (toggle_parity 1 3 _ [] (shared boot) 0).
  - lia.
  - reflexivity.
  - split; reflexivity.
  - reflexivity.
  - unfold in_u8; lia.
  - repeat constructor; simpl; lia.
  - reflexivity.
Defined.

Lemma rx_loop_single (buf : list Z) (offset : nat) (cmd : Z) :
  buf !! offset = Some cmd ->
  Uart.uart_callback (UART_RX_RDY buf offset 1) = (Uart.handle_byte cmd;; Ret tt).
Proof. intros H. simpl. rewrite Nat.add_0_r, H. reflexivity. Qed.

Lemma bytes_loop_skip (cmd : Z) (bs1 bs2 : list Z) :
  ~ (chr "0" <= cmd <= chr "9") ->
  bytes_loop (bs1 ++ cmd :: bs2) = bytes_loop (bs1 ++ bs2).
Proof.
  intros Hcmd. induction bs1 as [| b bs1 IH]; simpl.
  - by rewrite handle_byte_unrecognized.
  - by rewrite IH.
Qed.

(** C6: a received byte outside ['0'..'9'] makes the dispatcher perform no
    call at all: nothing is transmitted and the whole shared state,
    [rtdb.data] included, is left as it was; such a byte can be deleted
    from any batch without changing the program the dispatcher runs. *)
Theorem unrecognized_ignored (cmd : Z) :
  ~ (chr "0" <= cmd <= chr "9") ->
  (forall t ins w, run_prog t (Uart.handle_byte cmd) ins w = Done (tt, w, []))
  /\ (forall buf offset t ins w,
        buf !! offset = Some cmd ->
        run_prog t (Uart.uart_callback (UART_RX_RDY buf offset 1)) ins w
        = Done (tt, w, []))
  /\ (forall bs1 bs2, bytes_loop (bs1 ++ cmd :: bs2) = bytes_loop (bs1 ++ bs2)).
Proof.
  intros Hcmd. split; [| split].
  - intros t ins w. by rewrite handle_byte_unrecognized.
  - intros buf offset t ins w Hbuf.
    rewrite (rx_loop_single _ _ _ Hbuf), handle_byte_unrecognized by done.
    reflexivity.
  - intros bs1 bs2. by apply bytes_loop_skip.
Qed.

Lemma unrecognized_ignored_witness :
  (forall t ins w, run_prog t (Uart.handle_byte (chr "x")) ins w = Done (tt, w, []))
  /\ (forall buf offset t ins w,
        buf !! offset = Some (chr "x") ->
        run_prog t (Uart.uart_callback (UART_RX_RDY buf offset 1)) ins w
        = Done (tt, w, []))
  /\ (forall bs1 bs2,
        bytes_loop (bs1 ++ chr "x" :: bs2) = bytes_loop (bs1 ++ bs2)).
Proof. apply (unrecognized_ignored (chr "x")). vm_compute. intros [_ H]. by apply H. Defined.

(** C10: handling a byte in ['1'..'4'] changes at most
    [led_state[byte - '1']]: every other element of [led_state], all of
    [button_state], [an_raw] and [an_val] are as before. *)
Theorem toggle_frame (cmd : Z) (ins : list input) (w : world) :
  chr "1" <= cmd <= chr "4" ->
  rtdb_lock w = None -> wf_data (rtdb_data w) ->
  exists w' tr,
    run_prog T_uart (Uart.handle_byte cmd) ins w = Done (tt, w', tr)
    /\ (forall j : nat, j <> Z.to_nat (cmd - chr "1") ->
          led_state (rtdb_data w') !! j = led_state (rtdb_data w) !! j)
    /\ length (led_state (rtdb_data w')) = length (led_state (rtdb_data w))
    /\ button_state (rtdb_data w') = button_state (rtdb_data w)
    /\ an_raw (rtdb_data w') = an_raw (rtdb_data w)
    /\ an_val (rtdb_data w') = an_val (rtdb_data w).
Proof.
  intros Hcmd Hl Hwf.
  destruct (handle_byte_run cmd ins w Hl Hwf) as (w' & tr & Hrun & _ & Hd).
  exists w', tr. split; [done |]. rewrite Hd. unfold store_effect.
  destruct (Z.leb_spec (chr "1") cmd), (Z.leb_spec cmd (chr "4")); try lia.
  cbn [andb led_state set_led_state button_state an_raw an_val].
  split; [| by rewrite length_alter].
  intros j Hj. by apply list_lookup_alter_ne.
Qed.

Lemma toggle_frame_witness :
  exists w' tr,
    run_prog T_uart (Uart.handle_byte (chr "3")) [] (shared boot) = Done (tt, w', tr)
    /\ (forall j : nat, j <> Z.to_nat (chr "3" - chr "1") ->
          led_state (rtdb_data w') !! j = led_state (rtdb_data (shared boot)) !! j)
    /\ length (led_state (rtdb_data w')) = length (led_state (rtdb_data (shared boot)))
    /\ button_state (rtdb_data w') = button_state (rtdb_data (shared boot))
    /\ an_raw (rtdb_data w') = an_raw (rtdb_data (shared boot))
    /\ an_val (rtdb_data w') = an_val (rtdb_data (shared boot)).
Proof.
  apply (toggle_frame (chr "3") [] (shared boot)).
  - vm_compute. split; discriminate.
  - reflexivity.
  - split; reflexivity.
Defined.

(** C3, as stated, fails: at boot the response to ['0'] is
    ["Processed sensor value: 0  Celsius\r\n"], which is not the text
    ["Processed sensor value: 0\r\n"]. *)
Lemma processed_counterexample :
  transmitted (trace_of (run_prog T_uart
     (Uart.uart_callback (UART_RX_RDY [chr "0"] 0 1)) [] (shared boot)))
  = [("Processed sensor value: 0  Celsius" ++ crlf)%string]
  /\ transmitted (trace_of (run_prog T_uart
     (Uart.uart_callback (UART_RX_RDY [chr "0"] 0 1)) [] (shared boot)))
  <> [("Processed sensor value: " ++ fmt_d (an_val (rtdb_data (shared boot))) ++ crlf)%string].
Proof. split; [reflexivity | vm_compute; discriminate]. Qed.

(** C3, amended: on byte ['0'] the dispatcher locks the mutex, reads
    [an_val], unlocks, and then transmits exactly
    ["Processed sensor value: <value>  Celsius\r\n"]; the shared state is
    unchanged. *)
Theorem processed_response (buf : list Z) (offset : nat) (ins : list input) (w : world) :
  buf !! offset = Some (chr "0") ->
  rtdb_lock w = None ->
  INT_MIN <= an_val (rtdb_data w) <= INT_MAX ->
  exists r,
    run_prog T_uart (Uart.uart_callback (UART_RX_RDY buf offset 1)) ins w
    = Done (tt, w,
            [(T_uart, Call KMutexLock tt);
             (T_uart, Call LoadAnVal (an_val (rtdb_data w)));
             (T_uart, Call KMutexUnlock tt);
             (T_uart, Call (UartTx ("Processed sensor value: "
                                    ++ fmt_d (an_val (rtdb_data w))
                                    ++ "  Celsius" ++ crlf)%string) r)]).
Proof.
  intros Hbuf Hl Hval. eexists.
  rewrite (rx_loop_single _ _ _ Hbuf).
  unfold Uart.handle_byte, Uart.command. char_codes. simpl.
  rewrite Hl. simpl. rewrite unlock_lock by done.
  rewrite snprintf_fits; [reflexivity |].
  pose proof (fmt_d_length _ Hval).
  simpl. rewrite ?string_length_append. simpl. lia.
Qed.

Lemma processed_response_witness :
  exists r,
    run_prog T_uart (Uart.uart_callback (UART_RX_RDY [chr "0"] 0 1)) [] (shared boot)
    = Done (tt, shared boot,
            [(T_uart, Call KMutexLock tt);
             (T_uart, Call LoadAnVal (an_val (rtdb_data (shared boot))));
             (T_uart, Call KMutexUnlock tt);
             (T_uart, Call (UartTx ("Processed sensor value: "
                                    ++ fmt_d (an_val (rtdb_data (shared boot)))
                                    ++ "  Celsius" ++ crlf)%string) r)]).
Proof.
  apply (processed_response [chr "0"] 0 [] (shared boot)).
  - reflexivity.
  - reflexivity.
  - vm_compute. split; discriminate.
Defined.

(** C8: once a turn of the persistence loop has stored a reading with
    [raw_value = 700], the byte ['9'] makes the dispatcher lock, read
    [an_raw = 700], unlock and transmit ["Raw sensor value: 700\r\n"]. *)
Theorem raw_700_response (w : world) (d : SensorData) (q : list SensorData) (v : Z) :
  rtdb_lock w = None ->
  msgq_sensor_data w = d :: q ->
  raw_value d = 700 ->
  F32.to_int (temperature d) = Some v ->
  exists w1,
    (forall ins, exists tr,
       run_prog T_database Pipeline.database_thread ins w = Done (tt, w1, tr))
    /\ an_raw (rtdb_data w1) = 700
    /\ forall buf offset ins,
         buf !! offset = Some (chr "9") ->
         exists r,
           run_prog T_uart (Uart.uart_callback (UART_RX_RDY buf offset 1)) ins w1
           = Done (tt, w1,
                   [(T_uart, Call KMutexLock tt);
                    (T_uart, Call LoadAnRaw 700);
                    (T_uart, Call KMutexUnlock tt);
                    (T_uart, Call (UartTx ("Raw sensor value: 700" ++ crlf)%string) r)]).
Proof.
  intros Hl Hq Hraw Hv.
  eexists. split; [| split].
  - intros ins. eexists. unfold Pipeline.database_thread. simpl.
    rewrite Hq. simpl. rewrite Hl. simpl. rewrite Hv. simpl. reflexivity.
  - simpl. done.
  - intros buf offset ins Hbuf. eexists.
    rewrite (rx_loop_single _ _ _ Hbuf).
    unfold Uart.handle_byte, Uart.command. char_codes. simpl.
    rewrite Hraw. reflexivity.
Qed.

(** A successful [main] arms reception once, with [rx_buf],
    [sizeof(rx_buf)] and [RECEIVE_TIMEOUT], and leaves [rtdb] zeroed and
    unlocked. *)
Lemma main_arms_once (w : world) (ins : list input) (w' : world) (tr : trace) :
  run_prog T_main Main.main ins w = Done (0, w', tr) ->
  rx_arm_requests tr = [(rx_buf, RECEIVE_BUFF_SIZE, RECEIVE_TIMEOUT)]
  /\ rx_enabled w' = true /\ rtdb_data w' = rtdb_zero /\ rtdb_lock w' = None.
Proof.
  unfold Main.main, Main.configure_buttons_and_leds, gpio_pin_configure_dt,
    device_is_ready, printk, uart_callback_set, uart_tx, uart_rx_enable,
    k_thread_create, k_msleep.
  intros H. repeat run_step H.
  all: cbn in *; by simplify_eq.
Qed.

(** C9: on a receive-disabled event the callback makes one
    [uart_rx_enable] request, with the buffer, length and timeout of the
    request [main] made, and reception is enabled again afterwards. *)
Theorem rx_rearmed (w wm wm' : world) (inp : input) (ins insm : list input)
    (trm : trace) :
  in_event inp = UART_RX_DISABLED ->
  run_prog T_main Main.main insm wm = Done (0, wm', trm) ->
  run_prog T_uart Uart.isr (inp :: ins) w
  = Done (tt, set_rx_enabled true w,
          [(T_uart, Call UartEvent UART_RX_DISABLED);
           (T_uart, Call (UartRxEnable rx_buf RECEIVE_BUFF_SIZE RECEIVE_TIMEOUT) 0)])
  /\ rx_arm_requests trm = [(rx_buf, RECEIVE_BUFF_SIZE, RECEIVE_TIMEOUT)]
  /\ exists r w',
       run_prog T_uart (Uart.uart_callback UART_RX_DISABLED) ins w
       = Done (tt, w',
               [(T_uart, Call (UartRxEnable rx_buf RECEIVE_BUFF_SIZE RECEIVE_TIMEOUT) r)])
       /\ rx_enabled w' = true.
Proof.
  intros Hevt Hmain. split; [| split].
  - unfold Uart.isr. simpl. rewrite Hevt. simpl. by destruct w.
  - by apply main_arms_once in Hmain as [? _].
  - simpl. destruct (rx_enabled w) eqn:Hrx; do 2 eexists; (split; [reflexivity |]); done.
Qed.

Lemma rx_rearmed_witness :
  run_prog T_uart Uart.isr [mkInput 0 0 UART_RX_DISABLED] (shared boot)
  = Done (tt, set_rx_enabled true (shared boot),
          [(T_uart, Call UartEvent UART_RX_DISABLED);
           (T_uart, Call (UartRxEnable rx_buf RECEIVE_BUFF_SIZE RECEIVE_TIMEOUT) 0)])
  /\ rx_arm_requests (trace_of (run_prog T_main Main.main boot_inputs power_on))
     = [(rx_buf, RECEIVE_BUFF_SIZE, RECEIVE_TIMEOUT)]
  /\ exists r w',
       run_prog T_uart (Uart.uart_callback UART_RX_DISABLED) [] (shared boot)
       = Done (tt, w',
               [(T_uart, Call (UartRxEnable rx_buf RECEIVE_BUFF_SIZE RECEIVE_TIMEOUT) r)])
       /\ rx_enabled w' = true.
Proof.
  apply (rx_rearmed (shared boot) power_on (shared boot)
                    (mkInput 0 0 UART_RX_DISABLED) [] boot_inputs).
  - reflexivity.
  - reflexivity.
Defined.

Lemma raw_700_response_witness :
  exists w1,
    (forall ins, exists tr,
       run_prog T_database Pipeline.database_thread ins
                (mkWorld rtdb_zero None [] [mkSensorData 700 (F32.of_int 63167)] 0 true)
       = Done (tt, w1, tr))
    /\ an_raw (rtdb_data w1) = 700
    /\ forall buf offset ins,
         buf !! offset = Some (chr "9") ->
         exists r,
           run_prog T_uart (Uart.uart_callback (UART_RX_RDY buf offset 1)) ins w1
           = Done (tt, w1,
                   [(T_uart, Call KMutexLock tt);
                    (T_uart, Call LoadAnRaw 700);
                    (T_uart, Call KMutexUnlock tt);
                    (T_uart, Call (UartTx ("Raw sensor value: 700" ++ crlf)%string) r)]).
Proof.
  apply (raw_700_response
           (mkWorld rtdb_zero None [] [mkSensorData 700 (F32.of_int 63167)] 0 true)
           (mkSensorData 700 (F32.of_int 63167)) [] 63167).
  - reflexivity.
  - reflexivity.
  - reflexivity.
  - reflexivity.
Defined.

(** ** The reading transformation *)

Lemma all_from_spec (n : nat) (z : Z) (p : Z -> bool) :
  all_from n z p = true -> forall x, z <= x < z + Z.of_nat n -> p x = true.
Proof.
  revert z; induction n as [| n IH]; intros z H x Hx; [lia |].
  simpl in H. apply andb_prop in H as [Hz Hrest].
  destruct (decide (x = z)) as [-> | Hne]; [done |].
  apply (IH (z + 1)); [done | lia].
Qed.

Lemma reading_ok_int16 : all_from (Z.to_nat 65536) (-32768) reading_ok = true.
Proof. vm_compute. reflexivity. Qed.

(** Every [int16_t] sample has a reading: the conversion to [int] is
    defined, [temperature] holds it exactly, and it is within 1 of the
    unrounded 60000 * (3 * raw / 1023 - 1). *)
Lemma reading_of_total (raw : Z) :
  in_i16 raw ->
  exists t,
    Pipeline.scaled (Pipeline.voltage_of raw) = Some t
    /\ Z.abs (t - exact_scaled raw) <= 1
    /\ F32.to_int (F32.of_int t) = Some t
    /\ reading_of raw = Some (mkSensorData raw (F32.of_int t)).
Proof.
  intros Hraw. unfold in_i16 in Hraw.
  pose proof (all_from_spec _ _ _ reading_ok_int16 raw) as H.
  rewrite Z2Nat.id in H by lia. specialize (H ltac:(lia)).
  unfold reading_ok in H. unfold reading_of.
  destruct (Pipeline.scaled (Pipeline.voltage_of raw)) as [t |]; [| done].
  apply andb_prop in H as [H1 H2]. apply bool_decide_eq_true in H2.
  exists t. repeat split; [lia | done].
Qed.

(** With a sample waiting and room in [msgq_sensor_data], a turn of the
    transformation loop runs to its end and puts the reading of the
    sample. *)
Lemma transform_turn_runs (w : world) (raw : Z) (q : list Z) (ins : list input) :
  msgq_adc_raw w = raw :: q ->
  in_i16 raw ->
  (length (msgq_sensor_data w) < MSGQ_MAX_MSGS)%nat ->
  exists d,
    reading_of raw = Some d
    /\ run_prog T_process Pipeline.data_processing_thread ins w
       = Done (tt,
               set_msgq_sensor_data (msgq_sensor_data w ++ [d]) (set_msgq_adc_raw q w),
               [(T_process, Call MsgqGetRaw raw);
                (T_process, Call (MsgqPutData d) tt)]).
Proof.
  intros Hq Hraw Hroom.
  destruct (reading_of_total raw Hraw) as (t & Ht & _ & _ & Hd).
  eexists; split; [exact Hd |].
  unfold Pipeline.data_processing_thread.
  cbn -[Pipeline.scaled Pipeline.voltage_of F32.of_int].
  rewrite Hq. cbn -[Pipeline.scaled Pipeline.voltage_of F32.of_int].
  rewrite Ht. cbn -[F32.of_int MSGQ_MAX_MSGS].
  rewrite bool_decide_true by done. reflexivity.
Qed.

(** C1, as stated, fails: for the raw sample 512 the loop computes 30087,
    not the value of about 30 that [k = 60] gives. *)
Lemma derived_512_counterexample :
  Pipeline.scaled (Pipeline.voltage_of 512) = Some 30087
  /\ spec_derived_k60 512 = Some 30
  /\ Pipeline.scaled (Pipeline.voltage_of 512) <> spec_derived_k60 512
  /\ ~ (29 <= 30087 <= 31).
Proof.
  assert (Pipeline.scaled (Pipeline.voltage_of 512) = Some 30087) as H1 by (vm_compute; reflexivity).
  assert (spec_derived_k60 512 = Some 30) as H2 by (vm_compute; reflexivity).
  rewrite H1, H2. repeat split; [discriminate | lia].
Qed.

(** C1, amended: for the raw sample 512 the loop computes, in binary32,
    the voltage [(512 / 1023.0f) * 3.0f] = 12595212 * 2^-23 (between 1.501
    and 1.502) and the derived value [(int)(60000 * (voltage - 1))] = 30087,
    the truncation of 60000 * (3 * 512 / 1023 - 1): the factor is 60000 and
    the offset 1.  The reading put on the queue is (512, 30087.0f), which
    converts back to 30087. *)
Theorem derived_512 :
  Pipeline.voltage_of 512 = S754_finite false 12595212 (-23)
  /\ 1501 * 2 ^ 23 < 12595212 * 1000 < 1502 * 2 ^ 23
  /\ Pipeline.scaled (Pipeline.voltage_of 512) = Some 30087
  /\ 30087 = (60000 * (3 * 512 - 1023)) / 1023
  /\ (forall ins w,
        run_prog T_process Pipeline.data_processing_thread ins
                 (set_msgq_sensor_data [] (set_msgq_adc_raw [512] w))
        = Done (tt,
                set_msgq_sensor_data [mkSensorData 512 (F32.of_int 30087)]
                  (set_msgq_adc_raw [] w),
                [(T_process, Call MsgqGetRaw 512);
                 (T_process, Call (MsgqPutData (mkSensorData 512 (F32.of_int 30087))) tt)]))
  /\ F32.to_int (F32.of_int 30087) = Some 30087.
Proof.
  split; [vm_compute; reflexivity |].
  split; [lia |].
  assert (Pipeline.scaled (Pipeline.voltage_of 512) = Some 30087) as H1 by (vm_compute; reflexivity).
  split; [exact H1 |].
  split; [reflexivity |].
  split; [| vm_compute; reflexivity].
  intros ins w. unfold Pipeline.data_processing_thread.
  cbn -[Pipeline.scaled Pipeline.voltage_of F32.of_int].
  rewrite H1. cbn -[F32.of_int]. destruct w; reflexivity.
Qed.

(** ** Conformance of executions to trace automata *)

Section Conformance.
Context {S : Type}.
Variable delta : tid -> S -> call -> option S.
Variable idle : tid -> S -> Prop.
Variable R : (tid -> S) -> world -> Prop.
Hypothesis Hloops : loops_conform delta idle.
Hypothesis Hexec : exec_preserves delta R.

Lemma accepts_app (d : S -> call -> option S) st cs1 cs2 :
  accepts d st (cs1 ++ cs2) = accepts d st cs1 ≫= fun st' => accepts d st' cs2.
Proof.
  revert st; induction cs1 as [| c cs1 IH]; intros st; simpl; [done |].
  destruct (d st c); [apply IH | done].
Qed.

Lemma calls_of_app t tr1 tr2 : calls_of t (tr1 ++ tr2) = calls_of t tr1 ++ calls_of t tr2.
Proof. apply omap_app. Qed.

Lemma step_thread_conforms {L : Type} t inp (loop : L -> prog L) p w p' w' tr' st :
  conforms (delta t) (idle t) st p ->
  (forall st l, idle t st -> conforms (delta t) (idle t) st (loop l)) ->
  step_thread t inp loop p w = Done (p', w', tr') ->
  (tr' = [] /\ w' = w /\ conforms (delta t) (idle t) st p')
  \/ (exists X (e : op X) x st',
        tr' = [(t, Call e x)] /\ exec_op t inp e w = Done (x, w')
        /\ delta t st (Call e x) = Some st'
        /\ conforms (delta t) (idle t) st' p').
Proof.
  intros Hp Hloop Hstep. destruct p as [l | X e k]; simpl in *.
  - left. simplify_eq. auto.
  - right. destruct (exec_op t inp e w) as [[x w1] | |] eqn:He; simplify_eq.
    specialize (Hp x). destruct (delta t st (Call e x)) as [st' |] eqn:Hd; [| done].
    by exists X, e, x, st'.
Qed.

Theorem conformance (sigma0 : tid -> S) :
  conts_conform delta idle sigma0 (conts boot) ->
  R sigma0 (shared boot) ->
  forall s tr, execution s tr ->
  exists sigma,
    (forall t, accepts (delta t) (sigma0 t) (calls_of t tr) = Some (sigma t))
    /\ conts_conform delta idle sigma (conts s)
    /\ R sigma (shared s).
Proof.
  intros Hboot HR0 s tr Hex. induction Hex as [| s tr t inp s' tr' Hex IH Hstep].
  - exists sigma0. split; [done |]. done.
  - destruct IH as (sigma & Hacc & Hconts & HR).
    destruct Hloops as (Hl1 & Hl2 & Hl3 & Hl4 & Hl5 & Hl6).
    destruct Hconts as (Hc1 & Hc2 & Hc3 & Hc4 & Hc5 & Hc6).
    destruct s as [w c]. unfold step in Hstep. cbn [shared conts] in *.
    destruct t; [done | | | | | |].
    all: match type of Hstep with
         | commit _ (step_thread ?t _ ?loop ?p _) = _ =>
             destruct (step_thread t inp loop p w) as [[[p' w'] tr1] | |] eqn:Hst;
             simpl in Hstep; simplify_eq
         end.
    all: match goal with
         | Hc : conforms (delta ?t) _ _ ?p, Hs : step_thread ?t _ _ ?p _ = _ |- _ =>
             destruct (fun Hl => step_thread_conforms _ _ _ _ _ _ _ _ _ Hc Hl Hs)
               as [(-> & -> & Hp') | (X & e & x & st' & -> & He & Hd & Hp')];
             [ by (intros; cbv beta; eauto) | | ]
         end.
    all: try (exists sigma; rewrite app_nil_r; by repeat split).
    all: match goal with
         | H : exec_op ?t _ _ _ = _ |- _ =>
             exists (<[t := st']> sigma); split; [| split]
         end.
    all: try (eapply Hexec; eassumption).
    all: try (intros t'; rewrite calls_of_app, accepts_app, Hacc; simpl;
              unfold calls_of; simpl;
              destruct (decide (_ = t')) as [<- | Hne];
              [ simpl; rewrite Hd; by rewrite fn_lookup_insert
              | simpl; by rewrite fn_lookup_insert_ne ]).
    all: unfold conts_conform; simpl;
         rewrite ?fn_lookup_insert, ?fn_lookup_insert_ne by done; by repeat split.
Qed.
End Conformance.

(** ** Lock discipline and the persistence pattern *)

Section Conforms_facts.
Context {S : Type}.
Variable delta : S -> call -> option S.

Lemma conforms_mono {A : Type} (Q Q' : S -> Prop) st (p : prog A) :
  (forall st', Q st' -> Q' st') -> conforms delta Q st p -> conforms delta Q' st p.
Proof.
  intros HQ. revert st; induction p as [a | X e k IH]; intros st; simpl; [auto |].
  intros H x. specialize (H x). destruct (delta st (Call e x)); [by apply IH | done].
Qed.

Lemma conforms_bind {A B : Type} (Q : S -> Prop) st (p : prog A) (f : A -> prog B) :
  conforms delta (fun st' => forall a, conforms delta Q st' (f a)) st p ->
  conforms delta Q st (p ≫= f).
Proof.
  unfold mbind, prog_bind.
  revert st; induction p as [a | X e k IH]; intros st; simpl; [auto |].
  intros H x. specialize (H x). destruct (delta st (Call e x)); [by apply IH | done].
Qed.
End Conforms_facts.

(** What a call can do to the mutex and to the sensor fields. *)
Lemma exec_op_lock t inp {X} (e : op X) x w w' :
  exec_op t inp e w = Done (x, w') ->
  match kind_of e with
  | KLock => rtdb_lock w = None /\ rtdb_lock w' = Some t
  | KUnlock => rtdb_lock w' = if decide (rtdb_lock w = Some t) then None else rtdb_lock w
  | KBoot => True
  | _ => rtdb_lock w' = rtdb_lock w
  end.
Proof.
  destruct e; simpl; intros H; repeat case_match; simplify_eq/=; try done.
  all: try (unfold of_option in *; repeat case_match; simplify_option_eq; done).
Qed.

Lemma exec_op_sensor_frame t inp {X} (e : op X) x w w' :
  exec_op t inp e w = Done (x, w') ->
  is_sensor_store (Call e x) = false ->
  kind_of e <> KBoot ->
  an_raw (rtdb_data w') = an_raw (rtdb_data w)
  /\ an_val (rtdb_data w') = an_val (rtdb_data w).
Proof.
  destruct e; simpl; intros H Hs Hk; repeat case_match; simplify_eq/=; try done.
  all: unfold of_option in *; repeat case_match; simplify_option_eq; done.
Qed.

Lemma pair_from_frame rs d d' :
  an_raw d' = an_raw d -> an_val d' = an_val d -> pair_from rs d -> pair_from rs d'.
Proof. unfold pair_from. intros -> ->. done. Qed.

Lemma pair_from_more rs r d : pair_from rs d -> pair_from (rs ++ [r]) d.
Proof.
  intros [H | (r0 & Hin & H)]; [by left | right].
  exists r0. split; [| done]. apply elem_of_app. by left.
Qed.

Lemma hold_step_kind pol h c h' :
  hold_step pol h c = Some h' ->
  match call_kind c with
  | KLock => h = None /\ is_Some h'
  | KUnlock => is_Some h /\ h' = None
  | KAccess => is_Some h /\ is_Some h'
  | KBoot => False
  | _ => is_Some h <-> is_Some h'
  end.
Proof.
  unfold hold_step. destruct (call_kind c), h as [[| n] |]; intros H;
    repeat case_match; simplify_eq; try done; try (split; by eauto).
Qed.

Lemma guarded_lock_inv (sigma : tid -> option nat * db_state) t inp {X} (e : op X) x w w' st' :
  (forall t, rtdb_lock w = Some t <-> is_Some (fst (sigma t))) ->
  exec_op t inp e w = Done (x, w') ->
  guarded_step t (sigma t) (Call e x) = Some st' ->
  (forall t', rtdb_lock w' = Some t' <-> is_Some (fst ((<[t := st']> sigma) t'))).
Proof.
  intros Hinv Hex Hg t'. unfold guarded_step in Hg.
  destruct (hold_step _ _ _) as [h' |] eqn:Hh; [| done].
  destruct (store_step _ _ _) as [d' |]; [| done]. simplify_eq.
  apply hold_step_kind in Hh. apply exec_op_lock in Hex. simpl in Hh.
  destruct (decide (t = t')) as [<- | Hne].
  - rewrite fn_lookup_insert. simpl.
    destruct (kind_of e); try done.
    + destruct Hh as [_ Hh]. destruct Hex as [_ ->]. done.
    + destruct Hh as [Hh ->]. apply Hinv in Hh. rewrite Hex, decide_True by done.
      split; [done | by intros []].
    + rewrite Hex, Hinv. destruct Hh as [? ?]. split; done.
    + rewrite Hex, Hinv. done.
    + rewrite Hex, Hinv. done.
    + rewrite Hex, Hinv. done.
  - rewrite fn_lookup_insert_ne by done.
    destruct (kind_of e); try done.
    + destruct Hh as [Hh _]. destruct Hex as [Hw ->].
      split; [intros ?; simplify_eq |].
      intros Ht'. apply Hinv in Ht'. congruence.
    + destruct Hh as [Hh ->]. apply Hinv in Hh. rewrite Hex, decide_True by done.
      split; [done |]. intros Ht'. apply Hinv in Ht'. congruence.
    + rewrite Hex. apply Hinv.
    + rewrite Hex. apply Hinv.
    + rewrite Hex. apply Hinv.
    + rewrite Hex. apply Hinv.
Qed.

Lemma guarded_exec_preserves : exec_preserves guarded_step guarded_inv.
Proof.
  intros sigma t inp X e x w w' st' [Hlock Hpair] Hex Hg.
  split; [by eapply guarded_lock_inv |].
  pose proof Hg as Hg'. unfold guarded_step in Hg'.
  destruct (hold_step _ _ _) as [h' |] eqn:Hh; [| done].
  destruct (store_step _ _ _) as [d' |] eqn:Hs; [| done]. simplify_eq.
  pose proof (hold_step_kind _ _ _ _ Hh) as Hk.
  destruct (decide (t = T_database)) as [-> | Hne].
  - rewrite fn_lookup_insert. cbn [fst snd store_step] in *.
    destruct (sigma T_database) as [h [sn stg]]. cbn [fst snd seen stage] in *.
    destruct e; simpl in Hs; try done;
      destruct stg; simplify_eq/=; repeat case_match; simplify_eq/=.
    + (* lock *) destruct Hk as [_ Hk]. destruct Hpair as (_ & Hp & Hin). done.
    + (* unlock *) destruct Hk as [_ ->].
      destruct Hpair as (_ & Hin & Hraw & Hval & Hconv).
      split; [by intros [] |]. right. exists d. by subst.
    + destruct Hk as [_ ->].
      destruct Hpair as (_ & Hin & Hraw & Hval & Hconv).
      split; [by intros [] |]. right. exists d. by subst.
    + (* store an_raw *) destruct Hk as [_ Hk]. destruct Hpair as (_ & Hp & Hin). done.
    + (* store an_val *) destruct Hk as [_ Hk]. destruct Hpair as (_ & Hin & Hraw). done.
    + (* get *) destruct Hpair as [Hn Hp].
      split; [| split].
      * intros Hsome. apply Hn. by apply Hk.
      * by apply pair_from_more.
      * apply elem_of_app. right. by apply list_elem_of_singleton.
  - rewrite fn_lookup_insert_ne by done.
    assert (store_step t = reader_step) as Hrs by (by destruct t).
    rewrite Hrs in Hs. unfold reader_step in Hs.
    destruct (is_sensor_store (Call e x)) eqn:Hst; [done |].
    destruct (exec_op_sensor_frame _ _ _ _ _ _ Hex Hst) as [Hraw Hval].
    { intros Hb. simpl in Hk. by rewrite Hb in Hk. }
    cbv zeta in *. destruct (stage (snd (sigma T_database)));
      rewrite ?Hraw, ?Hval; intuition eauto using pair_from_frame.
Qed.

Ltac idle_state st :=
  let h := fresh "h" in let sn := fresh "sn" in let sg := fresh "sg" in
  let H1 := fresh in let H2 := fresh in
  destruct st as [h [sn sg]]; intros [H1 H2]; cbn in H1, H2; subst h sg.

Lemma handle_byte_conforms st cmd :
  guarded_idle st ->
  conforms (guarded_step T_uart) (at_rest st) st (Uart.handle_byte cmd).
Proof.
  idle_state st. unfold Uart.handle_byte, Uart.command, at_rest.
  repeat case_match; cbn; repeat (intros ?; cbn); reflexivity.
Qed.

Lemma rx_loop_conforms st buf offset n i :
  guarded_idle st ->
  conforms (guarded_step T_uart) guarded_idle st (Uart.rx_loop buf offset i n).
Proof.
  intros Hst. revert i; induction n as [| n IH]; intros i; [done |].
  cbn [Uart.rx_loop]. destruct (buf !! _) as [cmd |]; [| intros xe; destruct xe].
  cbn [cast]. change (Ret cmd ≫= ?f) with (f cmd). cbv beta.
  apply conforms_bind.
  eapply conforms_mono; [| by apply handle_byte_conforms].
  intros st' -> _. apply IH.
Qed.

Lemma uart_conforms st :
  guarded_idle st -> conforms (guarded_step T_uart) guarded_idle st Uart.isr.
Proof.
  intros Hst. pose proof Hst as Hst'. revert Hst'. idle_state st.
  intros evt. cbn.
  destruct evt; try done.
  by apply rx_loop_conforms.
Qed.

Lemma button_conforms st :
  guarded_idle st ->
  conforms (guarded_step T_button) guarded_idle st Button.button_thread.
Proof.
  idle_state st. unfold Button.button_thread, Button.check_button.
  repeat (intros ?; cbn; try case_match; cbn). all: done.
Qed.

Lemma sensor_conforms st :
  guarded_idle st ->
  conforms (guarded_step T_sensor) guarded_idle st Pipeline.sensor_reading_thread.
Proof.
  idle_state st. unfold Pipeline.sensor_reading_thread, Pipeline.read_adc.
  repeat (intros ?; cbn; try case_match; cbn). all: done.
Qed.

Lemma process_conforms st :
  guarded_idle st ->
  conforms (guarded_step T_process) guarded_idle st Pipeline.data_processing_thread.
Proof.
  idle_state st. unfold Pipeline.data_processing_thread.
  intros raw. cbn -[Pipeline.scaled Pipeline.voltage_of F32.of_int].
  destruct (Pipeline.scaled _); cbn -[F32.of_int]; [| intros xe; destruct xe].
  intros ?. cbn -[F32.of_int]. done.
Qed.

Lemma database_conforms st :
  guarded_idle st ->
  conforms (guarded_step T_database) guarded_idle st Pipeline.database_thread.
Proof.
  idle_state st. unfold Pipeline.database_thread.
  intros d. cbn -[F32.to_int]. intros ?. cbn -[F32.to_int].
  rewrite decide_True by done. intros ?.
  destruct (F32.to_int (temperature d)) as [v |] eqn:Hv;
    cbn -[F32.to_int]; [| intros xe; destruct xe].
  intros ?. cbn -[F32.to_int].
  rewrite Hv, decide_True by done. intros ?. cbn. done.
Qed.

Lemma sync_one_conforms (d : db_state) (n : nat) (i : Z) (l : list Z) :
  conforms (guarded_step T_led)
           (fun st' => exists m, st' = (Some m, d) /\ (n <= m)%nat)
           (Some (4 + n)%nat, d) (Led.sync_one i l).
Proof.
  unfold Led.sync_one. intros v. cbn.
  destruct (l !! Z.to_nat i) as [cur |]; cbn; [| intros xe; destruct xe].
  case_bool_decide; cbn.
  - destruct (leds !! Z.to_nat i) as [pin |]; cbn; [| intros xe; destruct xe].
    intros v1. cbn. intros ?. cbn. intros v2. cbn. exists n. done.
  - exists (S (S (S n))). split; [done | lia].
Qed.

Lemma for_range_conforms (d : db_state) (k n : nat) (i : Z) (l : list Z) :
  conforms (guarded_step T_led)
           (fun st' => exists m, st' = (Some m, d))
           (Some (4 * k + n)%nat, d) (for_range k i Led.sync_one l).
Proof.
  revert n i l; induction k as [| k IH]; intros n i l.
  - cbn. by exists n.
  - cbn [for_range]. apply conforms_bind.
    replace (4 * S k + n)%nat with (4 + (4 * k + n))%nat by lia.
    eapply conforms_mono; [| apply sync_one_conforms].
    intros st' (m & -> & Hm) l'.
    replace m with (4 * k + (m - 4 * k))%nat by lia. apply IH.
Qed.

Lemma led_conforms st l :
  guarded_idle st ->
  conforms (guarded_step T_led) guarded_idle st (Led.led_thread l).
Proof.
  idle_state st. unfold Led.led_thread. intros ?. cbn -[for_range].
  apply conforms_bind.
  eapply conforms_mono; [| apply (for_range_conforms _ 4 0)].
  intros st' [m ->] cur. cbn. intros ?. cbn. intros ?. cbn. done.
Qed.

Lemma guarded_loops_conform : loops_conform guarded_step (fun _ => guarded_idle).
Proof.
  repeat split; intros.
  - by apply uart_conforms.
  - by apply led_conforms.
  - by apply button_conforms.
  - by apply sensor_conforms.
  - by apply process_conforms.
  - by apply database_conforms.
Qed.

Theorem guarded_execution (s : system) (tr : trace) :
  execution s tr ->
  exists sigma,
    (forall t, accepts (guarded_step t) (guarded_boot t) (calls_of t tr) = Some (sigma t))
    /\ conts_conform guarded_step (fun _ => guarded_idle) sigma (conts s)
    /\ guarded_inv sigma (shared s).
Proof.
  apply (conformance guarded_step (fun _ => guarded_idle) guarded_inv
           guarded_loops_conform guarded_exec_preserves guarded_boot).
  - by repeat split.
  - split; [intros t; cbn; split; [done | by intros []] |].
    cbn. split; [by intros [] | by left].
Qed.

(** ** Reachable states are well formed *)

Lemma exec_op_wf t inp {X : Type} (e : op X) x w w' :
  exec_op t inp e w = Done (x, w') ->
  wf_data (rtdb_data w) -> wf_data (rtdb_data w').
Proof.
  unfold wf_data.
  destruct e; simpl; intros H Hwf; repeat case_match; simplify_eq/=; try done.
  all: unfold of_option, store_elem in *; repeat case_match; simplify_option_eq;
    rewrite ?length_insert; done.
Qed.

Lemma step_wf t inp s s' tr :
  step t inp s = Done (s', tr) ->
  wf_data (rtdb_data (shared s)) -> wf_data (rtdb_data (shared s')).
Proof.
  destruct s as [w c]. unfold step. cbn [shared conts].
  destruct t; [done | | | | | |];
    (match goal with
     | |- commit _ (step_thread ?t _ ?loop ?p _) = _ -> _ =>
         destruct p as [l | X e k]; simpl;
         [ intros ?; by simplify_eq
         | destruct (exec_op t inp e w) as [[x w1] | |] eqn:Hex; simpl;
           intros ?; simplify_eq; by eapply exec_op_wf ]
     end).
Qed.

(** In every execution the arrays of [rtdb.data] keep their 4 elements. *)
Lemma execution_wf (s : system) (tr : trace) :
  execution s tr -> wf_data (rtdb_data (shared s)).
Proof.
  induction 1 as [| s tr t inp s' tr' _ IH Hstep]; [by split |].
  by eapply step_wf.
Qed.

Lemma to_int_range (f : spec_float) (v : Z) :
  F32.to_int f = Some v -> INT_MIN <= v <= INT_MAX.
Proof.
  unfold F32.to_int. destruct (F32.trunc f) as [z |]; [| done].
  destruct (Z.leb_spec INT_MIN z), (Z.leb_spec z INT_MAX); simpl; intros ?;
    simplify_eq; lia.
Qed.

(** While the persistence loop is not writing, [an_val] is an [int]. *)
Lemma pair_from_range (rs : list SensorData) (d : IoModuleData) :
  pair_from rs d -> INT_MIN <= an_val d <= INT_MAX.
Proof.
  intros [[_ ->] | (r & _ & _ & Hv)]; [done |]. by eapply to_int_range.
Qed.

(** In every execution, while the persistence loop does not hold the
    mutex, [an_val] is an [int]: the hypotheses under which the dispatcher
    was run on its own hold in every state the firmware reaches. *)
Lemma execution_an_val_int (s : system) (tr : trace) :
  execution s tr ->
  rtdb_lock (shared s) <> Some T_database ->
  INT_MIN <= an_val (rtdb_data (shared s)) <= INT_MAX.
Proof.
  intros Hex Hfree.
  destruct (guarded_execution s tr Hex) as (sigma & _ & _ & Hlock & Hpair).
  cbv zeta in Hpair.
  assert (~ is_Some (fst (sigma T_database))) as Hnot by (by rewrite <- Hlock).
  destruct (stage (snd (sigma T_database)));
    try (by destruct Hpair as [? _]); eapply pair_from_range; by intuition eauto.
Qed.

(** ** No undefined behaviour *)

Lemma safe_mono {A : Type} (Q Q' : A -> Prop) (p : prog A) :
  (forall a, Q a -> Q' a) -> safe Q p -> safe Q' p.
Proof.
  intros HQ. induction p as [a | X e k IH]; simpl; [auto |].
  intros [He Hk]. split; [done |]. intros x Hx. apply IH. by apply Hk.
Qed.

Lemma safe_bind {A B : Type} (Q : B -> Prop) (p : prog A) (f : A -> prog B) :
  safe (fun a => safe Q (f a)) p -> safe Q (p ≫= f).
Proof.
  unfold mbind, prog_bind. induction p as [a | X e k IH]; simpl; [auto |].
  intros [He Hk]. split; [done |]. intros x Hx. apply IH. by apply Hk.
Qed.

Lemma to_i16_range (z : Z) : in_i16 (to_i16 z).
Proof. unfold in_i16, to_i16. pose proof (Z.mod_pos_bound (z + 32768) 65536). lia. Qed.

Lemma exec_op_defined t inp {X : Type} (e : op X) w :
  world_ok w -> op_ok e -> exec_op t inp e w <> Fault.
Proof.
  intros ([Hled Hbtn] & _ & _) He.
  destruct e; simpl in *; try done; repeat case_match; try done.
  - destruct (load_elem_Some _ i Hled He) as (v & _ & ->). done.
  - by rewrite (store_elem_Some _ _ _ Hled He).
  - destruct (load_elem_Some _ i Hbtn He) as (v & _ & ->). done.
  - by rewrite (store_elem_Some _ _ _ Hbtn He).
Qed.

Lemma exec_op_ok t inp {X : Type} (e : op X) x w w' :
  world_ok w -> op_ok e -> exec_op t inp e w = Done (x, w') ->
  call_in_bounds (Call e x) ->
  world_ok w' /\ answer_ok e x.
Proof.
  intros (Hwf & Hq1 & Hq2) He Hex Hb.
  assert (wf_data (rtdb_data w')) as Hwf' by (by apply (exec_op_wf _ _ _ _ _ _ Hex)).
  destruct e; simpl in *; repeat case_match; simplify_eq/=; try done.
  all: try (unfold of_option in *; repeat case_match; simplify_option_eq; done).
  - split; [| done]. split; [done |]. split; [| done].
    apply Forall_app. split; [done |]. by constructor.
  - by inversion_clear Hq1.
  - split; [| done]. split; [done |]. split; [done |].
    apply Forall_app. split; [done |]. by constructor.
  - by inversion_clear Hq2.
Qed.

Lemma handle_byte_safe (cmd : Z) : safe (fun _ => True) (Uart.handle_byte cmd).
Proof.
  unfold Uart.handle_byte, Uart.command. char_codes.
  destruct (Z.leb_spec 49 cmd), (Z.leb_spec cmd 52); cbn;
    [repeat split; lia | ..].
  all: destruct (Z.leb_spec 53 cmd), (Z.leb_spec cmd 56); cbn;
    try (repeat split; lia).
  all: destruct (Z.eqb_spec cmd 57); cbn; try (by repeat split).
  all: destruct (Z.eqb_spec cmd 48); cbn; by repeat split.
Qed.

Lemma rx_loop_safe (buf : list Z) (offset n i : nat) :
  (offset + i + n <= length buf)%nat ->
  safe (fun _ => True) (Uart.rx_loop buf offset i n).
Proof.
  revert i; induction n as [| n IH]; intros i Hn; [done |].
  destruct (lookup_lt_is_Some_2 buf (offset + i)) as [cmd Hcmd]; [lia |].
  cbn [Uart.rx_loop]. rewrite Hcmd. cbn [cast].
  change (Ret cmd ≫= ?f) with (f cmd). cbv beta.
  apply safe_bind. eapply safe_mono; [| apply handle_byte_safe].
  intros _ _. apply IH. lia.
Qed.

Lemma uart_safe : safe (fun _ => True) Uart.isr.
Proof.
  split; [done |]. intros evt Hevt. cbn.
  destruct evt; try done.
  apply rx_loop_safe. simpl in Hevt. lia.
Qed.

Lemma sync_one_safe (i : Z) (l : list Z) :
  0 <= i < 4 -> array4 l -> safe array4 (Led.sync_one i l).
Proof.
  intros Hi Hl. unfold Led.sync_one. split; [done |]. intros v _. cbn.
  destruct (lookup_lt_is_Some_2 l (Z.to_nat i)) as [cur ->]; [unfold array4 in Hl; lia |].
  destruct (lookup_lt_is_Some_2 leds (Z.to_nat i)) as [pin Hpin]; [simpl; lia |].
  cbn. case_bool_decide; cbn; [| done]. rewrite Hpin. cbn.
  repeat (split; [done |]; intros ? _).
  unfold array4. by rewrite length_insert.
Qed.

Lemma for_range_safe (n : nat) (i : Z) (l : list Z) :
  0 <= i -> i + Z.of_nat n <= 4 -> array4 l ->
  safe array4 (for_range n i Led.sync_one l).
Proof.
  revert i l; induction n as [| n IH]; intros i l Hi Hn Hl; [done |].
  cbn [for_range]. apply safe_bind.
  eapply safe_mono; [| apply sync_one_safe; [lia | done]].
  intros l' Hl'. apply IH; [lia | lia | done].
Qed.

Lemma led_safe (l : list Z) : array4 l -> safe array4 (Led.led_thread l).
Proof.
  intros Hl. unfold Led.led_thread. cbn -[for_range].
  split; [done |]. intros ? _.
  apply safe_bind. eapply safe_mono; [| by apply (for_range_safe 4 0)].
  intros l' Hl'. cbn. by repeat split.
Qed.

Lemma button_safe : safe (fun _ => True) Button.button_thread.
Proof.
  unfold Button.button_thread, Button.check_button.
  repeat (cbn; intros; try case_bool_decide; try split; try lia; try done).
Qed.

Lemma sensor_safe : safe (fun _ => True) Pipeline.sensor_reading_thread.
Proof.
  unfold Pipeline.sensor_reading_thread, Pipeline.read_adc.
  split; [done |]. intros ret _. cbn. destruct (ret =? 0); cbn; [| done].
  split; [done |]. intros sample _. cbn. split; [apply to_i16_range | done].
Qed.

Lemma process_safe : safe (fun _ => True) Pipeline.data_processing_thread.
Proof.
  unfold Pipeline.data_processing_thread. split; [done |]. intros raw Hraw.
  cbn -[Pipeline.scaled Pipeline.voltage_of F32.of_int].
  destruct (reading_of_total raw Hraw) as (t & -> & _ & Ht & _).
  cbn -[F32.of_int F32.to_int]. split; [| done]. split; [done |].
  cbn -[F32.of_int F32.to_int]. rewrite Ht. by eexists.
Qed.

Lemma database_safe : safe (fun _ => True) Pipeline.database_thread.
Proof.
  unfold Pipeline.database_thread. split; [done |]. intros d [_ [v Hv]].
  cbn -[F32.to_int]. rewrite Hv. cbn. by repeat split.
Qed.

Lemma step_thread_safe {L : Type} (Q : L -> Prop) t inp (loop : L -> prog L)
    p w p' w' tr' :
  safe Q p -> (forall l, Q l -> safe Q (loop l)) -> world_ok w ->
  step_thread t inp loop p w = Done (p', w', tr') ->
  events_in_bounds tr' ->
  world_ok w' /\ safe Q p'.
Proof.
  intros Hp Hloop Hw Hstep Hb. destruct p as [l | X e k]; simpl in *.
  - simplify_eq. auto.
  - destruct Hp as [He Hk].
    destruct (exec_op t inp e w) as [[x w1] | |] eqn:Hex; simplify_eq.
    unfold events_in_bounds in Hb. rewrite Forall_singleton in Hb.
    destruct (exec_op_ok _ _ _ _ _ _ Hw He Hex Hb) as [Hw' Hx]. auto.
Qed.


(** In every execution whose serial events lie inside their buffers, the
    shared state is well formed and what is left of every thread's turn
    makes only calls with defined behaviour. *)
Lemma execution_safe (s : system) (tr : trace) :
  execution s tr -> events_in_bounds tr ->
  world_ok (shared s) /\ conts_safe (conts s).
Proof.
  induction 1 as [| s tr t inp s' tr' Hex IH Hstep]; intros Hb.
  - split; [by repeat split |]. by repeat split.
  - unfold events_in_bounds in Hb. rewrite Forall_app in Hb.
    destruct Hb as [Hb Hb']. destruct (IH Hb) as [Hw Hc]. clear IH.
    destruct Hc as (Hc1 & Hc2 & Hc3 & Hc4 & Hc5 & Hc6).
    destruct s as [w c]. unfold step in Hstep. cbn [shared conts] in *.
    destruct t; [done | | | | | |].
    all: match type of Hstep with
         | commit _ (step_thread ?t _ ?loop ?p _) = _ =>
             destruct (step_thread t inp loop p w) as [[[p' w'] tr1] | |] eqn:Hst;
             simpl in Hstep; simplify_eq
         end.
    all: match goal with
         | Hc : safe ?Q ?p, Hs : step_thread ?t _ _ ?p _ = _ |- _ =>
             destruct (fun Hl => step_thread_safe Q _ _ _ _ _ _ _ _ Hc Hl Hw Hs Hb')
               as [Hw' Hp']
         end.
    all: try (split; [done |]; by repeat split).
    + intros. apply uart_safe.
    + intros. by apply led_safe.
    + intros. apply button_safe.
    + intros. apply sensor_safe.
    + intros. apply process_safe.
    + intros. apply database_safe.
Qed.


(** ** Executions from schedules *)

Lemma run_execution sched s tr s' tr' :
  execution s tr -> run sched s = Done (s', tr') -> execution s' (tr ++ tr').
Proof.
  revert s tr tr'; induction sched as [| [t inp] sched IH]; intros s tr tr' Hex Hrun.
  - simpl in Hrun. simplify_eq. by rewrite app_nil_r.
  - simpl in Hrun.
    destruct (step t inp s) as [[s1 tr1] | |] eqn:Hstep; try done.
    destruct (run sched s1) as [[s2 tr2] | |] eqn:Hrun1; try done. simplify_eq.
    rewrite app_assoc. eapply IH; [| done]. by eapply exec_step.
Qed.

Lemma run_boot_execution sched :
  run sched boot = Done (run_boot sched) ->
  execution (fst (run_boot sched)) (snd (run_boot sched)).
Proof.
  intros H. destruct (run_boot sched) as [s tr]. simpl.
  apply (run_execution sched boot [] s tr exec_boot H).
Qed.

(** ** Projections of the guarded automaton *)

Lemma accepts_guarded t st cs st' :
  accepts (guarded_step t) st cs = Some st' ->
  accepts (hold_step (thread_policy t)) (fst st) cs = Some (fst st')
  /\ accepts (store_step t) (snd st) cs = Some (snd st').
Proof.
  revert st; induction cs as [| c cs IH]; intros st H; simpl in *.
  - by simplify_eq.
  - unfold guarded_step in H at 1.
    destruct (hold_step _ _ _) as [h |]; [| done].
    destruct (store_step _ _ _) as [d |]; [| done].
    apply IH in H. done.
Qed.

Lemma accepts_db_seen st cs st' :
  accepts db_step st cs = Some st' -> seen st' = seen st ++ omap get_data cs.
Proof.
  revert st; induction cs as [| c cs IH]; intros st H; simpl in *.
  - simplify_eq. by rewrite app_nil_r.
  - destruct (db_step st c) as [st1 |] eqn:Hc; [| done].
    apply IH in H. rewrite H. clear H IH.
    destruct c as [X e x]. destruct e; simpl in Hc; try done;
      destruct (stage st); simplify_eq/=; repeat case_match; simplify_eq/=;
      try done.
    by rewrite <- app_assoc.
Qed.

Lemma accepts_reader st cs st' :
  accepts reader_step st cs = Some st' ->
  Forall (fun c => is_sensor_store c = false) cs.
Proof.
  revert st; induction cs as [| c cs IH]; intros st H; simpl in *; [done |].
  unfold reader_step in H at 1.
  destruct (is_sensor_store c) eqn:Hc; [done |]. constructor; [done |]. by eapply IH.
Qed.

Lemma elem_of_calls_of t c tr : (t, c) ∈ tr -> c ∈ calls_of t tr.
Proof.
  intros H. unfold calls_of. apply list_elem_of_omap. exists (t, c).
  split; [done |]. simpl. by rewrite decide_True.
Qed.

(** In every execution each thread's calls follow its policy, and the
    mutex is held by exactly the thread whose calls say so. *)
Lemma hold_accepted (s : system) (tr : trace) :
  execution s tr ->
  forall t, exists h,
    accepts (hold_step (thread_policy t)) None (calls_of t tr) = Some h
    /\ (rtdb_lock (shared s) = Some t <-> is_Some h).
Proof.
  intros Hex t. destruct (guarded_execution s tr Hex) as (sigma & Hacc & _ & Hlock & _).
  exists (fst (sigma t)). split; [| apply Hlock].
  by destruct (accepts_guarded _ _ _ _ (Hacc t)) as [? _].
Qed.

(** The next call of a thread is one its policy allows in its current
    state. *)
Lemma step_call_allowed (s : system) (tr : trace) t inp s' c :
  execution s tr ->
  step t inp s = Done (s', [(t, c)]) ->
  exists h h',
    accepts (hold_step (thread_policy t)) None (calls_of t tr) = Some h
    /\ hold_step (thread_policy t) h c = Some h'
    /\ (rtdb_lock (shared s) = Some t <-> is_Some h).
Proof.
  intros Hex Hstep.
  destruct (hold_accepted s tr Hex t) as (h & Hacc & Hlock).
  pose proof (exec_step _ _ _ _ _ _ Hex Hstep) as Hex'.
  destruct (hold_accepted _ _ Hex' t) as (h' & Hacc' & _).
  rewrite calls_of_app, accepts_app, Hacc in Hacc'. unfold calls_of in Hacc'.
  simpl in Hacc'. rewrite decide_True in Hacc' by done. simpl in Hacc'.
  destruct (hold_step _ h c) as [h1 |] eqn:Hh; [| done].
  by exists h, h1.
Qed.

(** C2, amended: in every execution each thread keeps to its policy.
    [rtdb.data] is read and written only with the mutex held; a thread that
    holds the mutex never sleeps or waits on a queue and releases it after
    at most 2 (dispatcher, persistence loop), 16 (LED loop) or 12 (button
    loop) calls.  The dispatcher and the pipeline threads do their hardware
    I/O with the mutex released, whereas the LED loop and the button loop
    make every GPIO call with the mutex held. *)
Theorem lock_discipline (s : system) (tr : trace) :
  execution s tr ->
  (forall t, exists h,
      accepts (hold_step (thread_policy t)) None (calls_of t tr) = Some h
      /\ (rtdb_lock (shared s) = Some t <-> is_Some h))
  /\ (forall t inp s' c,
        step t inp s = Done (s', [(t, c)]) ->
        (call_kind c = KAccess -> rtdb_lock (shared s) = Some t)
        /\ (call_kind c = KIo ->
            (rtdb_lock (shared s) = Some t <-> io_locked (thread_policy t) = true))
        /\ (call_kind c = KWait -> rtdb_lock (shared s) <> Some t)).
Proof.
  intros Hex. split; [by apply hold_accepted |].
  intros t inp s' c Hstep.
  destruct (step_call_allowed s tr t inp s' c Hex Hstep) as (h & h' & _ & Hh & Hl).
  rewrite Hl. unfold hold_step in Hh.
  split; [| split]; intros Hk; rewrite Hk in Hh.
  - destruct h as [[| n] |]; by eauto.
  - split.
    + intros Hs. destruct h as [[| n] |]; try done;
        first [by destruct (io_locked _) | by destruct Hs].
    + intros Hio. rewrite Hio in Hh. destruct h as [[| n] |]; by eauto.
  - intros [n ->]. done.
Qed.

(** C5: in every execution the persistence loop repeats one pattern (take
    a reading, lock, store its [raw_value] in [an_raw], store its converted
    [temperature] in [an_val], unlock); no other thread writes either
    field; whenever the persistence loop does not hold the mutex, [an_raw]
    and [an_val] are the zeros of boot or the two fields of one single
    reading it has taken; and every access of [rtdb.data] is made by the
    holder of the mutex, so that is all a read can observe. *)
Theorem persistence_atomic (s : system) (tr : trace) :
  execution s tr ->
  (exists st,
      accepts db_step (mkDbState [] DbIdle) (calls_of T_database tr) = Some st
      /\ seen st = dequeued tr)
  /\ (forall t c, (t, c) ∈ tr -> is_sensor_store c = true -> t = T_database)
  /\ (rtdb_lock (shared s) <> Some T_database ->
      pair_from (dequeued tr) (rtdb_data (shared s)))
  /\ (forall t inp s' c,
        step t inp s = Done (s', [(t, c)]) -> call_kind c = KAccess ->
        rtdb_lock (shared s) = Some t).
Proof.
  intros Hex. destruct (guarded_execution s tr Hex) as (sigma & Hacc & _ & Hlock & Hpair).
  destruct (accepts_guarded _ _ _ _ (Hacc T_database)) as [_ Hdb].
  cbn [store_step guarded_boot snd] in Hdb.
  pose proof (accepts_db_seen _ _ _ Hdb) as Hseen. cbn [seen app] in Hseen.
  change (omap get_data (calls_of T_database tr)) with (dequeued tr) in Hseen.
  split; [by eauto |]. split; [| split].
  - intros t c Hin Hstore. destruct (decide (t = T_database)) as [| Hne]; [done |].
    destruct (accepts_guarded _ _ _ _ (Hacc t)) as [_ Hrd].
    assert (store_step t = reader_step) as Hrs by (by destruct t).
    rewrite Hrs in Hrd. apply accepts_reader in Hrd.
    rewrite Forall_forall in Hrd. apply elem_of_calls_of, list_elem_of_In in Hin.
    apply Hrd in Hin. congruence.
  - intros Hfree. rewrite <- Hseen. cbv zeta in Hpair.
    assert (~ is_Some (fst (sigma T_database))) as Hnot by (by rewrite <- Hlock).
    destruct (stage (snd (sigma T_database))); by intuition.
  - intros t inp s' c Hstep Hk.
    destruct (step_call_allowed s tr t inp s' c Hex Hstep) as (h & h' & _ & Hh & Hl).
    apply hold_step_kind in Hh. rewrite Hk in Hh. apply Hl. by destruct Hh.
Qed.

Lemma conforms_any {S A : Type} (Q : S -> Prop) (st : S) (p : prog A) :
  Q st -> conforms (fun st _ => Some st) Q st p.
Proof. intros HQ. induction p as [a | X e k IH]; simpl; auto. Qed.

Lemma pipeline_loops_conform :
  loops_conform pipeline_step (fun _ st => st = None).
Proof.
  repeat split; intros; subst; try (by apply conforms_any).
  unfold Pipeline.data_processing_thread. intros raw.
  cbn -[Pipeline.scaled Pipeline.voltage_of F32.of_int].
  destruct (Pipeline.scaled (Pipeline.voltage_of raw)) as [v |] eqn:Hv;
    cbn -[Pipeline.scaled Pipeline.voltage_of F32.of_int]; [| intros xe; destruct xe].
  intros ?. unfold reading_of. rewrite Hv. cbn -[F32.of_int].
  rewrite decide_True by done. done.
Qed.

(** In every execution the transformation loop alternates between taking
    a raw sample and putting the reading computed from that sample. *)
Lemma process_pattern (s : system) (tr : trace) :
  execution s tr ->
  is_Some (accepts process_step None (calls_of T_process tr)).
Proof.
  intros Hex.
  destruct (conformance pipeline_step (fun _ st => st = None) (fun _ _ => True)
              pipeline_loops_conform (fun _ _ _ _ _ _ _ _ _ _ _ _ => I)
              (fun _ => None)) with (s := s) (tr := tr) as (sigma & Hacc & _).
  - by repeat split.
  - done.
  - done.
  - specialize (Hacc T_process). by eexists.
Qed.

Lemma process_turn_inv (pre post : list call) (raw : Z) (d : SensorData) st :
  is_Some (accepts process_step st
             (pre ++ [Call MsgqGetRaw raw; Call (MsgqPutData d) tt] ++ post)) ->
  reading_of raw = Some d.
Proof.
  intros [st' H]. rewrite accepts_app in H.
  destruct (accepts process_step st pre) as [st1 |]; [| done]. simpl in H.
  destruct st1; [done |]. simpl in H.
  destruct (decide (reading_of raw = Some d)); done.
Qed.

(** C7: in any two executions, whatever the schedules and the states, a
    turn of the transformation loop that takes the same raw sample puts
    the same reading: the reading is [reading_of raw], a function of the
    raw sample alone, and it is defined for every [int16_t] sample. *)
Theorem transform_deterministic (s1 s2 : system) (tr1 tr2 : trace)
    (pre1 post1 pre2 post2 : list call) (raw : Z) (d1 d2 : SensorData) :
  execution s1 tr1 -> execution s2 tr2 ->
  calls_of T_process tr1
    = pre1 ++ [Call MsgqGetRaw raw; Call (MsgqPutData d1) tt] ++ post1 ->
  calls_of T_process tr2
    = pre2 ++ [Call MsgqGetRaw raw; Call (MsgqPutData d2) tt] ++ post2 ->
  d1 = d2 /\ reading_of raw = Some d1
  /\ temperature d1
     = F32.of_int (default 0 (Pipeline.scaled (Pipeline.voltage_of raw)))
  /\ (forall raw', in_i16 raw' -> is_Some (reading_of raw')).
Proof.
  intros Hex1 Hex2 H1 H2.
  pose proof (process_pattern _ _ Hex1) as Hp1. rewrite H1 in Hp1.
  pose proof (process_pattern _ _ Hex2) as Hp2. rewrite H2 in Hp2.
  apply process_turn_inv in Hp1, Hp2.
  split; [congruence |]. split; [done |]. split.
  - unfold reading_of in Hp1.
    destruct (Pipeline.scaled (Pipeline.voltage_of raw)); by simplify_eq/=.
  - intros raw' Hraw'. destruct (reading_of_total raw' Hraw') as (t & _ & _ & _ & ->).
    by eexists.
Qed.

(** C2, as stated, fails: in the execution of [demo_schedule] the LED loop
    calls [gpio_pin_set_dt] between its [k_mutex_lock] and its
    [k_mutex_unlock], which a policy of I/O outside the lock rejects. *)
Lemma led_io_counterexample :
  run demo_schedule boot = Done (run_boot demo_schedule)
  /\ calls_of T_led (snd (run_boot demo_schedule))
     = [Call KMutexLock tt; Call (LoadLed 0) 1; Call (LoadLed 0) 1;
        Call (GpioPinSet led0 1) tt; Call (LoadLed 0) 1; Call (LoadLed 1) 0;
        Call (LoadLed 2) 0; Call (LoadLed 3) 0; Call KMutexUnlock tt;
        Call (KMsleep 100) tt]
  /\ accepts (hold_step (mkPolicy false 16)) None
             (calls_of T_led (snd (run_boot demo_schedule))) = None.
Proof. split; [| split]; vm_compute; reflexivity. Qed.

Lemma lock_discipline_witness :
  (forall t, exists h,
      accepts (hold_step (thread_policy t)) None
              (calls_of t (snd (run_boot demo_schedule))) = Some h
      /\ (rtdb_lock (shared (fst (run_boot demo_schedule))) = Some t <-> is_Some h))
  /\ (forall t inp s' c,
        step t inp (fst (run_boot demo_schedule)) = Done (s', [(t, c)]) ->
        (call_kind c = KAccess ->
         rtdb_lock (shared (fst (run_boot demo_schedule))) = Some t)
        /\ (call_kind c = KIo ->
            (rtdb_lock (shared (fst (run_boot demo_schedule))) = Some t
             <-> io_locked (thread_policy t) = true))
        /\ (call_kind c = KWait ->
            rtdb_lock (shared (fst (run_boot demo_schedule))) <> Some t)).
Proof.
  apply (lock_discipline (fst (run_boot demo_schedule)) (snd (run_boot demo_schedule))).
  apply run_boot_execution. vm_compute. reflexivity.
Defined.

Lemma persistence_atomic_witness :
  (exists st,
      accepts db_step (mkDbState [] DbIdle)
              (calls_of T_database (snd (run_boot demo_schedule))) = Some st
      /\ seen st = dequeued (snd (run_boot demo_schedule)))
  /\ (forall t c, (t, c) ∈ snd (run_boot demo_schedule) ->
                  is_sensor_store c = true -> t = T_database)
  /\ (rtdb_lock (shared (fst (run_boot demo_schedule))) <> Some T_database ->
      pair_from (dequeued (snd (run_boot demo_schedule)))
                (rtdb_data (shared (fst (run_boot demo_schedule)))))
  /\ (forall t inp s' c,
        step t inp (fst (run_boot demo_schedule)) = Done (s', [(t, c)]) ->
        call_kind c = KAccess ->
        rtdb_lock (shared (fst (run_boot demo_schedule))) = Some t).
Proof.
  apply (persistence_atomic (fst (run_boot demo_schedule))
                            (snd (run_boot demo_schedule))).
  apply run_boot_execution. vm_compute. reflexivity.
Defined.

Lemma transform_deterministic_witness :
  mkSensorData 512 (F32.of_int 30087) = mkSensorData 512 (F32.of_int 30087)
  /\ reading_of 512 = Some (mkSensorData 512 (F32.of_int 30087))
  /\ temperature (mkSensorData 512 (F32.of_int 30087))
     = F32.of_int (default 0 (Pipeline.scaled (Pipeline.voltage_of 512)))
  /\ (forall raw', in_i16 raw' -> is_Some (reading_of raw')).
Proof.
  apply (transform_deterministic
           (fst (run_boot demo_schedule)) (fst (run_boot pipeline_schedule))
           (snd (run_boot demo_schedule)) (snd (run_boot pipeline_schedule))
           [] [] [] []).
  - apply run_boot_execution. vm_compute. reflexivity.
  - apply run_boot_execution. vm_compute. reflexivity.
  - vm_compute. reflexivity.
  - vm_compute. reflexivity.
Defined.

(** * Further properties *)

(** ** The LED loop on its own *)

Lemma gpio_writes_app tr1 tr2 :
  gpio_writes (tr1 ++ tr2) = gpio_writes tr1 ++ gpio_writes tr2.
Proof. apply omap_app. Qed.

(** One pass of the [for] body: the copy of entry [i] becomes the flag, and
    the line is written when they differed. *)
Lemma sync_one_run (i : nat) (cur : list Z) (ins : list input) (w : world) v c pin :
  (i < 4)%nat ->
  led_state (rtdb_data w) !! i = Some v -> cur !! i = Some c -> leds !! i = Some pin ->
  exists tr,
    run_prog T_led (Led.sync_one (Z.of_nat i) cur) ins w = Done (<[i := v]> cur, w, tr)
    /\ gpio_writes tr = (if bool_decide (v ≠ c) then [(pin, v)] else []).
Proof.
  intros Hi Hv Hc Hpin. unfold Led.sync_one.
  cbn [bind mbind prog_bind mret prog_ret trigger run_prog exec_op].
  unfold load_elem. rewrite Nat2Z.id.
  destruct (Z.leb_spec 0 (Z.of_nat i)); [| lia].
  destruct (Z.ltb_spec (Z.of_nat i) 4); [| lia].
  cbn [andb]. rewrite Hv, Hc. cbn.
  case_bool_decide as Hne; cbn.
  - rewrite Hpin. cbn. unfold load_elem. rewrite Nat2Z.id.
    destruct (Z.leb_spec 0 (Z.of_nat i)); [| lia].
    destruct (Z.ltb_spec (Z.of_nat i) 4); [| lia].
    cbn [andb]. rewrite Hv. cbn. rewrite Hv. cbn. eexists. split; [reflexivity |]. done.
  - subst c. rewrite list_insert_id by done.
    eexists. split; [reflexivity |]. done.
Qed.

Lemma led_updates_same (l : list Z) : led_updates l l = [].
Proof.
  unfold led_updates.
  do 4 (destruct l as [| ? l]; [done |]; cbn; rewrite bool_decide_false by auto).
  cbn. by destruct l.
Qed.

(** X9: a turn of the LED loop started with the mutex free runs to its
    end, writes exactly the LED lines whose flag in [rtdb.data] differs
    from the loop's copy, in index order and with the flag as level,
    returns the flags as the new copy and leaves the shared state as it
    was; with a copy equal to the flags it writes no line. *)
Theorem led_turn (cur : list Z) (ins : list input) (w : world) :
  rtdb_lock w = None -> wf_data (rtdb_data w) -> length cur = 4%nat ->
  exists tr,
    run_prog T_led (Led.led_thread cur) ins w = Done (led_state (rtdb_data w), w, tr)
    /\ gpio_writes tr = led_updates (led_state (rtdb_data w)) cur
    /\ (cur = led_state (rtdb_data w) -> gpio_writes tr = []).
Proof.
  intros Hl [Hled _] Hcur.
  destruct (led_state (rtdb_data w)) as [| a0 [| a1 [| a2 [| a3 [| ? ?]]]]] eqn:Hls;
    try done.
  destruct cur as [| c0 [| c1 [| c2 [| c3 [| ? ?]]]]]; try done.
  assert (exists tr,
            run_prog T_led (Led.led_thread [c0; c1; c2; c3]) ins w
            = Done ([a0; a1; a2; a3], w, tr)
            /\ gpio_writes tr = led_updates [a0; a1; a2; a3] [c0; c1; c2; c3])
    as (tr & Hrun & Hwr).
  { unfold Led.led_thread.
    cbn [bind mbind prog_bind mret prog_ret trigger run_prog exec_op k_mutex_lock].
    rewrite Hl.
    change (bind ?p ?f) with (p ≫= f).
    rewrite run_prog_bind.
    set (w1 := set_lock (Some T_led) w).
    assert (led_state (rtdb_data w1) = [a0; a1; a2; a3]) as Hls1 by done.
    cbn [for_range].
    rewrite run_prog_bind.
    destruct (sync_one_run 0 [c0; c1; c2; c3] (tl ins) w1 a0 c0 led0) as (tr0 & Hr0 & Hw0);
      [lia | by rewrite Hls1 | done | done |].
    change (Z.of_nat 0) with 0 in Hr0. rewrite Hr0. clear Hr0.
    rewrite run_prog_bind.
    destruct (sync_one_run 1 (<[0%nat := a0]> [c0; c1; c2; c3])
                (drop (length tr0) (tl ins)) w1 a1 c1 led1) as (tr1 & Hr1 & Hw1);
      [lia | by rewrite Hls1 | done | done |].
    change (Z.of_nat 1) with (0 + 1) in Hr1. rewrite Hr1. clear Hr1.
    rewrite run_prog_bind.
    destruct (sync_one_run 2 (<[1%nat := a1]> (<[0%nat := a0]> [c0; c1; c2; c3]))
                (drop (length tr1) (drop (length tr0) (tl ins))) w1 a2 c2 led2)
      as (tr2 & Hr2 & Hw2); [lia | by rewrite Hls1 | done | done |].
    change (Z.of_nat 2) with (0 + 1 + 1) in Hr2. rewrite Hr2. clear Hr2.
    rewrite run_prog_bind.
    destruct (sync_one_run 3
                (<[2%nat := a2]> (<[1%nat := a1]> (<[0%nat := a0]> [c0; c1; c2; c3])))
                (drop (length tr2) (drop (length tr1) (drop (length tr0) (tl ins))))
                w1 a3 c3 led3) as (tr3 & Hr3 & Hw3);
      [lia | by rewrite Hls1 | done | done |].
    change (Z.of_nat 3) with (0 + 1 + 1 + 1) in Hr3. rewrite Hr3. clear Hr3.
    cbn. rewrite bool_decide_true by done.
    subst w1. rewrite unlock_lock by done.
    eexists. split; [reflexivity |].
    change ((T_led, Call KMutexLock tt) :: ?l) with ([(T_led, Call KMutexLock tt)] ++ l).
    rewrite !gpio_writes_app, Hw0, Hw1, Hw2, Hw3. cbn.
    repeat case_bool_decide; done. }
  exists tr. split; [done |]. split; [done |].
  intros Heq. rewrite Hwr, Heq. apply led_updates_same.
Qed.

Lemma led_turn_witness :
  exists tr,
    run_prog T_led (Led.led_thread Led.current_led_states_init) []
             (mkWorld (mkIoModuleData [1; 0; 0; 1] [0; 0; 0; 0] 0 0) None [] [] 0 true)
    = Done ([1; 0; 0; 1],
            mkWorld (mkIoModuleData [1; 0; 0; 1] [0; 0; 0; 0] 0 0) None [] [] 0 true, tr)
    /\ gpio_writes tr = [(led0, 1); (led3, 1)]
    /\ (Led.current_led_states_init = [1; 0; 0; 1] -> gpio_writes tr = []).
Proof.
  apply (led_turn Led.current_led_states_init []
           (mkWorld (mkIoModuleData [1; 0; 0; 1] [0; 0; 0; 0] 0 0) None [] [] 0 true)).
  - reflexivity.
  - split; reflexivity.
  - reflexivity.
Defined.

(** ** The button loop on its own *)

Lemma gpio_reads_app tr1 tr2 : gpio_reads (tr1 ++ tr2) = gpio_reads tr1 ++ gpio_reads tr2.
Proof. apply omap_app. Qed.

Lemma set_button_state_id w :
  set_data (set_button_state (button_state (rtdb_data w)) (rtdb_data w)) w = w.
Proof. by destruct w as [[] ? ? ? ? ?]. Qed.

Lemma to_bool_bit (r : Z) : is_bit (to_bool r).
Proof. unfold to_bool. destruct (r =? 0); [by left | by right]. Qed.

(** One "check button" block: the flag becomes the level read, as a
    [bool]. *)
Lemma check_button_run (pin : gpio_pin) (i : nat) (ins : list input) (w : world) :
  (i < 4)%nat -> length (button_state (rtdb_data w)) = 4%nat ->
  exists r tr,
    run_prog T_button (Button.check_button pin (Z.of_nat i)) ins w
    = Done (tt, set_data (set_button_state (<[i := to_bool r]> (button_state (rtdb_data w)))
                            (rtdb_data w)) w, tr)
    /\ gpio_reads tr = [(pin, r)].
Proof.
  intros Hi Hlen. unfold Button.check_button.
  cbn [bind mbind prog_bind mret prog_ret trigger run_prog exec_op gpio_pin_get_dt].
  destruct (load_elem_Some (button_state (rtdb_data w)) (Z.of_nat i) Hlen) as (v & Hv & ->);
    [lia |].
  rewrite Nat2Z.id in Hv. cbn.
  exists (in_int (hd no_input ins)).
  case_bool_decide as Hne; cbn.
  - rewrite store_elem_Some by (done || lia). cbn. rewrite Nat2Z.id.
    eexists. split; [reflexivity | done].
  - rewrite Hne, list_insert_id, set_button_state_id by done.
    eexists. split; [reflexivity | done].
Qed.

(** X10: a turn of the button loop started with the mutex free runs to its
    end, reads the four button lines in order, and leaves in
    [button_state] the four levels read, each converted to [bool] (0 or 1);
    nothing else of the shared state changes and the mutex is free
    again. *)
Theorem button_turn (ins : list input) (w : world) :
  rtdb_lock w = None -> wf_data (rtdb_data w) ->
  exists tr,
    run_prog T_button Button.button_thread ins w
    = Done (tt,
            set_data (set_button_state ((to_bool ∘ snd) <$> gpio_reads tr) (rtdb_data w)) w,
            tr)
    /\ fst <$> gpio_reads tr = buttons
    /\ Forall is_bit ((to_bool ∘ snd) <$> gpio_reads tr).
Proof.
  intros Hl [_ Hbtn].
  unfold Button.button_thread.
  cbn [bind mbind prog_bind mret prog_ret trigger run_prog exec_op k_mutex_lock].
  rewrite Hl.
  change (bind ?p ?f) with (p ≫= f).
  set (w1 := set_lock (Some T_button) w).
  rewrite run_prog_bind.
  destruct (check_button_run button1 0 (tl ins) w1) as (r0 & tr0 & Hr0 & Hg0); [lia | done |].
  change (Z.of_nat 0) with 0 in Hr0. rewrite Hr0. clear Hr0.
  match goal with |- context [run_prog _ _ ?i ?w] => set (ins1 := i); set (w2 := w) end.
  rewrite run_prog_bind.
  destruct (check_button_run button2 1 ins1 w2) as (r1 & tr1 & Hr1 & Hg1);
    [lia | by (cbn; rewrite length_insert) |].
  change (Z.of_nat 1) with 1 in Hr1. rewrite Hr1. clear Hr1.
  match goal with |- context [run_prog _ _ ?i ?w] => set (ins2 := i); set (w3 := w) end.
  rewrite run_prog_bind.
  destruct (check_button_run button3 2 ins2 w3) as (r2 & tr2 & Hr2 & Hg2);
    [lia | by (cbn; rewrite !length_insert) |].
  change (Z.of_nat 2) with 2 in Hr2. rewrite Hr2. clear Hr2.
  match goal with |- context [run_prog _ _ ?i ?w] => set (ins3 := i); set (w4 := w) end.
  rewrite run_prog_bind.
  destruct (check_button_run button4 3 ins3 w4) as (r3 & tr3 & Hr3 & Hg3);
    [lia | by (cbn; rewrite !length_insert) |].
  change (Z.of_nat 3) with 3 in Hr3. rewrite Hr3. clear Hr3.
  cbn. rewrite bool_decide_true by done.
  eexists. split; [| split].
  - f_equal. f_equal. f_equal.
    change ((T_button, Call KMutexLock tt) :: ?l)
      with ([(T_button, Call KMutexLock tt)] ++ l).
    rewrite !gpio_reads_app, Hg0, Hg1, Hg2, Hg3. cbn.
    destruct w as [[ls bs ar av] lk q1 q2 sb rx]. cbn in *. subst lk.
    destruct bs as [| b0 [| b1 [| b2 [| b3 [| ? ?]]]]]; try done.
  - change ((T_button, Call KMutexLock tt) :: ?l)
      with ([(T_button, Call KMutexLock tt)] ++ l).
    rewrite !gpio_reads_app, Hg0, Hg1, Hg2, Hg3. done.
  - apply Forall_fmap, Forall_forall. intros [pin r] _. apply to_bool_bit.
Qed.

Lemma button_turn_witness :
  exists tr,
    run_prog T_button Button.button_thread [no_input; mkInput 5 0 UART_TX_DONE]
             (shared boot)
    = Done (tt,
            set_data (set_button_state ((to_bool ∘ snd) <$> gpio_reads tr)
                        (rtdb_data (shared boot))) (shared boot),
            tr)
    /\ fst <$> gpio_reads tr = buttons
    /\ Forall is_bit ((to_bool ∘ snd) <$> gpio_reads tr).
Proof.
  apply (button_turn [no_input; mkInput 5 0 UART_TX_DONE] (shared boot)).
  - reflexivity.
  - split; reflexivity.
Defined.

(** ** The stages of the pipeline on their own *)

(** X11: a turn of the sensor loop.  When [adc_read] fails nothing is put
    into the queue and the loop only sleeps its second; when it succeeds
    the sample, converted to [int16_t], goes to the back of [msgq_adc_raw];
    with the queue full the loop waits instead of dropping the sample.  A
    sample below 32768 is not changed by the conversion. *)
Theorem sensor_turn (inp : input) (ins : list input) (w : world) :
  (in_int inp <> 0 ->
   run_prog T_sensor Pipeline.sensor_reading_thread (inp :: ins) w
   = Done (tt, w, [(T_sensor, Call AdcRead (in_int inp));
                   (T_sensor, Call (KMsleep 1000) tt)]))
  /\ (in_int inp = 0 -> (length (msgq_adc_raw w) < MSGQ_MAX_MSGS)%nat ->
      run_prog T_sensor Pipeline.sensor_reading_thread (inp :: ins) w
      = Done (tt,
              set_msgq_adc_raw (msgq_adc_raw w ++ [to_i16 (in_sample inp mod 65536)])
                (set_adc_sample_buffer (in_sample inp mod 65536) w),
              [(T_sensor, Call AdcRead 0);
               (T_sensor, Call LoadAdcSample (in_sample inp mod 65536));
               (T_sensor, Call (MsgqPutRaw (to_i16 (in_sample inp mod 65536))) tt);
               (T_sensor, Call (KMsleep 1000) tt)]))
  /\ (in_int inp = 0 -> (MSGQ_MAX_MSGS <= length (msgq_adc_raw w))%nat ->
      run_prog T_sensor Pipeline.sensor_reading_thread (inp :: ins) w = Blocked)
  /\ (0 <= in_sample inp < 32768 -> to_i16 (in_sample inp mod 65536) = in_sample inp).
Proof.
  unfold Pipeline.sensor_reading_thread, Pipeline.read_adc.
  split; [| split; [| split]].
  - intros Hne. cbn. destruct (Z.eqb_spec (in_int inp) 0); [done |]. cbn.
    destruct (Z.eqb_spec (in_int inp) 0); [done |]. done.
  - intros He Hlen. cbn. rewrite He. cbn. rewrite bool_decide_true by done. done.
  - intros He Hlen. cbn. rewrite He. cbn. rewrite bool_decide_false by lia. done.
  - intros Hs. unfold to_i16. rewrite (Z.mod_small (in_sample inp)) by lia.
    rewrite Z.mod_small by lia. lia.
Qed.

(** X12: a turn of the transformation loop on any [int16_t] sample.  The
    conversion is defined, its result is within 1 of
    [60000 * (3 * raw / 1023 - 1)] computed without rounding, and it is not
    changed by being stored in [float temperature] and read back as an
    [int]; with room in [msgq_sensor_data] the sample leaves the front of
    [msgq_adc_raw] and its reading goes to the back of [msgq_sensor_data],
    with the queue full the loop waits. *)
Theorem transform_accuracy (w : world) (raw : Z) (q : list Z) (ins : list input) :
  msgq_adc_raw w = raw :: q ->
  in_i16 raw ->
  exists t,
    Pipeline.scaled (Pipeline.voltage_of raw) = Some t
    /\ Z.abs (t - exact_scaled raw) <= 1
    /\ F32.to_int (F32.of_int t) = Some t
    /\ ((length (msgq_sensor_data w) < MSGQ_MAX_MSGS)%nat ->
        run_prog T_process Pipeline.data_processing_thread ins w
        = Done (tt,
                set_msgq_sensor_data
                  (msgq_sensor_data w ++ [mkSensorData raw (F32.of_int t)])
                  (set_msgq_adc_raw q w),
                [(T_process, Call MsgqGetRaw raw);
                 (T_process, Call (MsgqPutData (mkSensorData raw (F32.of_int t))) tt)]))
    /\ ((MSGQ_MAX_MSGS <= length (msgq_sensor_data w))%nat ->
        run_prog T_process Pipeline.data_processing_thread ins w = Blocked).
Proof.
  intros Hq Hraw. destruct (reading_of_total raw Hraw) as (t & Ht & Hacc & Hrt & Hrd).
  exists t. split; [done |]. split; [done |]. split; [done |]. split.
  - intros Hlen. destruct (transform_turn_runs w raw q ins Hq Hraw Hlen) as (d & Hd & Hrun).
    rewrite Hrd in Hd. by simplify_eq.
  - intros Hlen. unfold Pipeline.data_processing_thread.
    cbn -[Pipeline.scaled Pipeline.voltage_of F32.of_int].
    rewrite Hq. rewrite Ht. cbn -[F32.of_int].
    rewrite bool_decide_false by lia. done.
Qed.

Lemma transform_accuracy_witness :
  exists t,
    Pipeline.scaled (Pipeline.voltage_of 1023) = Some t
    /\ Z.abs (t - exact_scaled 1023) <= 1
    /\ F32.to_int (F32.of_int t) = Some t
    /\ ((length (msgq_sensor_data one_sample)
         < MSGQ_MAX_MSGS)%nat ->
        run_prog T_process Pipeline.data_processing_thread []
                 one_sample
        = Done (tt,
                set_msgq_sensor_data
                  (msgq_sensor_data one_sample
                   ++ [mkSensorData 1023 (F32.of_int t)])
                  (set_msgq_adc_raw [] one_sample),
                [(T_process, Call MsgqGetRaw 1023);
                 (T_process, Call (MsgqPutData (mkSensorData 1023 (F32.of_int t))) tt)]))
    /\ ((MSGQ_MAX_MSGS
         <= length (msgq_sensor_data one_sample))%nat ->
        run_prog T_process Pipeline.data_processing_thread []
                 one_sample = Blocked).
Proof.
  apply (transform_accuracy one_sample 1023 [] []).
  - reflexivity.
  - unfold in_i16. lia.
Defined.

(** X13: a turn of the persistence loop.  It waits on an empty queue and
    on a held mutex; with a reading at the front of [msgq_sensor_data] and
    the mutex free it takes the reading, stores its [raw_value] in
    [an_raw] and its [temperature], converted to [int], in [an_val] inside
    one acquisition of the mutex, and changes nothing else.  A
    [temperature] that no [int] can hold makes the conversion undefined. *)
Theorem database_turn (w : world) (ins : list input) :
  (msgq_sensor_data w = [] ->
   run_prog T_database Pipeline.database_thread ins w = Blocked)
  /\ (forall d q, msgq_sensor_data w = d :: q ->
      match rtdb_lock w, F32.to_int (temperature d) with
      | Some _, _ => run_prog T_database Pipeline.database_thread ins w = Blocked
      | None, None => run_prog T_database Pipeline.database_thread ins w = Fault
      | None, Some v =>
          run_prog T_database Pipeline.database_thread ins w
          = Done (tt,
                  set_data (set_an_val v (set_an_raw (raw_value d) (rtdb_data w)))
                    (set_msgq_sensor_data q w),
                  [(T_database, Call MsgqGetData d);
                   (T_database, Call KMutexLock tt);
                   (T_database, Call (StoreAnRaw (raw_value d)) tt);
                   (T_database, Call (StoreAnVal v) tt);
                   (T_database, Call KMutexUnlock tt)])
      end).
Proof.
  unfold Pipeline.database_thread. split.
  - intros Hq. cbn. by rewrite Hq.
  - intros d q Hq. cbn -[F32.to_int]. rewrite Hq. cbn -[F32.to_int].
    destruct (rtdb_lock w) as [t |] eqn:Hl; [done |].
    destruct (F32.to_int (temperature d)) as [v |] eqn:Hv; cbn; [| done].
    destruct w as [[ls bs ar av] lk q1 q2 sb rx]. cbn in *. by subst.
Qed.

(** ** [main] *)


(** ** The dispatcher's answers *)

Lemma transmitted_app tr1 tr2 :
  transmitted (tr1 ++ tr2) = transmitted tr1 ++ transmitted tr2.
Proof. apply omap_app. Qed.

Lemma store_effect_typed cmd d : typed_data d -> typed_data (store_effect cmd d).
Proof.
  intros (Hled & Hbtn & Hraw & Hval). unfold store_effect.
  destruct (_ && _); [| done]. split; [| done]. cbn.
  apply Forall_alter; [done |]. intros v _ _.
  unfold toggled, to_u8, in_u8. apply Z.mod_pos_bound. lia.
Qed.

Lemma reply_store_effect c d cmd : reply (store_effect c d) cmd = reply d cmd.
Proof. unfold store_effect. by destruct (_ && _). Qed.

Lemma omap_reply_store_effect c d (bs : list Z) :
  omap (reply (store_effect c d)) bs = omap (reply d) bs.
Proof.
  induction bs as [| b bs IH]; [done |]. cbn. by rewrite reply_store_effect, IH.
Qed.

(** One byte: the effect of [handle_byte_run], and the one line it sends,
    whole. *)
Lemma handle_byte_reply (cmd : Z) (ins : list input) (w : world) :
  rtdb_lock w = None -> wf_data (rtdb_data w) -> typed_data (rtdb_data w) ->
  exists w' tr,
    run_prog T_uart (Uart.handle_byte cmd) ins w = Done (tt, w', tr)
    /\ rtdb_lock w' = None
    /\ rtdb_data w' = store_effect cmd (rtdb_data w)
    /\ transmitted tr = option_list (reply (rtdb_data w) cmd)
    /\ Forall (fun s => (String.length s < sizeof_output)%nat) (transmitted tr).
Proof.
  intros Hl [Hled Hbtn] (_ & Hb8 & Hraw & Hval).
  unfold Uart.handle_byte, Uart.command, store_effect, reply. char_codes.
  destruct (Z.leb_spec 49 cmd), (Z.leb_spec cmd 52); simpl.
  - destruct (load_elem_Some (led_state (rtdb_data w)) (cmd - 49))
      as (v & Hv & Hload); [done | lia |].
    rewrite Hl; simpl. rewrite Hload; simpl.
    rewrite (store_elem_Some _ _ _ Hled) by lia. simpl.
    replace (cmd - 49 + 1) with (cmd - 48) by lia.
    assert (String.length ("Toggle LED " ++ fmt_d (cmd - 48) ++ " " ++ crlf) <= 63)%nat
      as Hfit.
    { pose proof (fmt_d_length (cmd - 48) ltac:(unfold INT_MIN, INT_MAX; lia)) as Hf.
      cbn. rewrite ?string_length_append. cbn. lia. }
    rewrite snprintf_fits by done.
    do 2 eexists; split; [reflexivity |]. split; [done |]. simpl.
    split; [| split; [done |]].
    + unfold set_led_state. f_equal. apply (insert_as_alter toggled); done.
    + constructor; [| done]. apply Nat.lt_succ_r. exact Hfit.
  - destruct (Z.leb_spec 53 cmd); simpl; [| lia].
    destruct (Z.leb_spec cmd 56); simpl.
    + destruct (load_elem_Some (button_state (rtdb_data w)) (cmd - 53))
        as (v & Hv & Hload); [done | lia |].
      rewrite Hl; simpl. rewrite Hload; simpl. rewrite Hv. simpl.
      replace (cmd - 53 + 1) with (cmd - 52) by lia.
      assert (in_u8 v) as Hv8.
      { rewrite Forall_lookup in Hb8. by eapply Hb8. }
      assert (String.length ("Button " ++ fmt_d (cmd - 52) ++ " state: " ++ fmt_d v ++ crlf)
              <= 63)%nat as Hfit.
      { pose proof (fmt_d_length (cmd - 52) ltac:(unfold INT_MIN, INT_MAX; lia)) as Hf.
        pose proof (fmt_d_length v ltac:(unfold INT_MIN, INT_MAX, in_u8 in *; lia)) as Hf'.
        cbn. rewrite ?string_length_append. cbn. rewrite ?string_length_append. cbn.
        lia. }
      rewrite snprintf_fits by done.
      do 2 eexists; split; [reflexivity |].
      split; [by destruct w |]. split; [by destruct w |]. split; [done |].
      constructor; [| done]. apply Nat.lt_succ_r. exact Hfit.
    + destruct (Z.eqb_spec cmd 57); simpl.
      * rewrite Hl; simpl.
        assert (String.length ("Raw sensor value: " ++ fmt_d (an_raw (rtdb_data w)) ++ crlf)
                <= 63)%nat as Hfit.
        { pose proof (fmt_d_length (an_raw (rtdb_data w))
                        ltac:(unfold INT_MIN, INT_MAX, in_i16 in *; lia)) as Hf.
          cbn. rewrite ?string_length_append. cbn. lia. }
        rewrite snprintf_fits by done.
        do 2 eexists; split; [reflexivity |].
        split; [by destruct w |]. split; [by destruct w |]. split; [done |].
        constructor; [| done]. apply Nat.lt_succ_r. exact Hfit.
      * destruct (Z.eqb_spec cmd 48); [lia |]. simpl.
        do 2 eexists; split; [reflexivity |]. done.
  - destruct (Z.leb_spec 53 cmd); simpl; [lia |].
    destruct (Z.eqb_spec cmd 57); [lia |].
    destruct (Z.eqb_spec cmd 48); simpl.
    + rewrite Hl; simpl.
      assert (String.length ("Processed sensor value: " ++ fmt_d (an_val (rtdb_data w))
                             ++ "  Celsius" ++ crlf) <= 63)%nat as Hfit.
      { pose proof (fmt_d_length (an_val (rtdb_data w)) Hval) as Hf.
        cbn. rewrite ?string_length_append. cbn. lia. }
      rewrite snprintf_fits by done.
      do 2 eexists; split; [reflexivity |].
      split; [by destruct w |]. split; [by destruct w |]. split; [done |].
      constructor; [| done]. apply Nat.lt_succ_r. exact Hfit.
    + do 2 eexists; split; [reflexivity |]. done.
  - lia.
Qed.

Lemma bytes_loop_replies (bs : list Z) (ins : list input) (w : world) :
  rtdb_lock w = None -> wf_data (rtdb_data w) -> typed_data (rtdb_data w) ->
  exists w' tr,
    run_prog T_uart (bytes_loop bs) ins w = Done (tt, w', tr)
    /\ rtdb_lock w' = None
    /\ rtdb_data w' = store_effects bs (rtdb_data w)
    /\ transmitted tr = omap (reply (rtdb_data w)) bs
    /\ Forall (fun s => (String.length s < sizeof_output)%nat) (transmitted tr).
Proof.
  revert ins w; induction bs as [| cmd bs IH]; intros ins w Hl Hwf Hty.
  - by exists w, [].
  - destruct (handle_byte_reply cmd ins w Hl Hwf Hty)
      as (w1 & tr1 & Hrun1 & Hl1 & Hd1 & Ht1 & Hs1).
    destruct (IH (drop (length tr1) ins) w1) as (w2 & tr2 & Hrun2 & Hl2 & Hd2 & Ht2 & Hs2);
      [done | rewrite Hd1; by apply store_effect_wf
      | rewrite Hd1; by apply store_effect_typed |].
    exists w2, (tr1 ++ tr2). split; [| split; [done |]; split; [| split]].
    + cbn [bytes_loop]. rewrite run_prog_bind, Hrun1, Hrun2. reflexivity.
    + rewrite Hd2, Hd1. reflexivity.
    + rewrite transmitted_app, Ht1, Ht2, Hd1. cbn.
      rewrite omap_reply_store_effect. by destruct (reply (rtdb_data w) cmd).
    + rewrite transmitted_app. apply Forall_app. done.
Qed.

(** X16: the callback run on any event whose bytes lie inside its buffer,
    with the mutex free and [rtdb.data] within its C types.  It runs to its
    end and frees the mutex; it sends one line per recognised byte, in the
    order of the bytes and none for the others, each line the text the
    format gives for the value then in [rtdb.data], never cut by the 64
    bytes of [output]; and [rtdb.data] changes by the toggles of the bytes
    ['1'..'4'] alone. *)
Theorem callback_replies (evt : uart_event) (ins : list input) (w : world) :
  in_bounds evt -> rtdb_lock w = None -> wf_data (rtdb_data w) ->
  typed_data (rtdb_data w) ->
  exists w' tr,
    run_prog T_uart (Uart.uart_callback evt) ins w = Done (tt, w', tr)
    /\ rtdb_lock w' = None
    /\ rtdb_data w' = store_effects (received evt) (rtdb_data w)
    /\ transmitted tr = omap (reply (rtdb_data w)) (received evt)
    /\ Forall (fun s => (String.length s < sizeof_output)%nat) (transmitted tr).
Proof.
  intros Hb Hl Hwf Hty.
  pose proof (uart_callback_rx_rdy evt Hb) as Heq.
  destruct evt; try (by exists w, []).
  - rewrite Heq. by apply bytes_loop_replies.
  - simpl. destruct (rx_enabled w); do 2 eexists; (split; [reflexivity |]); done.
Qed.

Lemma callback_replies_witness :
  exists w' tr,
    run_prog T_uart
             (Uart.uart_callback (UART_RX_RDY [chr "1"; chr "x"; chr "6"; chr "9"] 0 4))
             [] (shared boot)
    = Done (tt, w', tr)
    /\ rtdb_lock w' = None
    /\ rtdb_data w'
       = store_effects (received (UART_RX_RDY [chr "1"; chr "x"; chr "6"; chr "9"] 0 4))
                       (rtdb_data (shared boot))
    /\ transmitted tr
       = omap (reply (rtdb_data (shared boot)))
              (received (UART_RX_RDY [chr "1"; chr "x"; chr "6"; chr "9"] 0 4))
    /\ Forall (fun s => (String.length s < sizeof_output)%nat) (transmitted tr).
Proof.
  apply (callback_replies (UART_RX_RDY [chr "1"; chr "x"; chr "6"; chr "9"] 0 4) []
           (shared boot)).
  - simpl. lia.
  - reflexivity.
  - split; reflexivity.
  - unfold typed_data, in_u8, in_i16, INT_MIN, INT_MAX. simpl.
    repeat split; try lia; repeat constructor; lia.
Defined.

(** X15: on a byte ['5'..'8'] the dispatcher locks the mutex, reads the
    flag of that button, unlocks, and then transmits exactly
    ["Button <n> state: <flag>\r\n"]; the shared state is unchanged. *)
Theorem button_query (cmd : Z) (buf : list Z) (offset : nat) (ins : list input)
    (w : world) (v : Z) :
  chr "5" <= cmd <= chr "8" ->
  buf !! offset = Some cmd ->
  rtdb_lock w = None ->
  button_state (rtdb_data w) !! Z.to_nat (cmd - chr "5") = Some v ->
  in_u8 v ->
  exists r,
    run_prog T_uart (Uart.uart_callback (UART_RX_RDY buf offset 1)) ins w
    = Done (tt, w,
            [(T_uart, Call KMutexLock tt);
             (T_uart, Call (LoadButton (cmd - chr "5")) v);
             (T_uart, Call KMutexUnlock tt);
             (T_uart, Call (UartTx ("Button " ++ fmt_d (cmd - chr "4") ++ " state: "
                                    ++ fmt_d v ++ crlf)%string) r)]).
Proof.
  intros Hcmd Hbuf Hl Hv Hv8. eexists.
  rewrite (rx_loop_single _ _ _ Hbuf).
  unfold Uart.handle_byte, Uart.command. char_codes.
  destruct (Z.leb_spec 49 cmd), (Z.leb_spec cmd 52); try lia.
  destruct (Z.leb_spec 53 cmd), (Z.leb_spec cmd 56); try lia.
  simpl. rewrite Hl. simpl. unfold load_elem.
  destruct (Z.leb_spec 0 (cmd - 53)), (Z.ltb_spec (cmd - 53) 4); try lia.
  simpl. rewrite Hv. simpl. rewrite unlock_lock by done.
  replace (cmd - 53 + 1) with (cmd - 52) by lia.
  rewrite snprintf_fits; [reflexivity |].
  pose proof (fmt_d_length (cmd - 52) ltac:(unfold INT_MIN, INT_MAX; lia)) as Hf.
  pose proof (fmt_d_length v ltac:(unfold INT_MIN, INT_MAX, in_u8 in *; lia)) as Hf'.
  cbn. rewrite ?string_length_append. cbn. rewrite ?string_length_append. cbn.
  lia.
Qed.

Lemma button_query_witness :
  exists r,
    run_prog T_uart (Uart.uart_callback (UART_RX_RDY [chr "x"; chr "7"] 1 1)) []
             (shared boot)
    = Done (tt, shared boot,
            [(T_uart, Call KMutexLock tt);
             (T_uart, Call (LoadButton (chr "7" - chr "5")) 0);
             (T_uart, Call KMutexUnlock tt);
             (T_uart, Call (UartTx ("Button " ++ fmt_d (chr "7" - chr "4") ++ " state: "
                                    ++ fmt_d 0 ++ crlf)%string) r)]).
Proof.
  apply (button_query (chr "7") [chr "x"; chr "7"] 1 [] (shared boot) 0).
  - char_codes. change (chr "7") with 55. lia.
  - reflexivity.
  - reflexivity.
  - reflexivity.
  - unfold in_u8. lia.
Defined.

(** ** Executions of the demonstration schedules *)

Lemma demo_execution :
  execution (fst (run_boot demo_schedule)) (snd (run_boot demo_schedule)).
Proof. apply run_boot_execution. vm_compute. reflexivity. Qed.


Lemma rearm_execution :
  execution (fst (run_boot rearm_schedule)) (snd (run_boot rearm_schedule)).
Proof. apply run_boot_execution. vm_compute. reflexivity. Qed.

Lemma rearm_events_in_bounds : events_in_bounds (snd (run_boot rearm_schedule)).
Proof. unfold events_in_bounds. vm_compute. repeat constructor. Qed.

(** ** No undefined behaviour, stated once for all threads *)



(** ** Roles *)

Lemma role_handle_byte st cmd :
  conforms (role_step T_uart) (fun _ => True) st (Uart.handle_byte cmd).
Proof.
  unfold Uart.handle_byte, Uart.command.
  repeat case_match; cbn; repeat (intros ?; cbn); done.
Qed.

Lemma role_rx_loop st buf offset n i :
  conforms (role_step T_uart) (fun _ => True) st (Uart.rx_loop buf offset i n).
Proof.
  revert st i; induction n as [| n IH]; intros st i; [done |].
  cbn [Uart.rx_loop]. destruct (buf !! _) as [cmd |]; [| intros xe; destruct xe].
  cbn [cast]. change (Ret cmd ≫= ?f) with (f cmd). cbv beta.
  apply conforms_bind.
  eapply conforms_mono; [| by apply role_handle_byte].
  intros st' _ _. apply IH.
Qed.

Lemma leds_lookup (n : nat) (pin : gpio_pin) : leds !! n = Some pin -> is_led pin = true.
Proof. do 4 (destruct n as [| n]; [cbn; intros ?; by simplify_eq |]). done. Qed.

Lemma role_sync_one st i l :
  conforms (role_step T_led) (fun _ => True) st (Led.sync_one i l).
Proof.
  unfold Led.sync_one. intros v. cbn.
  destruct (l !! Z.to_nat i) as [cur |]; cbn; [| intros xe; destruct xe].
  case_bool_decide; cbn; [| done].
  destruct (leds !! Z.to_nat i) as [pin |] eqn:Hpin; cbn; [| intros xe; destruct xe].
  pose proof (leds_lookup _ _ Hpin) as Hled.
  destruct pin; try done; intros v1; cbn; intros ?; cbn; intros v2; done.
Qed.

Lemma role_for_range st n i l :
  conforms (role_step T_led) (fun _ => True) st (for_range n i Led.sync_one l).
Proof.
  revert st i l; induction n as [| n IH]; intros st i l; [done |].
  cbn [for_range]. apply conforms_bind.
  eapply conforms_mono; [| apply role_sync_one].
  intros st' _ l'. apply IH.
Qed.

Lemma role_loops_conform : loops_conform role_step any_state.
Proof.
  repeat split; intros.
  - intros evt. cbn. destruct evt; try done. apply role_rx_loop.
  - unfold Led.led_thread. intros ?. cbn -[for_range].
    apply conforms_bind. eapply conforms_mono; [| apply role_for_range].
    intros st' _ cur. cbn. intros ?. cbn. intros ?. done.
  - unfold Button.button_thread, Button.check_button.
    repeat (intros ?; cbn; try case_bool_decide; cbn). all: done.
  - unfold Pipeline.sensor_reading_thread, Pipeline.read_adc.
    repeat (intros ?; cbn; try case_match; cbn). all: done.
  - unfold Pipeline.data_processing_thread. intros raw.
    cbn -[Pipeline.scaled Pipeline.voltage_of F32.of_int].
    destruct (Pipeline.scaled _); cbn -[F32.of_int]; [| intros xe; destruct xe].
    intros ?. done.
  - unfold Pipeline.database_thread. intros d. cbn -[F32.to_int]. intros ?. cbn -[F32.to_int].
    intros ?.
    destruct (F32.to_int (temperature d)) as [v |] eqn:Hv;
      cbn -[F32.to_int]; [| intros xe; destruct xe].
    intros ?. cbn. done.
Qed.

Lemma roles_execution (s : system) (tr : trace) :
  execution s tr ->
  exists sigma,
    (forall t, accepts (role_step t) tt (calls_of t tr) = Some (sigma t))
    /\ conts_conform role_step any_state sigma (conts s).
Proof.
  intros Hex.
  destruct (conformance role_step any_state (fun _ _ => True)
              role_loops_conform (fun _ _ _ _ _ _ _ _ _ _ _ _ => I)
              (fun _ => tt)) with (s := s) (tr := tr) as (sigma & Hacc & Hc & _);
    [by repeat split | done | done |].
  by exists sigma.
Qed.

Lemma accepts_roles t st cs st' :
  accepts (role_step t) st cs = Some st' ->
  Forall (fun c => call_allowed t c = true) cs.
Proof.
  revert st; induction cs as [| c cs IH]; intros st H; simpl in *; [done |].
  unfold role_step in H at 1.
  destruct (call_allowed t c) eqn:Hc; [| done]. constructor; [done |]. by eapply IH.
Qed.

Lemma roles_kept (s : system) (tr : trace) (t : tid) (c : call) :
  execution s tr -> (t, c) ∈ tr -> call_allowed t c = true.
Proof.
  intros Hex Hin. destruct (roles_execution s tr Hex) as (sigma & Hacc & _).
  pose proof (accepts_roles _ _ _ _ (Hacc t)) as Hall.
  rewrite Forall_forall in Hall. apply Hall.
  by apply list_elem_of_In, elem_of_calls_of.
Qed.

(** A step is the start of a new turn, or one call and its effect. *)
Lemma step_inv (t : tid) (inp : input) (s s' : system) (tr' : trace) :
  step t inp s = Done (s', tr') ->
  (tr' = [] /\ shared s' = shared s)
  \/ (exists X (e : op X) x,
        tr' = [(t, Call e x)] /\ exec_op t inp e (shared s) = Done (x, shared s')).
Proof.
  destruct s as [w c]. unfold step. cbn [shared conts].
  destruct t; [done | | | | | |];
    (match goal with
     | |- commit _ (step_thread ?t _ ?loop ?p _) = _ -> _ =>
         destruct p as [l | X e k]; simpl;
         [ intros ?; simplify_eq; by left
         | destruct (exec_op t inp e w) as [[x w1] | |] eqn:Hex; simpl;
           intros ?; simplify_eq; right; by exists X, e, x ]
     end).
Qed.

(** The one call of a step had the effect [exec_op] gives it. *)
Lemma step_call_inv (t : tid) (inp : input) (s s' : system) (c : call) :
  step t inp s = Done (s', [(t, c)]) ->
  match c with
  | Call e x => exec_op t inp e (shared s) = Done (x, shared s')
  end.
Proof.
  destruct s as [w cs]. unfold step. cbn [shared conts].
  destruct t; [done | | | | | |];
    (match goal with
     | |- commit _ (step_thread ?t _ ?loop ?p _) = _ -> _ =>
         destruct p as [l | X e k]; simpl;
         [ intros ?; by simplify_eq
         | destruct (exec_op t inp e w) as [[x w1] | |] eqn:Hex; simpl;
           intros ?; by simplify_eq ]
     end).
Qed.

(** X3: in every execution each thread makes only the calls of its role.
    The callback alone takes serial events, transmits and enables
    reception (with [sizeof(rx_buf)] and [RECEIVE_TIMEOUT]) and alone
    writes LED flags; the LED loop alone writes GPIO lines, and only LED
    lines; the button loop alone reads GPIO lines, only button lines, and
    alone writes button flags; the sensor loop alone uses the ADC and puts
    samples; the transformation loop only moves data between the two
    queues; the persistence loop alone writes [an_raw] and [an_val]; the
    sleeps are of 100 ms (LED and button loops) and 1000 ms (sensor loop);
    no call of [main] is made again. *)
Theorem thread_roles (s : system) (tr : trace) :
  execution s tr ->
  (forall t c, (t, c) ∈ tr -> call_allowed t c = true)
  /\ (forall t inp s' c, step t inp s = Done (s', [(t, c)]) -> call_allowed t c = true).
Proof.
  intros Hex. split.
  - intros t c. by apply (roles_kept s tr).
  - intros t inp s' c Hstep.
    apply (roles_kept s' (tr ++ [(t, c)])); [exact (exec_step _ _ _ _ _ _ Hex Hstep) |].
    apply elem_of_app. right. by apply list_elem_of_singleton.
Qed.

Lemma thread_roles_witness :
  (forall t c, (t, c) ∈ snd (run_boot demo_schedule) -> call_allowed t c = true)
  /\ (forall t inp s' c,
        step t inp (fst (run_boot demo_schedule)) = Done (s', [(t, c)]) ->
        call_allowed t c = true).
Proof.
  apply (thread_roles (fst (run_boot demo_schedule)) (snd (run_boot demo_schedule))).
  apply demo_execution.
Defined.

(** X4: every part of the shared state has one writer.  In every
    execution a step of a thread other than the callback leaves
    [led_state] and the state of reception as they were, a step of a
    thread other than the button loop leaves [button_state], a step of a
    thread other than the persistence loop leaves [an_raw] and [an_val], a
    step of a thread other than the sensor loop leaves
    [adc_sample_buffer]; and the LED loop changes nothing of
    [rtdb.data]. *)
Theorem single_writer (s s' : system) (tr tr' : trace) (t : tid) (inp : input) :
  execution s tr ->
  step t inp s = Done (s', tr') ->
  (t <> T_uart ->
   led_state (rtdb_data (shared s')) = led_state (rtdb_data (shared s))
   /\ rx_enabled (shared s') = rx_enabled (shared s))
  /\ (t <> T_button ->
      button_state (rtdb_data (shared s')) = button_state (rtdb_data (shared s)))
  /\ (t <> T_database ->
      an_raw (rtdb_data (shared s')) = an_raw (rtdb_data (shared s))
      /\ an_val (rtdb_data (shared s')) = an_val (rtdb_data (shared s)))
  /\ (t <> T_sensor ->
      adc_sample_buffer (shared s') = adc_sample_buffer (shared s))
  /\ (t = T_led -> rtdb_data (shared s') = rtdb_data (shared s)).
Proof.
  intros Hex Hstep.
  destruct (step_inv _ _ _ _ _ Hstep) as [[-> ->] | (X & e & x & -> & Hop)]; [done |].
  assert (call_allowed t (Call e x) = true) as Hrole.
  { apply (roles_kept s' (tr ++ [(t, Call e x)])); [exact (exec_step _ _ _ _ _ _ Hex Hstep) |].
    apply elem_of_app. right. by apply list_elem_of_singleton. }
  revert Hop. generalize (shared s') (shared s). intros w' w Hop.
  destruct t, e; cbn in Hrole; try done; cbn in Hop;
    unfold of_option in Hop; repeat case_match; simplify_option_eq; done.
Qed.

Lemma single_writer_witness :
  (T_button <> T_uart ->
   led_state (rtdb_data (shared (fst (step_of T_button (mkInput 1 0 UART_TX_DONE)
                                        (fst (run_boot held_schedule))))))
   = led_state (rtdb_data (shared (fst (run_boot held_schedule))))
   /\ rx_enabled (shared (fst (step_of T_button (mkInput 1 0 UART_TX_DONE)
                                 (fst (run_boot held_schedule)))))
      = rx_enabled (shared (fst (run_boot held_schedule))))
  /\ (T_button <> T_button ->
      button_state (rtdb_data (shared (fst (step_of T_button (mkInput 1 0 UART_TX_DONE)
                                              (fst (run_boot held_schedule))))))
      = button_state (rtdb_data (shared (fst (run_boot held_schedule)))))
  /\ (T_button <> T_database ->
      an_raw (rtdb_data (shared (fst (step_of T_button (mkInput 1 0 UART_TX_DONE)
                                        (fst (run_boot held_schedule))))))
      = an_raw (rtdb_data (shared (fst (run_boot held_schedule))))
      /\ an_val (rtdb_data (shared (fst (step_of T_button (mkInput 1 0 UART_TX_DONE)
                                           (fst (run_boot held_schedule))))))
         = an_val (rtdb_data (shared (fst (run_boot held_schedule)))))
  /\ (T_button <> T_sensor ->
      adc_sample_buffer (shared (fst (step_of T_button (mkInput 1 0 UART_TX_DONE)
                                        (fst (run_boot held_schedule)))))
      = adc_sample_buffer (shared (fst (run_boot held_schedule))))
  /\ (T_button = T_led ->
      rtdb_data (shared (fst (step_of T_button (mkInput 1 0 UART_TX_DONE)
                                (fst (run_boot held_schedule)))))
      = rtdb_data (shared (fst (run_boot held_schedule)))).
Proof.
  apply (single_writer (fst (run_boot held_schedule))
           (fst (step_of T_button (mkInput 1 0 UART_TX_DONE) (fst (run_boot held_schedule))))
           (snd (run_boot held_schedule))
           (snd (step_of T_button (mkInput 1 0 UART_TX_DONE) (fst (run_boot held_schedule))))
           T_button (mkInput 1 0 UART_TX_DONE)).
  - apply run_boot_execution. vm_compute. reflexivity.
  - vm_compute. reflexivity.
Defined.

(** ** No deadlock *)

(** The only calls that can wait: [k_mutex_lock] on a held mutex and the
    queue operations. *)
Lemma exec_op_blocked t inp {X : Type} (e : op X) w :
  exec_op t inp e w = Blocked ->
  match e with
  | KMutexLock => is_Some (rtdb_lock w)
  | MsgqPutRaw _ | MsgqGetRaw | MsgqPutData _ | MsgqGetData => True
  | _ => False
  end.
Proof.
  destruct e; cbn; intros H; try done; unfold of_option in *;
    repeat case_match; simplify_option_eq; try done; by eexists.
Qed.

(** A program that conforms and whose next call is defined makes a call
    the automaton allows. *)
Lemma conforms_next {S A X : Type} (delta : S -> call -> option S) (idle : S -> Prop)
    (st : S) (e : op X) (k : X -> prog A) :
  op_ok e -> conforms delta idle st (Vis e k) ->
  exists x st', delta st (Call e x) = Some st'.
Proof.
  intros Hok H. cbn in H.
  destruct e; try done;
    first [ specialize (H tt) | specialize (H 0) | specialize (H true)
          | specialize (H UART_TX_DONE)
          | specialize (H (mkSensorData 0 (S754_zero false))) ];
    match type of H with
    | match delta st ?c with _ => _ end =>
        destruct (delta st c) as [st' |] eqn:Hd; [by eauto | done]
    end.
Qed.

(** The holder of the mutex is never made to wait. *)
Lemma holder_step_done {L : Type} (Q : L -> Prop) t inp (loop : L -> prog L)
    (p : prog L) (w : world) (st : option nat * db_state) :
  world_ok w -> safe Q p ->
  conforms (guarded_step t) guarded_idle st p ->
  is_Some (fst st) ->
  exists r, step_thread t inp loop p w = Done r.
Proof.
  intros Hw Hsafe Hc Hheld. destruct p as [l | X e k]; [by eexists |].
  destruct Hsafe as [Hok _]. cbn.
  pose proof (exec_op_defined t inp e w Hw Hok) as Hnf.
  destruct (exec_op t inp e w) as [[x w'] | |] eqn:Hop; [by eexists | | done].
  exfalso. apply exec_op_blocked in Hop.
  destruct (conforms_next _ _ _ _ _ Hok Hc) as (x & st' & Hd).
  destruct st as [[n |] d]; [| by destruct Hheld].
  unfold guarded_step, hold_step in Hd.
  destruct e; try done; cbn in Hd; by destruct n.
Qed.

(** With the mutex free the callback is never made to wait. *)
Lemma callback_step_done inp (p : prog unit) (w : world) (st : unit) :
  world_ok w -> safe (fun _ => True) p ->
  conforms (role_step T_uart) (any_state T_uart) st p ->
  rtdb_lock w = None ->
  exists r, step_thread T_uart inp (fun _ => Uart.isr) p w = Done r.
Proof.
  intros Hw Hsafe Hc Hfree. destruct p as [l | X e k]; [by eexists |].
  destruct Hsafe as [Hok _]. cbn.
  pose proof (exec_op_defined T_uart inp e w Hw Hok) as Hnf.
  destruct (exec_op T_uart inp e w) as [[x w'] | |] eqn:Hop; [by eexists | | done].
  exfalso. apply exec_op_blocked in Hop.
  destruct (conforms_next _ _ _ _ _ Hok Hc) as (x & st' & Hd).
  unfold role_step in Hd.
  destruct e; try done; cbn in Hd; try done.
  rewrite Hfree in Hop. by destruct Hop.
Qed.

Lemma main_makes_no_call (s : system) (tr : trace) :
  execution s tr -> calls_of T_main tr = [].
Proof.
  intros Hex. destruct (calls_of T_main tr) as [| c cs] eqn:Hc; [done |].
  assert ((T_main, c) ∈ tr) as Hin.
  { assert (c ∈ calls_of T_main tr) as Hin by (rewrite Hc; left).
    unfold calls_of in Hin. apply list_elem_of_omap in Hin as ([t c'] & Hin & Heq).
    cbn in Heq. case_decide; simplify_eq/=. done. }
  pose proof (roles_kept s tr T_main c Hex Hin) as Hrole. by destruct c.
Qed.

(** X2: the firmware cannot deadlock.  In every execution whose serial
    events lie inside their buffers, the thread that holds the mutex can
    take its next step whatever the hardware answers (it never waits for a
    queue or for the mutex while holding it), and when the mutex is free
    the callback can. *)
Theorem deadlock_free (s : system) (tr : trace) (inp : input) :
  execution s tr -> events_in_bounds tr ->
  exists s' tr', step (runnable s) inp s = Done (s', tr').
Proof.
  intros Hex Hb.
  destruct (guarded_execution s tr Hex) as (sg & Hacc & Hcg & Hlock & _).
  destruct (roles_execution s tr Hex) as (sr & _ & Hcr).
  destruct (execution_safe s tr Hex Hb) as [Hw Hsafe].
  pose proof (main_makes_no_call s tr Hex) as Hmain.
  destruct Hcg as (Hg1 & Hg2 & Hg3 & Hg4 & Hg5 & Hg6).
  destruct Hcr as (Hr1 & _).
  destruct Hsafe as (Hs1 & Hs2 & Hs3 & Hs4 & Hs5 & Hs6).
  unfold runnable. destruct s as [w c]. cbn [shared conts] in *.
  destruct (rtdb_lock w) as [t |] eqn:Hl; cbv beta iota delta [default from_option id].
  - pose proof (proj1 (Hlock t) eq_refl) as Hheld.
    destruct t; cbv beta zeta iota delta [step shared conts].
    + specialize (Hacc T_main). rewrite Hmain in Hacc. cbn in Hacc.
      simplify_eq. rewrite <- Hacc in Hheld. by destruct Hheld.
    + destruct (holder_step_done _ T_uart inp (fun _ => Uart.isr) _ w _ Hw Hs1 Hg1 Hheld)
        as [[[p' w'] tr'] ->]. cbn. by eauto.
    + destruct (holder_step_done _ T_led inp Led.led_thread _ w _ Hw Hs2 Hg2 Hheld)
        as [[[p' w'] tr'] ->]. cbn. by eauto.
    + destruct (holder_step_done _ T_button inp (fun _ => Button.button_thread) _ w _
                  Hw Hs3 Hg3 Hheld) as [[[p' w'] tr'] ->]. cbn. by eauto.
    + destruct (holder_step_done _ T_sensor inp (fun _ => Pipeline.sensor_reading_thread)
                  _ w _ Hw Hs4 Hg4 Hheld) as [[[p' w'] tr'] ->]. cbn. by eauto.
    + destruct (holder_step_done _ T_process inp (fun _ => Pipeline.data_processing_thread)
                  _ w _ Hw Hs5 Hg5 Hheld) as [[[p' w'] tr'] ->]. cbn. by eauto.
    + destruct (holder_step_done _ T_database inp (fun _ => Pipeline.database_thread)
                  _ w _ Hw Hs6 Hg6 Hheld) as [[[p' w'] tr'] ->]. cbn. by eauto.
  - cbv beta zeta iota delta [step shared conts].
    destruct (callback_step_done inp _ w _ Hw Hs1 Hr1 Hl) as [[[p' w'] tr'] ->].
    cbn. by eauto.
Qed.

Lemma deadlock_free_witness :
  exists s' tr',
    step (runnable (fst (run_boot held_schedule))) no_input (fst (run_boot held_schedule))
    = Done (s', tr').
Proof.
  apply (deadlock_free (fst (run_boot held_schedule)) (snd (run_boot held_schedule))
           no_input).
  - apply run_boot_execution. vm_compute. reflexivity.
  - unfold events_in_bounds. vm_compute. repeat constructor.
Defined.

(** ** Flags are 0 or 1 *)

Lemma toggled_bit (x : Z) : is_bit x -> is_bit (toggled x).
Proof. intros [-> | ->]; [by right | by left]. Qed.

Lemma fn_insert_same {A : Type} (sigma : tid -> A) (t t' : tid) :
  (<[t := sigma t]> sigma) t' = sigma t'.
Proof.
  destruct (decide (t = t')) as [<- | Hne];
    [by rewrite fn_lookup_insert | by rewrite fn_lookup_insert_ne].
Qed.

Lemma load_elem_in (l : list Z) (i v : Z) : load_elem l i = Some v -> v ∈ l.
Proof.
  unfold load_elem. destruct (_ && _); [| done]. apply list_elem_of_lookup_2.
Qed.

Lemma bits_exec_preserves : exec_preserves bit_step bits_inv.
Proof.
  intros sigma t inp X e x w w' st' (Hl & Hb & Hs) Hex Hd.
  assert (forall v t' x', (<[t := Some v]> sigma) t' = Some x' -> is_bit v -> is_bit x')
    as Hins.
  { intros v t' x' Hx Hv. destruct (decide (t = t')) as [<- | Hne].
    - rewrite fn_lookup_insert in Hx. by simplify_eq.
    - rewrite fn_lookup_insert_ne in Hx by done. by eapply Hs. }
  assert (forall t' x', (<[t := None]> sigma) t' = Some x' -> is_bit x') as Hnone.
  { intros t' x' Hx. destruct (decide (t = t')) as [<- | Hne].
    - by rewrite fn_lookup_insert in Hx.
    - rewrite fn_lookup_insert_ne in Hx by done. by eapply Hs. }
  assert (forall t' x', (<[t := sigma t]> sigma) t' = Some x' -> is_bit x') as Hsame.
  { intros t' x'. rewrite fn_insert_same. apply Hs. }
  unfold bits_inv.
  destruct e; cbn in Hd, Hex; unfold of_option in Hex;
    repeat case_match; simplify_option_eq; try done.
  - (* LoadLed *)
    split; [done |]. split; [done |]. intros t' x' Hx. eapply Hins; [done |].
    rewrite Forall_forall in Hl. apply Hl. apply list_elem_of_In. by eapply load_elem_in.
  - (* StoreLed *)
    unfold store_elem in *. case_match; simplify_eq. cbn.
    split; [| done]. apply Forall_insert; [done |]. apply toggled_bit. by eapply Hs.
  - (* StoreButton *)
    unfold store_elem in *. case_match; simplify_eq. cbn.
    split; [done |]. split; [| done]. by apply Forall_insert.
  - (* memset *)
    cbn. split; [| split; [| done]]; repeat constructor; by left.
Qed.

Lemma bit_handle_byte st cmd :
  conforms (bit_step T_uart) (fun _ => True) st (Uart.handle_byte cmd).
Proof.
  unfold Uart.handle_byte, Uart.command.
  repeat case_match; cbn; repeat (intros ?; cbn); try done.
  all: unfold toggled; rewrite decide_True by done; repeat (intros ?; cbn); done.
Qed.

Lemma bit_rx_loop st buf offset n i :
  conforms (bit_step T_uart) (fun _ => True) st (Uart.rx_loop buf offset i n).
Proof.
  revert st i; induction n as [| n IH]; intros st i; [done |].
  cbn [Uart.rx_loop]. destruct (buf !! _) as [cmd |]; [| intros xe; destruct xe].
  cbn [cast]. change (Ret cmd ≫= ?f) with (f cmd). cbv beta.
  apply conforms_bind.
  eapply conforms_mono; [| by apply bit_handle_byte].
  intros st' _ _. apply IH.
Qed.

Lemma bit_sync_one st i l :
  conforms (bit_step T_led) (fun _ => True) st (Led.sync_one i l).
Proof.
  unfold Led.sync_one. intros v. cbn.
  destruct (l !! Z.to_nat i) as [cur |]; cbn; [| intros xe; destruct xe].
  case_bool_decide; cbn; [| done].
  destruct (leds !! Z.to_nat i) as [pin |] eqn:Hpin; cbn; [| intros xe; destruct xe].
  intros v1. cbn. rewrite decide_True by done. intros ?. cbn. intros v2. done.
Qed.

Lemma bit_for_range st n i l :
  conforms (bit_step T_led) (fun _ => True) st (for_range n i Led.sync_one l).
Proof.
  revert st i l; induction n as [| n IH]; intros st i l; [done |].
  cbn [for_range]. apply conforms_bind.
  eapply conforms_mono; [| apply bit_sync_one].
  intros st' _ l'. apply IH.
Qed.

Lemma bit_loops_conform : loops_conform bit_step any_state.
Proof.
  repeat split; intros.
  - intros evt. cbn. destruct evt; try done. apply bit_rx_loop.
  - unfold Led.led_thread. intros ?. cbn -[for_range].
    apply conforms_bind. eapply conforms_mono; [| apply bit_for_range].
    intros st' _ cur. cbn. intros ?. cbn. intros ?. done.
  - unfold Button.button_thread, Button.check_button.
    repeat (intros ?; cbn; try case_bool_decide; cbn;
            rewrite ?(decide_True (P := is_bit (to_bool _))) by apply to_bool_bit).
    all: done.
  - unfold Pipeline.sensor_reading_thread, Pipeline.read_adc.
    repeat (intros ?; cbn; try case_match; cbn). all: done.
  - unfold Pipeline.data_processing_thread. intros raw.
    cbn -[Pipeline.scaled Pipeline.voltage_of F32.of_int].
    destruct (Pipeline.scaled _); cbn -[F32.of_int]; [| intros xe; destruct xe].
    intros ?. done.
  - unfold Pipeline.database_thread. intros d. cbn -[F32.to_int]. intros ?. cbn -[F32.to_int].
    intros ?.
    destruct (F32.to_int (temperature d)) as [v |] eqn:Hv;
      cbn -[F32.to_int]; [| intros xe; destruct xe].
    intros ?. cbn. done.
Qed.

Lemma bits_execution (s : system) (tr : trace) :
  execution s tr ->
  exists sigma,
    (forall t, accepts (bit_step t) None (calls_of t tr) = Some (sigma t))
    /\ bits_inv sigma (shared s).
Proof.
  intros Hex.
  destruct (conformance bit_step any_state bits_inv
              bit_loops_conform bits_exec_preserves
              (fun _ => None)) with (s := s) (tr := tr) as (sigma & Hacc & _ & HR);
    [by repeat split | | done | by exists sigma].
  split; [| split; [| done]]; repeat constructor; by left.
Qed.

(** X5: in every execution every LED flag and every button flag of
    [rtdb.data] is 0 or 1, and every level the LED loop writes to a LED
    line is 0 or 1. *)
Theorem flags_are_bits (s : system) (tr : trace) :
  execution s tr ->
  (Forall is_bit (led_state (rtdb_data (shared s)))
   /\ Forall is_bit (button_state (rtdb_data (shared s))))
  /\ (forall t inp s' pin v,
        step t inp s = Done (s', [(t, Call (GpioPinSet pin v) tt)]) -> is_bit v).
Proof.
  intros Hex. destruct (bits_execution s tr Hex) as (sigma & Hacc & Hl & Hb & Hs).
  split; [done |]. intros t inp s' pin v Hstep.
  destruct (bits_execution _ _ (exec_step _ _ _ _ _ _ Hex Hstep)) as (sigma' & Hacc' & _).
  specialize (Hacc t). specialize (Hacc' t).
  rewrite calls_of_app, accepts_app, Hacc in Hacc'. unfold calls_of in Hacc'.
  cbn in Hacc'. rewrite decide_True in Hacc' by done. cbn in Hacc'.
  case_decide as Hst; [| done]. by eapply Hs.
Qed.

Lemma flags_are_bits_witness :
  (Forall is_bit (led_state (rtdb_data (shared (fst (run_boot demo_schedule)))))
   /\ Forall is_bit (button_state (rtdb_data (shared (fst (run_boot demo_schedule))))))
  /\ (forall t inp s' pin v,
        step t inp (fst (run_boot demo_schedule))
        = Done (s', [(t, Call (GpioPinSet pin v) tt)]) -> is_bit v).
Proof.
  apply (flags_are_bits (fst (run_boot demo_schedule)) (snd (run_boot demo_schedule))).
  apply demo_execution.
Defined.

(** ** The queues keep the order of the samples *)

Lemma flow_queue_frame t inp {X : Type} (e : op X) x w w' :
  exec_op t inp e w = Done (x, w') ->
  match e with
  | MsgqPutRaw _ | MsgqGetRaw | MsgqPutData _ | MsgqGetData => True
  | _ => msgq_adc_raw w' = msgq_adc_raw w /\ msgq_sensor_data w' = msgq_sensor_data w
  end.
Proof.
  destruct e; cbn; intros H; try done; unfold of_option in *;
    repeat case_match; simplify_option_eq; done.
Qed.

Lemma flow_exec_preserves : exec_preserves flow_step flow_inv.
Proof.
  intros sigma t inp X e x w w' st' (Hraw & Hdat & Hans & H16 & Hn1 & Hn2) Hex Hd.
  pose proof (flow_queue_frame _ _ _ _ _ _ Hex) as Hfr.
  unfold flow_inv.
  destruct e; cbn in Hd; simplify_eq;
    try (match type of Hfr with
         | _ /\ _ => destruct Hfr as [Hq1 Hq2]; rewrite Hq1, Hq2, !fn_insert_same; done
         end).
  - (* put raw *)
    case_decide as Ht; [| done]. destruct Ht as [-> Hv]. simplify_eq.
    cbn in Hex. case_bool_decide; [| done]. simplify_eq.
    rewrite fn_lookup_insert, !fn_lookup_insert_ne by done. cbn.
    split; [by rewrite Hraw, app_assoc |]. split; [done |]. split; [done |].
    split; [apply Forall_app; split; [done | by constructor] |].
    split; [| done]. rewrite length_app. cbn. lia.
  - (* get raw *)
    case_decide as Ht; [| done]. destruct Ht as [-> Hh]. simplify_eq.
    cbn in Hex. destruct (msgq_adc_raw w) as [| v q] eqn:Hq; [done |]. simplify_eq.
    rewrite fn_lookup_insert, !fn_lookup_insert_ne by done. cbn.
    split; [by rewrite Hraw, <- app_assoc |]. split; [done |]. split.
    { destruct Hans as (rs & Hrs & Hrd). rewrite Hh in Hrs. cbn in Hrs.
      rewrite app_nil_r in Hrs. exists rs. by subst. }
    split; [done |]. split; [cbn in Hn1; lia | done].
  - (* put data *)
    case_decide as Ht; [| done]. destruct Ht as [-> Hh]. simplify_eq.
    cbn in Hex. case_bool_decide; [| done]. simplify_eq.
    rewrite fn_lookup_insert, !fn_lookup_insert_ne by done. cbn.
    split; [done |]. split; [by rewrite Hdat, app_assoc |]. split.
    { destruct Hans as (rs & Hrs & Hrd).
      destruct (in_hand (sigma T_process)) as [raw |]; [| done]. cbn in Hh, Hrs.
      exists (rs ++ [raw]). cbn. rewrite app_nil_r. split; [done |].
      rewrite !fmap_app, Hrd. cbn. by rewrite Hh. }
    split; [done |]. split; [done |]. rewrite length_app. cbn. lia.
  - (* get data *)
    case_decide as Ht; [| done]. subst t. simplify_eq.
    cbn in Hex. destruct (msgq_sensor_data w) as [| v q] eqn:Hq; [done |]. simplify_eq.
    rewrite fn_lookup_insert, !fn_lookup_insert_ne by done. cbn.
    split; [done |]. split; [by rewrite Hdat, <- app_assoc |].
    split; [done |]. split; [done |]. split; [done |]. cbn in Hn2. lia.
Qed.

(** A thread whose role has no queue call leaves the flow state alone. *)
Lemma flow_by_role {A : Type} (t : tid) (st0 : unit) (st : flow_state) (p : prog A) :
  t = T_uart \/ t = T_led \/ t = T_button ->
  conforms (role_step t) (any_state t) st0 p ->
  conforms (flow_step t) (fun st' => st' = st) st p.
Proof.
  intros Ht. revert st0; induction p as [a | X e k IH]; intros st0; [done |].
  cbn [conforms]. intros H x. specialize (H x). unfold role_step in H.
  destruct (call_allowed t (Call e x)) eqn:Hc; [| done].
  assert (flow_step t st (Call e x) = Some st) as ->.
  { destruct Ht as [-> | [-> | ->]]; destruct e; try done. }
  by eapply IH.
Qed.

Lemma flow_loops_conform : loops_conform flow_step flow_idle.
Proof.
  destruct role_loops_conform as (H1 & H2 & H3 & _).
  repeat split; intros.
  - eapply conforms_mono; [| eapply (flow_by_role T_uart tt); [by left | by apply H1]].
    by intros ? ->.
  - eapply conforms_mono; [| eapply (flow_by_role T_led tt); [by auto | by apply H2]].
    by intros ? ->.
  - eapply conforms_mono; [| eapply (flow_by_role T_button tt); [by auto | by apply H3]].
    by intros ? ->.
  - unfold Pipeline.sensor_reading_thread, Pipeline.read_adc.
    intros ret. cbn. destruct (ret =? 0); cbn; [| by intros ?].
    intros sample. cbn.
    rewrite decide_True by (split; [done | apply to_i16_range]). intros ?. cbn. by intros ?.
  - unfold Pipeline.data_processing_thread. intros raw.
    cbn -[Pipeline.scaled Pipeline.voltage_of F32.of_int].
    unfold flow_idle in *. rewrite decide_True by done.
    destruct (Pipeline.scaled (Pipeline.voltage_of raw)) as [v |] eqn:Hv;
      cbn -[Pipeline.scaled Pipeline.voltage_of F32.of_int]; [| intros xe; destruct xe].
    intros ?. cbn -[Pipeline.scaled Pipeline.voltage_of F32.of_int].
    unfold reading_of. rewrite Hv. cbn -[F32.of_int].
    rewrite decide_True by done. done.
  - unfold Pipeline.database_thread. intros d. cbn -[F32.to_int].
    intros ?. cbn -[F32.to_int]. intros ?.
    destruct (F32.to_int (temperature d)) as [v |] eqn:Hv;
      cbn -[F32.to_int]; [| intros xe; destruct xe].
    intros ?. cbn. intros ?. done.
Qed.

Lemma flow_execution (s : system) (tr : trace) :
  execution s tr ->
  exists sigma,
    (forall t, accepts (flow_step t) (flow_boot t) (calls_of t tr) = Some (sigma t))
    /\ flow_inv sigma (shared s).
Proof.
  intros Hex.
  destruct (conformance flow_step flow_idle flow_inv
              flow_loops_conform flow_exec_preserves
              flow_boot) with (s := s) (tr := tr) as (sigma & Hacc & _ & HR);
    [by repeat split | | done | by exists sigma].
  repeat split; try done; cbn; try lia. by exists [].
Qed.

Lemma accepts_flow_sensor st cs st' :
  accepts (flow_step T_sensor) st cs = Some st' ->
  raws st' = raws st ++ omap put_raw cs.
Proof.
  revert st; induction cs as [| c cs IH]; intros st H; simpl in *.
  - simplify_eq. by rewrite app_nil_r.
  - destruct (flow_step T_sensor st c) as [st1 |] eqn:Hc; [| done].
    apply IH in H. rewrite H. clear H IH.
    destruct c as [X e x]. destruct e; simpl in Hc; repeat case_decide; simplify_eq/=;
      try done; try (by destruct_and?).
    by rewrite <- app_assoc.
Qed.

Lemma accepts_flow_process st cs st' :
  accepts (flow_step T_process) st cs = Some st' ->
  raws st' = raws st ++ omap get_raw cs
  /\ readings st' = readings st ++ omap put_data cs.
Proof.
  revert st; induction cs as [| c cs IH]; intros st H; simpl in *.
  - simplify_eq. by rewrite !app_nil_r.
  - destruct (flow_step T_process st c) as [st1 |] eqn:Hc; [| done].
    apply IH in H. destruct H as [-> ->]. clear IH.
    destruct c as [X e x]. destruct e; simpl in Hc; repeat case_decide; simplify_eq/=;
      try done; try (by destruct_and?); by rewrite <- app_assoc.
Qed.

Lemma accepts_flow_database st cs st' :
  accepts (flow_step T_database) st cs = Some st' ->
  readings st' = readings st ++ omap get_data cs.
Proof.
  revert st; induction cs as [| c cs IH]; intros st H; simpl in *.
  - simplify_eq. by rewrite app_nil_r.
  - destruct (flow_step T_database st c) as [st1 |] eqn:Hc; [| done].
    apply IH in H. rewrite H. clear H IH.
    destruct c as [X e x]. destruct e; simpl in Hc; repeat case_decide; simplify_eq/=;
      try done; try (by destruct_and?).
    by rewrite <- app_assoc.
Qed.

(** The logs of the flow automaton are what the trace shows. *)
Lemma flow_logs (s : system) (tr : trace) :
  execution s tr ->
  exists sigma,
    flow_inv sigma (shared s)
    /\ raws (sigma T_sensor) = sampled tr
    /\ raws (sigma T_process) = fetched tr
    /\ readings (sigma T_process) = produced tr
    /\ readings (sigma T_database) = dequeued tr.
Proof.
  intros Hex. destruct (flow_execution s tr Hex) as (sigma & Hacc & Hinv).
  pose proof (accepts_flow_sensor _ _ _ (Hacc T_sensor)) as Hs.
  pose proof (accepts_flow_process _ _ _ (Hacc T_process)) as [Hp1 Hp2].
  pose proof (accepts_flow_database _ _ _ (Hacc T_database)) as Hd.
  cbn in Hs, Hp1, Hp2, Hd. exists sigma. split; [done |]. by repeat split.
Qed.

(** X6: the two queues lose, duplicate and reorder nothing.  In every
    execution the samples the sensor loop has put are, in order, those the
    transformation loop has taken followed by those waiting in
    [msgq_adc_raw]; the readings the transformation loop has put are, in
    order, those the persistence loop has taken followed by those waiting
    in [msgq_sensor_data]; the readings put are the conversions of the
    samples taken, in order, with at most the last sample not yet
    answered; every sample put is an [int16_t]; and neither queue holds
    more than its 10 messages. *)
Theorem pipeline_fifo (s : system) (tr : trace) :
  execution s tr ->
  sampled tr = fetched tr ++ msgq_adc_raw (shared s)
  /\ produced tr = dequeued tr ++ msgq_sensor_data (shared s)
  /\ (exists rs pending,
        fetched tr = rs ++ pending /\ (length pending <= 1)%nat
        /\ reading_of <$> rs = Some <$> produced tr)
  /\ Forall in_i16 (sampled tr)
  /\ (length (msgq_adc_raw (shared s)) <= MSGQ_MAX_MSGS)%nat
  /\ (length (msgq_sensor_data (shared s)) <= MSGQ_MAX_MSGS)%nat.
Proof.
  intros Hex.
  destruct (flow_logs s tr Hex) as (sigma & Hinv & <- & <- & <- & <-).
  destruct Hinv as (Hraw & Hdat & (rs & Hrs & Hrd) & H16 & Hn1 & Hn2).
  split; [done |]. split; [done |]. split; [| done].
  exists rs, (option_list (in_hand (sigma T_process))).
  split; [done |]. split; [| done].
  destruct (in_hand (sigma T_process)); cbn; lia.
Qed.

Lemma pipeline_fifo_witness :
  sampled (snd (run_boot demo_schedule))
  = fetched (snd (run_boot demo_schedule))
    ++ msgq_adc_raw (shared (fst (run_boot demo_schedule)))
  /\ produced (snd (run_boot demo_schedule))
     = dequeued (snd (run_boot demo_schedule))
       ++ msgq_sensor_data (shared (fst (run_boot demo_schedule)))
  /\ (exists rs pending,
        fetched (snd (run_boot demo_schedule)) = rs ++ pending
        /\ (length pending <= 1)%nat
        /\ reading_of <$> rs = Some <$> produced (snd (run_boot demo_schedule)))
  /\ Forall in_i16 (sampled (snd (run_boot demo_schedule)))
  /\ (length (msgq_adc_raw (shared (fst (run_boot demo_schedule)))) <= MSGQ_MAX_MSGS)%nat
  /\ (length (msgq_sensor_data (shared (fst (run_boot demo_schedule))))
      <= MSGQ_MAX_MSGS)%nat.
Proof.
  apply (pipeline_fifo (fst (run_boot demo_schedule)) (snd (run_boot demo_schedule))).
  apply demo_execution.
Defined.

(** Outside the critical section of the persistence loop the two sensor
    fields come from one sample. *)
Lemma rtdb_from_sample (s : system) (tr : trace) :
  execution s tr ->
  rtdb_lock (shared s) <> Some T_database ->
  from_sample (sampled tr) (rtdb_data (shared s)).
Proof.
  intros Hex Hfree.
  destruct (guarded_execution s tr Hex) as (sigma & Hacc & _ & Hlock & Hpair).
  destruct (accepts_guarded _ _ _ _ (Hacc T_database)) as [_ Hdb].
  cbn [store_step guarded_boot snd] in Hdb.
  pose proof (accepts_db_seen _ _ _ Hdb) as Hseen. cbn [seen app] in Hseen.
  change (omap get_data (calls_of T_database tr)) with (dequeued tr) in Hseen.
  assert (pair_from (dequeued tr) (rtdb_data (shared s))) as Hp.
  { rewrite <- Hseen. cbv zeta in Hpair.
    assert (~ is_Some (fst (sigma T_database))) as Hnot by (by rewrite <- Hlock).
    destruct (stage (snd (sigma T_database))); by intuition. }
  destruct Hp as [Hz | (r & Hin & Hraw & Hval)]; [by left | right].
  destruct (flow_logs s tr Hex) as (fl & Hinv & Hs & Hf & Hpd & Hdq).
  destruct Hinv as (Hq1 & Hq2 & (rs & Hrs & Hrd) & H16 & _).
  rewrite Hs, Hf in Hq1. rewrite Hpd, Hdq in Hq2. rewrite Hf in Hrs.
  rewrite Hpd in Hrd. rewrite Hs in H16.
  assert (r ∈ produced tr) as Hr by (rewrite Hq2; apply elem_of_app; by left).
  assert (Some r ∈ reading_of <$> rs) as Hsr.
  { rewrite Hrd. by apply list_elem_of_fmap_2. }
  apply list_elem_of_fmap in Hsr as (raw & Heq & Hinr).
  assert (raw ∈ sampled tr) as Hsm.
  { rewrite Hq1, Hrs. apply elem_of_app. left. apply elem_of_app. by left. }
  assert (in_i16 raw) as Hraw16.
  { rewrite Forall_forall in H16. apply H16. by apply list_elem_of_In. }
  destruct (reading_of_total raw Hraw16) as (v & Hv & Hacc' & Hrt & Hrd').
  rewrite Hrd' in Heq. injection Heq as ->. cbn in Hraw, Hval.
  rewrite Hrt in Hval. injection Hval as <-. rewrite Hraw. done.
Qed.

(** X7: what the dispatcher can report is consistent.  In every execution,
    while the persistence loop is not inside its critical section,
    [an_raw] and [an_val] are the zeros of boot, or [an_raw] is a sample the
    sensor loop has put and [an_val] is the conversion of that very
    sample, within 1 of [60000 * (3 * an_raw / 1023 - 1)]; and whenever a
    step of the callback reads [an_raw] or [an_val], it reads the stored
    field while the two fields are such a pair. *)
Theorem stored_reading_consistent (s : system) (tr : trace) :
  execution s tr ->
  (rtdb_lock (shared s) <> Some T_database ->
   from_sample (sampled tr) (rtdb_data (shared s)))
  /\ (forall inp s' v,
        step T_uart inp s = Done (s', [(T_uart, Call LoadAnRaw v)]) ->
        v = an_raw (rtdb_data (shared s))
        /\ from_sample (sampled tr) (rtdb_data (shared s)))
  /\ (forall inp s' v,
        step T_uart inp s = Done (s', [(T_uart, Call LoadAnVal v)]) ->
        v = an_val (rtdb_data (shared s))
        /\ from_sample (sampled tr) (rtdb_data (shared s))).
Proof.
  intros Hex. split; [by apply rtdb_from_sample |].
  assert (forall inp s' c,
            step T_uart inp s = Done (s', [(T_uart, c)]) -> call_kind c = KAccess ->
            from_sample (sampled tr) (rtdb_data (shared s))) as Hread.
  { intros inp s' c Hstep Hk.
    destruct (step_call_allowed s tr T_uart inp s' c Hex Hstep) as (h & h' & _ & Hh & Hl).
    apply hold_step_kind in Hh. rewrite Hk in Hh. destruct Hh as [Hh _].
    apply Hl in Hh. apply (rtdb_from_sample s tr Hex). by rewrite Hh. }
  split; intros inp s' v Hstep.
  - pose proof (step_call_inv _ _ _ _ _ Hstep) as Hop. cbn in Hop.
    split; [by simplify_eq | by eapply Hread].
  - pose proof (step_call_inv _ _ _ _ _ Hstep) as Hop. cbn in Hop.
    split; [by simplify_eq | by eapply Hread].
Qed.

Lemma stored_reading_consistent_witness :
  from_sample (sampled (snd (run_boot demo_schedule)))
              (rtdb_data (shared (fst (run_boot demo_schedule)))).
Proof.
  destruct (stored_reading_consistent
              (fst (run_boot demo_schedule)) (snd (run_boot demo_schedule))
              demo_execution) as [H _].
  apply H. vm_compute. discriminate.
Defined.

(** ** Reception is never left disabled *)

Lemma rx_frame t inp {X : Type} (e : op X) x w w' :
  exec_op t inp e w = Done (x, w') ->
  match e with
  | UartEvent | UartRxEnable _ _ _ => True
  | _ => rx_enabled w' = rx_enabled w
  end.
Proof.
  destruct e; cbn; intros H; try done; unfold of_option in *;
    repeat case_match; simplify_option_eq; done.
Qed.

Lemma rx_exec_preserves : exec_preserves rx_step rx_inv.
Proof.
  intros sigma t inp X e x w w' st' HR Hex Hd. unfold rx_inv in *.
  pose proof (rx_frame _ _ _ _ _ _ Hex) as Hfr.
  destruct (decide (t = T_uart)) as [-> | Hne].
  - rewrite fn_lookup_insert.
    destruct e; cbn in Hd; repeat case_decide; destruct_and?; simplify_eq;
      try (destruct (sigma T_uart); simplify_eq; by rewrite Hfr, HR).
    + (* enable *)
      cbn in Hex. destruct (sigma T_uart); [| done]. cbn in HR. rewrite HR in Hex.
      by simplify_eq.
    + (* event *)
      cbn in Hex. destruct (sigma T_uart); [done |]. cbn in HR.
      destruct (in_event inp); simplify_eq; done.
  - rewrite fn_lookup_insert_ne by done.
    destruct e; cbn in Hd; repeat case_decide; destruct_and?; simplify_eq;
      by rewrite Hfr.
Qed.

Lemma rx_handle_byte cmd :
  conforms (rx_step T_uart) (fun st => st = false) false (Uart.handle_byte cmd).
Proof.
  unfold Uart.handle_byte, Uart.command.
  repeat case_match; cbn; repeat (intros ?; cbn); done.
Qed.

Lemma rx_rx_loop buf offset n i :
  conforms (rx_step T_uart) (fun st => st = false) false (Uart.rx_loop buf offset i n).
Proof.
  revert i; induction n as [| n IH]; intros i; [done |].
  cbn [Uart.rx_loop]. destruct (buf !! _) as [cmd |]; [| intros xe; destruct xe].
  cbn [cast]. change (Ret cmd ≫= ?f) with (f cmd). cbv beta.
  apply conforms_bind.
  eapply conforms_mono; [| by apply rx_handle_byte].
  intros st' -> _. apply IH.
Qed.

(** A thread whose role has no serial-port call stays out of reception. *)
Lemma rx_by_role {A : Type} (t : tid) (st0 : unit) (p : prog A) :
  t <> T_uart ->
  conforms (role_step t) (any_state t) st0 p ->
  conforms (rx_step t) (fun st' => st' = false) false p.
Proof.
  intros Ht. revert st0; induction p as [a | X e k IH]; intros st0; [done |].
  cbn [conforms]. intros H x. specialize (H x). unfold role_step in H.
  destruct (call_allowed t (Call e x)) eqn:Hc; [| done].
  assert (rx_step t false (Call e x) = Some false) as ->.
  { destruct t, e; try done. }
  by eapply IH.
Qed.

Lemma rx_loops_conform : loops_conform rx_step rx_idle.
Proof.
  destruct role_loops_conform as (_ & H2 & H3 & H4 & H5 & H6).
  unfold rx_idle.
  repeat split; intros; subst.
  - intros evt. cbn. destruct evt; try done. apply rx_rx_loop.
  - by apply (rx_by_role T_led tt), H2.
  - by apply (rx_by_role T_button tt), H3.
  - by apply (rx_by_role T_sensor tt), H4.
  - by apply (rx_by_role T_process tt), H5.
  - by apply (rx_by_role T_database tt), H6.
Qed.

Lemma rx_execution (s : system) (tr : trace) :
  execution s tr ->
  exists sigma,
    (forall t, accepts (rx_step t) false (calls_of t tr) = Some (sigma t))
    /\ conts_conform rx_step rx_idle sigma (conts s)
    /\ rx_inv sigma (shared s).
Proof.
  intros Hex.
  apply (conformance rx_step rx_idle rx_inv rx_loops_conform rx_exec_preserves
           (fun _ => false)); [| done | done].
  repeat split; done.
Qed.

(** X8: reception is never left disabled.  In every execution whose serial
    events lie inside their buffers, whenever reception is disabled the
    next step of the callback is its [uart_rx_enable] with [rx_buf],
    [sizeof(rx_buf)] and [RECEIVE_TIMEOUT], which returns 0 and enables
    reception, whatever the other threads did in between; and every
    [uart_rx_enable] is made by the callback, while reception is disabled,
    and succeeds. *)
Theorem reception_rearmed (s : system) (tr : trace) :
  execution s tr -> events_in_bounds tr ->
  (rx_enabled (shared s) = false ->
   forall inp, exists s',
     step T_uart inp s
     = Done (s', [(T_uart, Call (UartRxEnable rx_buf RECEIVE_BUFF_SIZE RECEIVE_TIMEOUT) 0)])
     /\ rx_enabled (shared s') = true)
  /\ (forall t inp s' b len timeout r,
        step t inp s = Done (s', [(t, Call (UartRxEnable b len timeout) r)]) ->
        t = T_uart /\ r = 0 /\ rx_enabled (shared s) = false
        /\ rx_enabled (shared s') = true).
Proof.
  intros Hex Hb.
  destruct (rx_execution s tr Hex) as (sigma & Hacc & Hc & HR).
  destruct (execution_safe s tr Hex Hb) as [Hw Hsafe].
  unfold rx_inv in HR. split.
  - intros Hoff inp. rewrite Hoff in HR.
    destruct (sigma T_uart) eqn:Hst; [| done].
    destruct Hc as (Hc1 & _). destruct Hsafe as (Hs1 & _). rewrite Hst in Hc1.
    destruct s as [w c]. cbn [shared conts] in *.
    cbv beta zeta iota delta [step shared conts].
    destruct (c_uart c) as [[] | X e k]; [done |].
    destruct Hs1 as [Hok _].
    destruct (conforms_next _ _ _ _ _ Hok Hc1) as (x & st' & Hd).
    destruct e; cbn in Hd; try done.
    case_decide as Hd'; [| done]. destruct Hd' as (_ & _ & -> & ->).
    destruct b. cbn. rewrite Hoff. cbn. by eexists.
  - intros t inp s' b len timeout r Hstep.
    destruct (rx_execution _ _ (exec_step _ _ _ _ _ _ Hex Hstep)) as (sigma' & Hacc' & _).
    specialize (Hacc t). specialize (Hacc' t).
    rewrite calls_of_app, accepts_app, Hacc in Hacc'. unfold calls_of in Hacc'.
    cbn in Hacc'. rewrite decide_True in Hacc' by done. cbn in Hacc'.
    case_decide as Hd; [| done]. destruct Hd as (-> & Hst & -> & ->).
    rewrite Hst in HR. cbn in HR.
    pose proof (step_call_inv _ _ _ _ _ Hstep) as Hop.
    cbn in Hop. rewrite HR in Hop. injection Hop as <- <-. done.
Qed.

Lemma reception_rearmed_witness :
  (rx_enabled (shared (fst (run_boot rearm_schedule))) = false ->
   forall inp, exists s',
     step T_uart inp (fst (run_boot rearm_schedule))
     = Done (s', [(T_uart, Call (UartRxEnable rx_buf RECEIVE_BUFF_SIZE RECEIVE_TIMEOUT) 0)])
     /\ rx_enabled (shared s') = true)
  /\ (forall t inp s' b len timeout r,
        step t inp (fst (run_boot rearm_schedule))
        = Done (s', [(t, Call (UartRxEnable b len timeout) r)]) ->
        t = T_uart /\ r = 0
        /\ rx_enabled (shared (fst (run_boot rearm_schedule))) = false
        /\ rx_enabled (shared s') = true).
Proof.
  apply (reception_rearmed (fst (run_boot rearm_schedule)) (snd (run_boot rearm_schedule))).
  - apply rearm_execution.
  - apply rearm_events_in_bounds.
Defined.

(** ** Toggles are never lost *)

Lemma led_frame t inp {X : Type} (e : op X) x w w' :
  exec_op t inp e w = Done (x, w') ->
  match e with
  | StoreLed _ _ | MemsetRtdbData => True
  | _ => led_state (rtdb_data w') = led_state (rtdb_data w)
  end.
Proof.
  destruct e; cbn; intros H; try done; unfold of_option in *;
    repeat case_match; simplify_option_eq; done.
Qed.

Lemma times_app i l1 l2 : times i (l1 ++ l2) = (times i l1 + times i l2)%nat.
Proof. unfold times. by rewrite list.filter_app, length_app. Qed.

Lemma toggled_parity (n : nat) :
  toggled (Z.of_nat n mod 2) = Z.of_nat (n + 1) mod 2.
Proof.
  rewrite Nat2Z.inj_add. change (Z.of_nat 1) with 1.
  pose proof (Z.mod_pos_bound (Z.of_nat n) 2 ltac:(lia)) as Hb.
  assert (Z.of_nat n mod 2 = 0 \/ Z.of_nat n mod 2 = 1) as [H | H] by lia.
  - rewrite H. rewrite <- Z.add_mod_idemp_l by lia. rewrite H. done.
  - rewrite H. rewrite <- Z.add_mod_idemp_l by lia. rewrite H. done.
Qed.

Lemma toggle_exec_preserves : exec_preserves toggle_step toggle_inv.
Proof.
  intros sigma t inp X e x w w' st' (Hcnt & Hld) Hex Hd.
  pose proof (led_frame _ _ _ _ _ _ Hex) as Hfr.
  unfold toggle_inv.
  destruct (decide (t = T_uart)) as [-> | Hne].
  - rewrite fn_lookup_insert.
    destruct e; cbn in Hd; simplify_eq;
      try (rewrite Hfr; done).
    + (* load *)
      rewrite decide_True in Hd by done. simplify_eq. cbn. rewrite Hfr.
      split; [done |]. intros i' x' ?. simplify_eq.
      cbn in Hex. unfold of_option in Hex. by repeat case_match; simplify_option_eq.
    + (* store *)
      destruct (loaded (sigma T_uart)) as [[j x0] |] eqn:Hl; [| done].
      case_decide as Hc; [| done]. destruct Hc as (_ & -> & ->). simplify_eq. cbn.
      split; [| done].
      specialize (Hld _ _ eq_refl).
      cbn in Hex. unfold of_option, store_elem in Hex.
      repeat case_match; simplify_option_eq.
      unfold load_elem in Hld. case_match; [| done].
      assert (0 <= i < 4) as Hi by lia.
      intros i' Hi'. unfold times in *. rewrite list.filter_app, length_app.
      destruct (decide (i' = i)) as [-> | Hni].
      * rewrite list_lookup_insert_eq by (apply lookup_lt_is_Some; by eexists).
        f_equal. rewrite (Hcnt i Hi) in Hld. simplify_eq.
        rewrite filter_cons_True by done. cbn.
        apply toggled_parity.
      * rewrite list_lookup_insert_ne by lia.
        rewrite filter_cons_False by done. cbn.
        rewrite Nat.add_0_r. by apply Hcnt.
  - rewrite fn_lookup_insert_ne by done.
    destruct e; cbn in Hd; simplify_eq; try (rewrite Hfr; done).
    destruct (loaded (sigma t)) as [[j x0] |]; [| done].
    case_decide as Hc; [| done]. by destruct Hc.
Qed.

Lemma toggle_handle_byte st cmd :
  conforms (toggle_step T_uart) (fun _ => True) st (Uart.handle_byte cmd).
Proof.
  unfold Uart.handle_byte, Uart.command.
  repeat case_match; cbn; repeat (intros ?; cbn); try done.
  all: unfold toggled; rewrite decide_True by done; repeat (intros ?; cbn); done.
Qed.

Lemma toggle_rx_loop st buf offset n i :
  conforms (toggle_step T_uart) (fun _ => True) st (Uart.rx_loop buf offset i n).
Proof.
  revert st i; induction n as [| n IH]; intros st i; [done |].
  cbn [Uart.rx_loop]. destruct (buf !! _) as [cmd |]; [| intros xe; destruct xe].
  cbn [cast]. change (Ret cmd ≫= ?f) with (f cmd). cbv beta.
  apply conforms_bind.
  eapply conforms_mono; [| by apply toggle_handle_byte].
  intros st' _ _. apply IH.
Qed.

(** A thread other than the callback writes no LED flag. *)
Lemma toggle_by_role {A : Type} (t : tid) (st0 : unit) (st : toggle_state) (p : prog A) :
  t <> T_uart ->
  conforms (role_step t) (any_state t) st0 p ->
  conforms (toggle_step t) (fun _ => True) st p.
Proof.
  intros Ht. revert st0; induction p as [a | X e k IH]; intros st0; [done |].
  cbn [conforms]. intros H x. specialize (H x). unfold role_step in H.
  destruct (call_allowed t (Call e x)) eqn:Hc; [| done].
  assert (toggle_step t st (Call e x) = Some st) as ->.
  { destruct t, e; try done. }
  by eapply IH.
Qed.

Lemma toggle_loops_conform : loops_conform toggle_step any_state.
Proof.
  destruct role_loops_conform as (_ & H2 & H3 & H4 & H5 & H6).
  repeat split; intros.
  - intros evt. cbn. destruct evt; try done. apply toggle_rx_loop.
  - by apply (toggle_by_role T_led tt), H2.
  - by apply (toggle_by_role T_button tt), H3.
  - by apply (toggle_by_role T_sensor tt), H4.
  - by apply (toggle_by_role T_process tt), H5.
  - by apply (toggle_by_role T_database tt), H6.
Qed.

Lemma accepts_toggles st cs st' :
  accepts (toggle_step T_uart) st cs = Some st' ->
  toggles st' = toggles st ++ omap stored_led cs.
Proof.
  revert st; induction cs as [| c cs IH]; intros st H; simpl in *.
  - simplify_eq. by rewrite app_nil_r.
  - destruct (toggle_step T_uart st c) as [st1 |] eqn:Hc; [| done].
    apply IH in H. rewrite H. clear H IH.
    destruct c as [X e x]. destruct e; simpl in Hc; repeat case_match;
      simplify_eq/=; try done.
    by rewrite <- app_assoc.
Qed.

(** X18: no toggle is lost, whatever the interleaving.  In every
    execution each LED flag equals the number of times the callback has
    written it, modulo 2: the callback's read-modify-write of a flag is
    never disturbed, and nothing else writes the flags. *)
Theorem toggles_counted (s : system) (tr : trace) (i : Z) :
  execution s tr ->
  0 <= i < 4 ->
  led_state (rtdb_data (shared s)) !! Z.to_nat i
  = Some (Z.of_nat (times i (toggled_leds tr)) mod 2).
Proof.
  intros Hex Hi.
  destruct (conformance toggle_step any_state toggle_inv
              toggle_loops_conform toggle_exec_preserves
              (fun _ => mkToggle None [])) with (s := s) (tr := tr)
    as (sigma & Hacc & _ & Hcnt & _).
  - by repeat split.
  - split; [| done]. intros j Hj. cbn.
    assert (j = 0 \/ j = 1 \/ j = 2 \/ j = 3) as [-> | [-> | [-> | ->]]] by lia; done.
  - done.
  - rewrite (Hcnt i Hi). pose proof (accepts_toggles _ _ _ (Hacc T_uart)) as Ht.
    cbn in Ht. by rewrite Ht.
Qed.

Lemma toggles_counted_witness :
  led_state (rtdb_data (shared (fst (run_boot demo_schedule)))) !! Z.to_nat 0
  = Some (Z.of_nat (times 0 (toggled_leds (snd (run_boot demo_schedule)))) mod 2).
Proof.
  apply (toggles_counted (fst (run_boot demo_schedule)) (snd (run_boot demo_schedule)) 0).
  - apply demo_execution.
  - lia.
Defined.

(** ** The LED lines before the first toggle *)







(** ** The button flags follow the buttons *)

Lemma button_frame t inp {X : Type} (e : op X) x w w' :
  exec_op t inp e w = Done (x, w') ->
  match e with
  | StoreButton _ _ | MemsetRtdbData => True
  | _ => button_state (rtdb_data w') = button_state (rtdb_data w)
  end.
Proof.
  destruct e; cbn; intros H; try done; unfold of_option in *;
    repeat case_match; simplify_option_eq; done.
Qed.

Lemma lock_frame t inp {X : Type} (e : op X) x w w' :
  exec_op t inp e w = Done (x, w') ->
  match e with
  | KMutexLock | KMutexUnlock | KMutexInit => True
  | _ => rtdb_lock w' = rtdb_lock w
  end.
Proof.
  destruct e; cbn; intros H; try done; unfold of_option in *;
    repeat case_match; simplify_option_eq; done.
Qed.

Lemma view_exec_preserves : exec_preserves view_step view_inv.
Proof.
  intros sigma t inp X e x w w' st' (Hlen & Hin & Hck & Hbs) Hex Hd.
  pose proof (button_frame _ _ _ _ _ _ Hex) as Hfr.
  pose proof (lock_frame _ _ _ _ _ _ Hex) as Hlf.
  pose proof (exec_op_lock _ _ _ _ _ _ Hex) as Hlk.
  unfold view_inv. cbv zeta.
  destruct (decide (t = T_button)) as [-> | Hne].
  - rewrite fn_lookup_insert.
    destruct e; cbn in Hd, Hlk, Hlf, Hfr; try done;
      try (simplify_eq; rewrite Hfr, Hlf; by repeat split; auto).
    + (* lock *)
      rewrite decide_True in Hd by done. simplify_eq. cbn.
      destruct Hlk as [_ ->]. rewrite Hfr. by repeat split; auto.
    + (* unlock *)
      rewrite decide_True in Hd by done.
      destruct (decide (checking (sigma T_button) = None)) as [Hc | Hc]; [| done].
      simplify_eq. cbn.
      rewrite Hfr. split; [done |]. split; [by intros ? |]. split; [by intros [] |].
      intros j Hj _. apply Hbs; [done |]. by rewrite Hc.
    + (* compare the flag *)
      rewrite decide_True in Hd by done. case_decide as Hc; [| done]. simplify_eq. cbn.
      rewrite Hfr, Hlf. split; [done |]. split; [done |].
      cbn in Hex. unfold of_option, load_elem in Hex.
      case_decide as Heq.
      * split; [by intros [] |].
        intros j Hj _. destruct (decide (j = i)) as [-> | Hji].
        -- repeat case_match; simplify_option_eq. congruence.
        -- apply Hbs; [done | congruence].
      * split; [intros _; apply Hck; by eexists |].
        intros j Hj Hji. apply Hbs; [done | congruence].
    + (* write the flag *)
      case_decide as Hc; [| done]. destruct Hc as (_ & Hc & Hlv). simplify_eq. cbn.
      cbn in Hex. unfold of_option, store_elem in Hex.
      destruct (_ && _) eqn:Hrange; [| done]. cbn in Hex. simplify_eq. cbn.
      apply andb_prop in Hrange as [Hrange Hlt]. apply andb_prop in Hrange as [H0 H4].
      assert (inside (sigma T_button) = true) as Hins by (apply Hck; by eexists).
      split; [done |]. split; [by auto |]. split; [by intros [] |].
      intros j Hj _. destruct (decide (j = i)) as [-> | Hji].
      * rewrite list_lookup_insert_eq by lia. done.
      * rewrite list_lookup_insert_ne by lia. apply Hbs; [done | congruence].
    + (* read a line *)
      destruct (button_index pin) as [i |] eqn:Hpin; [| done].
      assert (0 <= i < 4) as Hi by (destruct pin; cbn in Hpin; simplify_eq; lia).
      case_decide as Hc; [| done]. destruct Hc as (_ & Hnone & Hins). simplify_eq. cbn.
      rewrite Hfr, Hlf, length_insert.
      split; [done |]. split; [by auto |]. split; [done |].
      intros j Hj Hji. rewrite list_lookup_insert_ne by (intros ?; apply Hji; f_equal; lia).
      apply Hbs; [done |]. by rewrite Hnone.
  - rewrite fn_lookup_insert_ne by done.
    assert (inside (sigma T_button) = true -> rtdb_lock w' = Some T_button) as Hin'.
    { intros Hi. specialize (Hin Hi).
      destruct e; cbn in Hd, Hlk, Hlf; try done; try (by rewrite Hlf).
      - destruct Hlk as [Hlk _]. congruence.
      - rewrite Hlk, Hin. by rewrite decide_False by congruence. }
    destruct e; cbn in Hd, Hfr;
      rewrite ?(decide_False (P := t = T_button)) in Hd by done;
      try done; try (simplify_eq; rewrite ?Hfr; by repeat split; auto).
    rewrite decide_False in Hd by (by intros [? _]). done.
Qed.

Lemma view_check_button (pin : gpio_pin) (i : Z) (st : button_view) :
  button_index pin = Some i ->
  checking st = None -> length (levels st) = 4%nat -> inside st = true ->
  conforms (view_step T_button)
           (fun st' => checking st' = None /\ length (levels st') = 4%nat
                       /\ inside st' = true)
           st (Button.check_button pin i).
Proof.
  intros Hpin Hc Hlen Hin.
  assert (0 <= i < 4) as Hi by (destruct pin; cbn in Hpin; simplify_eq; lia).
  unfold Button.check_button. intros r. cbn. rewrite Hpin.
  rewrite decide_True by done. intros stored. cbn.
  rewrite decide_True by done.
  rewrite list_lookup_insert_eq by lia.
  destruct (decide (to_bool r = stored)) as [<- | Hne].
  - rewrite decide_True by done. rewrite bool_decide_false by (intros ?; done). cbn.
    rewrite decide_True by done. by rewrite length_insert.
  - rewrite decide_True by done. rewrite bool_decide_true by done. cbn.
    intros _.
    rewrite (decide_False (P := Some (to_bool r) = Some stored)) by congruence.
    rewrite decide_True
      by (repeat split; try done; apply list_lookup_insert_eq; lia).
    cbn. by rewrite length_insert.
Qed.

Lemma view_button_thread st :
  view_idle T_button st ->
  conforms (view_step T_button) (view_idle T_button) st Button.button_thread.
Proof.
  intros [Hc Hlen]. unfold Button.button_thread.
  intros ?. cbn -[Button.check_button].
  apply conforms_bind.
  eapply conforms_mono; [| by apply (view_check_button button1 0)].
  intros st1 (Hc1 & Hl1 & Hi1) _.
  apply conforms_bind.
  eapply conforms_mono; [| by apply (view_check_button button2 1)].
  intros st2 (Hc2 & Hl2 & Hi2) _.
  apply conforms_bind.
  eapply conforms_mono; [| by apply (view_check_button button3 2)].
  intros st3 (Hc3 & Hl3 & Hi3) _.
  apply conforms_bind.
  eapply conforms_mono; [| by apply (view_check_button button4 3)].
  intros st4 (Hc4 & Hl4 & Hi4) _.
  intros ?. cbn. rewrite !decide_True by done. intros ?. cbn. done.
Qed.

(** A thread other than the button loop reads no line and writes no
    button flag. *)
Lemma view_by_role {A : Type} (t : tid) (st0 : unit) (st : button_view) (p : prog A) :
  t <> T_button ->
  conforms (role_step t) (any_state t) st0 p ->
  conforms (view_step t) (fun st' => st' = st) st p.
Proof.
  intros Ht. revert st0; induction p as [a | X e k IH]; intros st0; [done |].
  cbn [conforms]. intros H x. specialize (H x). unfold role_step in H.
  destruct (call_allowed t (Call e x)) eqn:Hc; [| done].
  assert (view_step t st (Call e x) = Some st) as ->.
  { destruct t, e; try done. }
  by eapply IH.
Qed.

Lemma view_loops_conform : loops_conform view_step view_idle.
Proof.
  destruct role_loops_conform as (H1 & H2 & _ & H4 & H5 & H6).
  repeat split; intros.
  - eapply conforms_mono; [| by apply (view_by_role T_uart tt), H1]. by intros ? ->.
  - eapply conforms_mono; [| by apply (view_by_role T_led tt), H2]. by intros ? ->.
  - by apply view_button_thread.
  - eapply conforms_mono; [| by apply (view_by_role T_sensor tt), H4]. by intros ? ->.
  - eapply conforms_mono; [| by apply (view_by_role T_process tt), H5]. by intros ? ->.
  - eapply conforms_mono; [| by apply (view_by_role T_database tt), H6]. by intros ? ->.
Qed.

Lemma accepts_view_levels st cs st' :
  accepts (view_step T_button) st cs = Some st' ->
  levels st'
  = foldl (fun l ib => <[Z.to_nat (fst ib) := snd ib]> l) (levels st) (omap read_level cs).
Proof.
  revert st; induction cs as [| c cs IH]; intros st H; simpl in *.
  - by simplify_eq.
  - destruct (view_step T_button st c) as [st1 |] eqn:Hc; [| done].
    apply IH in H. rewrite H. clear H IH.
    destruct c as [X e x]. destruct e; simpl in Hc; try (by simplify_eq);
      try (repeat case_match; simplify_eq/=; done).
    simpl. destruct (button_index pin) as [i |]; [| done].
    case_decide; by simplify_eq/=.
Qed.

(** X19: the button flags follow the buttons.  In every execution, while
    the button loop is not inside its critical section, [button_state]
    holds for each button the last level the loop has read from it, as 0 or
    1, and 0 for a button it has not read yet: no flag is stale, and no
    other thread changes one. *)
Theorem buttons_tracked (s : system) (tr : trace) :
  execution s tr ->
  rtdb_lock (shared s) <> Some T_button ->
  button_state (rtdb_data (shared s)) = button_levels tr.
Proof.
  intros Hex Hfree.
  destruct (conformance view_step view_idle view_inv
              view_loops_conform view_exec_preserves
              view_boot) with (s := s) (tr := tr)
    as (sigma & Hacc & _ & Hlen & Hin & Hck & Hbs).
  - by repeat split.
  - split; [done |]. split; [done |]. split; [by intros [] |]. done.
  - done.
  - pose proof (accepts_view_levels _ _ _ (Hacc T_button)) as Hlv. cbn in Hlv.
    unfold button_levels. rewrite <- Hlv.
    assert (checking (sigma T_button) = None) as Hnone.
    { destruct (checking (sigma T_button)) as [i |] eqn:Hc; [| done].
      exfalso. apply Hfree, Hin, Hck. by eexists. }
    destruct (execution_wf s tr Hex) as [_ Hwf].
    apply list_eq. intros n.
    destruct (decide (n < 4)%nat) as [Hn | Hn].
    + specialize (Hbs (Z.of_nat n)). rewrite Nat2Z.id in Hbs.
      apply Hbs; [lia |]. by rewrite Hnone.
    + rewrite !lookup_ge_None_2 by lia. done.
Qed.

Lemma buttons_tracked_witness :
  button_state (rtdb_data (shared (fst (run_boot button_schedule))))
  = button_levels (snd (run_boot button_schedule)).
Proof.
  apply (buttons_tracked (fst (run_boot button_schedule))
                         (snd (run_boot button_schedule))).
  - apply run_boot_execution. vm_compute. reflexivity.
  - vm_compute. discriminate.
Defined.
